(* ===================================================================== *)
(* half-frame-split: the split / rotate / export pipeline of App.vue,     *)
(* FrameView.vue and HalfFrame.vue as a shallow embedding.                *)
(*                                                                        *)
(* JavaScript numbers that hold pixel counts, indices and angles are      *)
(* integers (Z); the two half boundaries `width / 2` and `height / 2`     *)
(* are exact halves of integers and are kept as rationals (Q).            *)
(* ===================================================================== *)

From Stdlib Require Import ZArith QArith Qround Lia.
From Stdlib Require Import Strings.String Strings.Ascii.
From Stdlib Require Import Numbers.DecimalString Numbers.DecimalZ.
From stdpp Require Import base list strings.

Local Open Scope Z_scope.

(* --------------------------------------------------------------------- *)
(* The browser objects the code touches                                  *)
(* --------------------------------------------------------------------- *)
Module Dom.

(* A decoded image element: `img.width`, `img.height` after `onload`. *)
Record HTMLImage := { img_width : Z; img_height : Z }.

(* The arguments of one nine-argument `ctx.drawImage(img, sx, sy, sw, sh,
   dx, dy, dw, dh)` call; they are plain numbers and may be fractional. *)
Record DrawImage := {
  sx : Q; sy : Q; sw : Q; sh : Q;
  dx : Q; dy : Q; dw : Q; dh : Q
}.

(* A canvas: its bitmap size and the crop drawn on it. *)
Record Canvas := {
  width : Z;
  height : Z;
  drawn : option DrawImage
}.

(* `canvas.width = v` with a number v: the attribute is an unsigned long,
   so the assignment keeps the integer part of v (truncation towards
   zero).  The dimensions met here lie far below 2^32, where the
   conversion would wrap. *)
Definition toUnsignedLong (v : Q) : Z :=
  if Qle_bool 0 v then Qfloor v else Qceiling v.

Inductive MimeType :=
| ImageJpeg (quality : Q)
| ImagePng.

(* The strings that travel as `imageData`: either what FileReader's
   readAsDataURL produced from a file (which decodes to an image or does
   not), or what `canvas.toDataURL(type, quality)` produced. *)
Inductive DataURL :=
| FileData (decoded : option HTMLImage)
| CanvasData (type : MimeType) (bitmap : Canvas).

Definition toDataURL (c : Canvas) (type : MimeType) : DataURL :=
  CanvasData type c.

(* `img.src = imageData`: Some image when `onload` fires, None when
   `onerror` fires.  A canvas without pixels serialises to "data:,",
   which is not an image.  A browser also serialises a canvas beyond its
   own size limit to "data:,"; that limit differs from browser to browser
   and is not part of this model, so that a statement about the halves of
   an image of any size takes their decoding as a hypothesis. *)
Definition decode (imageData : DataURL) : option HTMLImage :=
  match imageData with
  | FileData d => d
  | CanvasData _ c =>
      if (0 <? width c) && (0 <? height c)
      then Some {| img_width := width c; img_height := height c |}
      else None
  end.

(* A settled promise. *)
Inductive Failure := ReaderError | ImageError.

Inductive Promise (A : Type) :=
| Resolved (a : A)
| Rejected (e : Failure).
Arguments Resolved {A} a.
Arguments Rejected {A} e.

(* `Promise.all`: the values in list order when every promise resolves,
   a rejection when one rejects.  When several reject, JavaScript reports
   the one that settles first; the order in which the reads and decodes
   of one group finish is not part of this model, which names the first
   rejection in list order. *)
Fixpoint promiseAll {A : Type} (ps : list (Promise A)) : Promise (list A) :=
  match ps with
  | [] => Resolved []
  | Rejected e :: _ => Rejected e
  | Resolved a :: rest =>
      match promiseAll rest with
      | Resolved l => Resolved (a :: l)
      | Rejected e => Rejected e
      end
  end.

End Dom.
Import Dom.

(* --------------------------------------------------------------------- *)
(* App.vue: the registry record and splitImageInHalf                     *)
(* --------------------------------------------------------------------- *)

Record SplitImage := {
  leftHalf : DataURL;
  rightHalf : DataURL;
  leftHalfOriginal : DataURL;
  rightHalfOriginal : DataURL;
  originalName : string;
  leftRotation : Z;
  rightRotation : Z;
  leftChecked : bool;
  rightChecked : bool
}.

Module Splitter.

Definition jpeg92 : MimeType := ImageJpeg (92 # 100).

(* const isHorizontal = width > height *)
Definition isHorizontal (width height : Z) : bool := width >? height.

Definition splitImageInHalf (imageData : DataURL) (fileName : string)
  : Promise SplitImage :=
  match decode imageData with
  | None => Rejected ImageError
  | Some img =>
      let width := img_width img in
      let height := img_height img in
      if isHorizontal width height then
        let halfWidth := (inject_Z width / 2)%Q in
        let leftCanvas :=
          {| Dom.width := toUnsignedLong halfWidth;
             Dom.height := height;
             drawn := Some {| sx := 0; sy := 0;
                              sw := halfWidth; sh := inject_Z height;
                              dx := 0; dy := 0;
                              dw := halfWidth; dh := inject_Z height |} |} in
        let rightCanvas :=
          {| Dom.width := toUnsignedLong halfWidth;
             Dom.height := height;
             drawn := Some {| sx := halfWidth; sy := 0;
                              sw := halfWidth; sh := inject_Z height;
                              dx := 0; dy := 0;
                              dw := halfWidth; dh := inject_Z height |} |} in
        Resolved {| leftHalf := toDataURL leftCanvas jpeg92;
                    rightHalf := toDataURL rightCanvas jpeg92;
                    leftHalfOriginal := toDataURL leftCanvas ImagePng;
                    rightHalfOriginal := toDataURL rightCanvas ImagePng;
                    originalName := fileName;
                    leftRotation := 0;
                    rightRotation := 0;
                    leftChecked := false;
                    rightChecked := false |}
      else
        let halfHeight := (inject_Z height / 2)%Q in
        let topCanvas :=
          {| Dom.width := width;
             Dom.height := toUnsignedLong halfHeight;
             drawn := Some {| sx := 0; sy := 0;
                              sw := inject_Z width; sh := halfHeight;
                              dx := 0; dy := 0;
                              dw := inject_Z width; dh := halfHeight |} |} in
        let bottomCanvas :=
          {| Dom.width := width;
             Dom.height := toUnsignedLong halfHeight;
             drawn := Some {| sx := 0; sy := halfHeight;
                              sw := inject_Z width; sh := halfHeight;
                              dx := 0; dy := 0;
                              dw := inject_Z width; dh := halfHeight |} |} in
        Resolved {| leftHalf := toDataURL topCanvas jpeg92;
                    rightHalf := toDataURL bottomCanvas jpeg92;
                    leftHalfOriginal := toDataURL topCanvas ImagePng;
                    rightHalfOriginal := toDataURL bottomCanvas ImagePng;
                    originalName := fileName;
                    leftRotation := 0;
                    rightRotation := 0;
                    leftChecked := false;
                    rightChecked := false |}
  end.

End Splitter.
Import Splitter.

(* --------------------------------------------------------------------- *)
(* App.vue: the reactive state and the registry operations               *)
(* --------------------------------------------------------------------- *)

Inductive Side := LeftSide | RightSide.

(* The literal type 0 | 90 | -90 | 180 of `deltaRotation`. *)
Inductive DeltaRotation := Delta0 | Delta90 | DeltaMinus90 | Delta180.

Definition deltaValue (d : DeltaRotation) : Z :=
  match d with
  | Delta0 => 0
  | Delta90 => 90
  | DeltaMinus90 => -90
  | Delta180 => 180
  end.

Record Progress := { current : Z; total : Z }.

(* The refs of the script: splitImages, isImporting, importProgress,
   shouldStopImport, isDownloading, downloadProgress, shouldStopDownload. *)
Record AppState := {
  splitImages : list SplitImage;
  isImporting : bool;
  importProgress : Progress;
  shouldStopImport : bool;
  isDownloading : bool;
  downloadProgress : Progress;
  shouldStopDownload : bool
}.

Module Registry.

Definition setSplitImages (v : list SplitImage) (st : AppState) : AppState :=
  {| splitImages := v;
     isImporting := isImporting st;
     importProgress := importProgress st;
     shouldStopImport := shouldStopImport st;
     isDownloading := isDownloading st;
     downloadProgress := downloadProgress st;
     shouldStopDownload := shouldStopDownload st |}.

(* splitImages.value[pairIndex]: undefined outside 0 .. length-1. *)
Definition pairAt (imgs : list SplitImage) (pairIndex : Z) : option SplitImage :=
  if pairIndex <? 0 then None else imgs !! Z.to_nat pairIndex.

(* Array.prototype.splice's start: a negative index counts from the end,
   and the result is clamped to 0 .. length. *)
Definition spliceStart (len index : Z) : Z :=
  if index <? 0 then Z.max (len + index) 0 else Z.min index len.

(* splitImages.value.splice(index, 1); nothing is deleted when the start
   is the length. *)
Definition removeImagePair (index : Z) (st : AppState) : AppState :=
  let imgs := splitImages st in
  setSplitImages
    (delete (Z.to_nat (spliceStart (Z.of_nat (length imgs)) index)) imgs) st.

Definition clearAll (st : AppState) : AppState := setSplitImages [] st.

Definition rotationOf (side : Side) (image : SplitImage) : Z :=
  match side with
  | LeftSide => leftRotation image
  | RightSide => rightRotation image
  end.

Definition checkedOf (side : Side) (image : SplitImage) : bool :=
  match side with
  | LeftSide => leftChecked image
  | RightSide => rightChecked image
  end.

Definition setLeftRotation (v : Z) (image : SplitImage) : SplitImage :=
  {| leftHalf := leftHalf image; rightHalf := rightHalf image;
     leftHalfOriginal := leftHalfOriginal image;
     rightHalfOriginal := rightHalfOriginal image;
     originalName := originalName image;
     leftRotation := v; rightRotation := rightRotation image;
     leftChecked := leftChecked image; rightChecked := rightChecked image |}.

Definition setRightRotation (v : Z) (image : SplitImage) : SplitImage :=
  {| leftHalf := leftHalf image; rightHalf := rightHalf image;
     leftHalfOriginal := leftHalfOriginal image;
     rightHalfOriginal := rightHalfOriginal image;
     originalName := originalName image;
     leftRotation := leftRotation image; rightRotation := v;
     leftChecked := leftChecked image; rightChecked := rightChecked image |}.

Definition setLeftChecked (v : bool) (image : SplitImage) : SplitImage :=
  {| leftHalf := leftHalf image; rightHalf := rightHalf image;
     leftHalfOriginal := leftHalfOriginal image;
     rightHalfOriginal := rightHalfOriginal image;
     originalName := originalName image;
     leftRotation := leftRotation image; rightRotation := rightRotation image;
     leftChecked := v; rightChecked := rightChecked image |}.

Definition setRightChecked (v : bool) (image : SplitImage) : SplitImage :=
  {| leftHalf := leftHalf image; rightHalf := rightHalf image;
     leftHalfOriginal := leftHalfOriginal image;
     rightHalfOriginal := rightHalfOriginal image;
     originalName := originalName image;
     leftRotation := leftRotation image; rightRotation := rightRotation image;
     leftChecked := leftChecked image; rightChecked := v |}.

(* The body of rotateToDirection once `image` is known to exist. *)
Definition rotated (side : Side) (deltaRotation : DeltaRotation)
           (image : SplitImage) : SplitImage :=
  let currentRotation := rotationOf side image in
  let newRotation := currentRotation + deltaValue deltaRotation in
  match side with
  | LeftSide => setLeftRotation newRotation image
  | RightSide => setRightRotation newRotation image
  end.

(* The object is mutated in place, so the array holds the new fields at
   the same position. *)
Definition rotateToDirection (pairIndex : Z) (side : Side)
           (deltaRotation : DeltaRotation) (st : AppState) : AppState :=
  match pairAt (splitImages st) pairIndex with
  | None => st
  | Some _ =>
      setSplitImages
        (alter (rotated side deltaRotation) (Z.to_nat pairIndex) (splitImages st))
        st
  end.

Definition toggled (side : Side) (image : SplitImage) : SplitImage :=
  match side with
  | LeftSide => setLeftChecked (negb (leftChecked image)) image
  | RightSide => setRightChecked (negb (rightChecked image)) image
  end.

Definition toggleCheck (pairIndex : Z) (side : Side) (st : AppState) : AppState :=
  match pairAt (splitImages st) pairIndex with
  | None => st
  | Some _ =>
      setSplitImages
        (alter (toggled side) (Z.to_nat pairIndex) (splitImages st)) st
  end.

(* reduce((count, img) => count + (img.leftChecked ? 1 : 0)
                                + (img.rightChecked ? 1 : 0), 0) *)
Definition checkedCount (imgs : list SplitImage) : Z :=
  fold_left
    (fun count img =>
       count + (if leftChecked img then 1 else 0)
             + (if rightChecked img then 1 else 0))
    imgs 0.

End Registry.
Import Registry.

(* --------------------------------------------------------------------- *)
(* The user pressing a stop button while a handler is suspended          *)
(* --------------------------------------------------------------------- *)
Module Scheduler.

(* Both batch handlers suspend at `await`.  A schedule records the stop
   presses: one entry per await, in order, true when stop was pressed
   during that suspension; a schedule that runs out means no further
   presses.  The rest of the page stays in use while a batch runs; module
   Interleaved follows the export when the registry is edited during a
   pause. *)
Definition Schedule := list bool.

Definition await (stop : AppState -> AppState) (st : AppState)
           (clicks : Schedule) : AppState * Schedule :=
  match clicks with
  | [] => (st, [])
  | pressed :: later => (if pressed then stop st else st, later)
  end.

End Scheduler.
Import Scheduler.

(* --------------------------------------------------------------------- *)
(* HalfFrame.vue: the display transform                                  *)
(* --------------------------------------------------------------------- *)
Module Display.

Definition numberToString (n : Z) : string :=
  NilEmpty.string_of_int (Z.to_int n).

(* transform: `rotate(${props.rotation}deg)` *)
Definition imageStyle (rotation : Z) : string :=
  "rotate(" +:+ numberToString rotation +:+ "deg)".

End Display.

(* --------------------------------------------------------------------- *)
(* App.vue: downloadHalf and downloadChecked                             *)
(* --------------------------------------------------------------------- *)
Module Exporter.

Definition sideLabel (side : Side) : string :=
  match side with
  | LeftSide => "left"
  | RightSide => "right"
  end.

(* ((rotation % 360) + 360) % 360; `%` takes the sign of the dividend. *)
Definition normalizedRotation (rotation : Z) : Z :=
  Z.rem (Z.rem rotation 360 + 360) 360.

(* One character of the class [^/.] *)
Definition isExtensionChar (c : ascii) : bool :=
  negb (Ascii.eqb c "/") && negb (Ascii.eqb c ".").

Fixpoint allExtensionChars (s : string) : bool :=
  match s with
  | EmptyString => true
  | String c rest => isExtensionChar c && allExtensionChars rest
  end.

(* Does /\.[^/.]+$/ match with the dot at the head of s? *)
Definition extensionHere (s : string) : bool :=
  match s with
  | String c0 (String c1 rest) =>
      Ascii.eqb c0 "." && isExtensionChar c1 && allExtensionChars rest
  | _ => false
  end.

(* fileName.replace(/\.[^/.]+$/, ''): the leftmost match runs to the end
   of the string and is replaced by nothing. *)
Fixpoint replaceExtension (fileName : string) : string :=
  if extensionHere fileName then EmptyString
  else match fileName with
       | EmptyString => EmptyString
       | String c rest => String c (replaceExtension rest)
       end.

(* What one call of downloadHalf hands to the browser, with the canvas
   it is serialised from.  The call itself only sets `img.src`; the
   canvas is drawn in `img.onload` and `a.click()` runs in the callback
   of `toBlob`, both after the call has returned, so that the files of
   several calls appear in the order in which their callbacks run. *)
Record Download := {
  download : string;
  canvasWidth : Z;
  canvasHeight : Z;
  translateBy : Q * Q;
  rotateDegrees : Z;
  drawAt : Q * Q;
  blobType : MimeType
}.

(* downloadHalf: nothing happens when the data does not decode (no
   onerror handler is installed). *)
Definition downloadHalf (imageData : DataURL) (rotation : Z)
           (fileName : string) (label : string) : option Download :=
  match decode imageData with
  | None => None
  | Some img =>
      let normalized := normalizedRotation rotation in
      let '(w, h) :=
        if (normalized =? 90) || (normalized =? 270)
        then (img_height img, img_width img)
        else (img_width img, img_height img) in
      Some {| download := replaceExtension fileName +:+ "_" +:+ label +:+ ".jpg";
              canvasWidth := w;
              canvasHeight := h;
              translateBy := ((inject_Z w / 2)%Q, (inject_Z h / 2)%Q);
              rotateDegrees := rotation;
              drawAt := ((- inject_Z (img_width img) / 2)%Q,
                         (- inject_Z (img_height img) / 2)%Q);
              blobType := ImageJpeg (98 # 100) |}
  end.

Definition setIsDownloading (v : bool) (st : AppState) : AppState :=
  {| splitImages := splitImages st;
     isImporting := isImporting st;
     importProgress := importProgress st;
     shouldStopImport := shouldStopImport st;
     isDownloading := v;
     downloadProgress := downloadProgress st;
     shouldStopDownload := shouldStopDownload st |}.

Definition setDownloadProgress (v : Progress) (st : AppState) : AppState :=
  {| splitImages := splitImages st;
     isImporting := isImporting st;
     importProgress := importProgress st;
     shouldStopImport := shouldStopImport st;
     isDownloading := isDownloading st;
     downloadProgress := v;
     shouldStopDownload := shouldStopDownload st |}.

Definition setShouldStopDownload (v : bool) (st : AppState) : AppState :=
  {| splitImages := splitImages st;
     isImporting := isImporting st;
     importProgress := importProgress st;
     shouldStopImport := shouldStopImport st;
     isDownloading := isDownloading st;
     downloadProgress := downloadProgress st;
     shouldStopDownload := v |}.

Definition stopDownload (st : AppState) : AppState :=
  setShouldStopDownload true st.

(* A run of the export loop: the state, the rest of the schedule, and
   the downloads asked for so far, in the order of the downloadHalf calls
   (calls whose data does not decode left out). *)
Definition Run : Type := AppState * Schedule * list Download.

Inductive Flow := Next (r : Run) | Break (r : Run).

(* if (img.<side>Checked) { if (stop) break; downloadHalf(...);
     downloadProgress.value.current++; await 100ms } *)
Definition exportSide (checked : bool) (imageData : DataURL) (rotation : Z)
           (fileName : string) (label : string) (r : Run) : Flow :=
  let '(st, clicks, log) := r in
  if checked then
    if shouldStopDownload st then Break r
    else
      let log' :=
        log ++ option_list (downloadHalf imageData rotation fileName label) in
      let p := downloadProgress st in
      let st' :=
        setDownloadProgress {| current := current p + 1; total := total p |} st in
      let '(st'', clicks') := await stopDownload st' clicks in
      Next (st'', clicks', log')
  else Next r.

(* for (let i = 0; i < splitImages.value.length; i++) { ... } when
   nothing but the stop button is used during the pauses: the registry
   the loop re-reads after every pause is then the one it started with,
   and the loop walks that list.  Interleaved.downloadLoop is the loop
   under any use of the page. *)
Fixpoint downloadLoop (imgs : list SplitImage) (r : Run) : Run :=
  match imgs with
  | [] => r
  | img :: rest =>
      if shouldStopDownload (fst (fst r)) then r
      else
        match exportSide (leftChecked img) (leftHalfOriginal img)
                         (leftRotation img) (originalName img) "left" r with
        | Break r1 => r1
        | Next r1 =>
            match exportSide (rightChecked img) (rightHalfOriginal img)
                             (rightRotation img) (originalName img) "right" r1 with
            | Break r2 => r2
            | Next r2 => downloadLoop rest r2
            end
        end
  end.

Definition downloadChecked (st : AppState) (clicks : Schedule) : Run :=
  let total := checkedCount (splitImages st) in
  if total =? 0 then (st, clicks, [])
  else
    let st1 :=
      setDownloadProgress {| current := 0; total := total |}
        (setShouldStopDownload false (setIsDownloading true st)) in
    let '(st2, clicks2, log) := downloadLoop (splitImages st1) (st1, clicks, []) in
    let '(st3, clicks3) := await stopDownload st2 clicks2 in
    (setShouldStopDownload false (setIsDownloading false st3), clicks3, log).

End Exporter.
Import Exporter.

(* --------------------------------------------------------------------- *)
(* App.vue: processFile and handleFileSelect                             *)
(* --------------------------------------------------------------------- *)
Module Importer.

(* A picked file: its name, its MIME type, and what FileReader's
   readAsDataURL yields (None when the reader fires onerror). *)
Record File := {
  name : string;
  type : string;
  readAsDataURL : option DataURL
}.

Definition processFile (file : File) : Promise SplitImage :=
  match readAsDataURL file with
  | None => Rejected ReaderError
  | Some imageData => splitImageInHalf imageData (name file)
  end.

Definition setIsImporting (v : bool) (st : AppState) : AppState :=
  {| splitImages := splitImages st;
     isImporting := v;
     importProgress := importProgress st;
     shouldStopImport := shouldStopImport st;
     isDownloading := isDownloading st;
     downloadProgress := downloadProgress st;
     shouldStopDownload := shouldStopDownload st |}.

Definition setImportProgress (v : Progress) (st : AppState) : AppState :=
  {| splitImages := splitImages st;
     isImporting := isImporting st;
     importProgress := v;
     shouldStopImport := shouldStopImport st;
     isDownloading := isDownloading st;
     downloadProgress := downloadProgress st;
     shouldStopDownload := shouldStopDownload st |}.

Definition setShouldStopImport (v : bool) (st : AppState) : AppState :=
  {| splitImages := splitImages st;
     isImporting := isImporting st;
     importProgress := importProgress st;
     shouldStopImport := v;
     isDownloading := isDownloading st;
     downloadProgress := downloadProgress st;
     shouldStopDownload := shouldStopDownload st |}.

Definition stopImport (st : AppState) : AppState :=
  setShouldStopImport true st.

Definition batchSize : Z := 2.

(* How an async handler ends, with the state and schedule it leaves. *)
Definition Run : Type := AppState * Schedule * Promise unit.

(* The for loop at index i; `pending` is fileArray.slice(i) and `len` is
   fileArray.length, so `take 2 pending` is fileArray.slice(i, i + 2).
   A rejection of Promise.all is thrown by the await and leaves the
   handler. *)
Fixpoint importLoop (i len : Z) (pending : list File) (st : AppState)
         (clicks : Schedule) : Run :=
  match pending with
  | [] => (st, clicks, Resolved tt)
  | _ :: tl =>
      if shouldStopImport st then (st, clicks, Resolved tt)
      else
        let batch := take 2 pending in
        let '(st1, clicks1) := await stopImport st clicks in
        match promiseAll (map processFile batch) with
        | Rejected e => (st1, clicks1, Rejected e)
        | Resolved results =>
            let st2 := setSplitImages (splitImages st1 ++ results) st1 in
            let st3 :=
              setImportProgress
                {| current := Z.min (i + batchSize) len;
                   total := total (importProgress st2) |} st2 in
            let '(st4, clicks4) :=
              if i + batchSize <? len
              then await stopImport st3 clicks1
              else (st3, clicks1) in
            match tl with
            | [] => (st4, clicks4, Resolved tt)
            | _ :: later => importLoop (i + batchSize) len later st4 clicks4
            end
        end
  end.

(* `files` is target.files: null, or the list the user picked. *)
Definition handleFileSelect (files : option (list File)) (st : AppState)
           (clicks : Schedule) : Run :=
  match files with
  | None => (st, clicks, Resolved tt)
  | Some [] => (st, clicks, Resolved tt)
  | Some picked =>
      let fileArray := filter (fun file => String.prefix "image/" (type file) = true) picked in
      match fileArray with
      | [] => (st, clicks, Resolved tt)
      | _ =>
          let len := Z.of_nat (length fileArray) in
          let st0 :=
            setImportProgress {| current := 0; total := len |}
              (setShouldStopImport false (setIsImporting true st)) in
          match importLoop 0 len fileArray st0 clicks with
          | (st1, clicks1, Rejected e) => (st1, clicks1, Rejected e)
          | (st1, clicks1, Resolved _) =>
              let '(st2, clicks2) := await stopImport st1 clicks1 in
              (setShouldStopImport false (setIsImporting false st2),
               clicks2, Resolved tt)
          end
      end
  end.

End Importer.
Import Importer.

(* --------------------------------------------------------------------- *)
(* App.vue: the computed properties                                      *)
(* --------------------------------------------------------------------- *)
Module Controls.

(* allChecked, get: false for an empty registry, else
   every((img) => img.leftChecked && img.rightChecked) *)
Definition allChecked (st : AppState) : bool :=
  if (length (splitImages st) =? 0)%nat then false
  else forallb (fun img => leftChecked img && rightChecked img) (splitImages st).

(* allChecked, set: forEach((img) => { img.leftChecked = value;
   img.rightChecked = value }) *)
Definition setAllChecked (value : bool) (st : AppState) : AppState :=
  setSplitImages
    (map (fun img => setRightChecked value (setLeftChecked value img))
         (splitImages st))
    st.

(* some((img) => img.leftChecked || img.rightChecked) *)
Definition hasCheckedItems (st : AppState) : bool :=
  existsb (fun img => leftChecked img || rightChecked img) (splitImages st).

(* Math.round: the nearest integer, a tie going up. *)
Definition mathRound (v : Q) : Z := Qfloor (v + (1 # 2))%Q.

(* Math.round(200 + (zoomLevel.value - 25) * (600 / 75)); the slider
   hands over whole numbers. *)
Definition maxImageHeight (zoomLevel : Z) : Z :=
  mathRound (200 + (inject_Z zoomLevel - 25) * (600 / 75))%Q.

End Controls.
Import Controls.

(* --------------------------------------------------------------------- *)
(* FrameView.vue: the fullscreen overlay                                 *)
(* --------------------------------------------------------------------- *)
Module Viewer.

(* fullscreenSide (null when closed), zoomLevel, panX, panY *)
Record View := {
  fullscreenSide : option Side;
  zoomLevel : Q;
  panX : Q;
  panY : Q
}.

Definition sameSide (a b : Side) : bool :=
  match a, b with
  | LeftSide, LeftSide | RightSide, RightSide => true
  | _, _ => false
  end.

Definition toggleFullscreen (side : Side) (v : View) : View :=
  match fullscreenSide v with
  | Some open =>
      if sameSide open side
      then {| fullscreenSide := None; zoomLevel := 1; panX := 0; panY := 0 |}
      else {| fullscreenSide := Some side; zoomLevel := 1; panX := 0; panY := 0 |}
  | None => {| fullscreenSide := Some side; zoomLevel := 1; panX := 0; panY := 0 |}
  end.

(* event.key === 'Escape' && fullscreenSide.value !== null *)
Definition handleEscape (key : string) (v : View) : View :=
  match fullscreenSide v with
  | Some _ =>
      if String.eqb key "Escape"
      then {| fullscreenSide := None; zoomLevel := 1; panX := 0; panY := 0 |}
      else v
  | None => v
  end.

(* fullscreenSide.value === 'left' ? leftHalf : rightHalf *)
Definition fullscreenImageSrc (imagePair : SplitImage) (v : View) : DataURL :=
  match fullscreenSide v with
  | Some LeftSide => leftHalf imagePair
  | _ => rightHalf imagePair
  end.

(* The angle that fullscreenImageStyle puts into rotate(...deg). *)
Definition fullscreenRotation (imagePair : SplitImage) (v : View) : Z :=
  match fullscreenSide v with
  | Some LeftSide => leftRotation imagePair
  | _ => rightRotation imagePair
  end.

(* What a key press, or a click on a half or on the open overlay, does. *)
Inductive ViewEvent :=
| ClickHalf (side : Side)
| ClickOverlay
| KeyDown (key : string).

Definition viewStep (v : View) (ev : ViewEvent) : View :=
  match ev with
  | ClickHalf side => toggleFullscreen side v
  | ClickOverlay =>
      match fullscreenSide v with
      | Some open => toggleFullscreen open v
      | None => v
      end
  | KeyDown key => handleEscape key v
  end.

End Viewer.

(* --------------------------------------------------------------------- *)
(* App.vue: downloadChecked while the page stays in use                  *)
(* --------------------------------------------------------------------- *)
Module Interleaved.

(* What can run while downloadChecked is suspended at an await: the
   handlers that write what the export reads (the stop flag, the registry
   and the fields of its pairs), the push of a running import, and the
   import's writes to its own three fields. *)
Inductive Action :=
| StopDownload
| RemoveImagePair (index : Z)
| ClearAll
| RotateToDirection (pairIndex : Z) (side : Side) (deltaRotation : DeltaRotation)
| ToggleCheck (pairIndex : Z) (side : Side)
| SetAllChecked (value : bool)
| Push (results : list SplitImage)
| ImportFields (importing : bool) (progress : Progress) (stop : bool).

Definition act (a : Action) (st : AppState) : AppState :=
  match a with
  | StopDownload => stopDownload st
  | RemoveImagePair index => removeImagePair index st
  | ClearAll => clearAll st
  | RotateToDirection pairIndex side deltaRotation =>
      rotateToDirection pairIndex side deltaRotation st
  | ToggleCheck pairIndex side => toggleCheck pairIndex side st
  | SetAllChecked value => setAllChecked value st
  | Push results => setSplitImages (splitImages st ++ results) st
  | ImportFields importing progress stop =>
      setShouldStopImport stop
        (setImportProgress progress (setIsImporting importing st))
  end.

(* One entry per await, in order: what ran during that suspension.  A
   schedule that runs out means nothing more happens. *)
Definition Schedule := list (list Action).

(* `const img = splitImages.value[i]` is a reference to the pair object:
   the loop reads the fields that object has when it reads them.  `place`
   is where the object sits in the registry now (None once it has been
   removed; nothing can write to it from then on), `fields` are its
   fields now. *)
Record Held := { place : option nat; fields : SplitImage }.

Definition holdThrough (a : Action) (before after : list SplitImage)
           (h : Held) : Held :=
  let place' :=
    match place h, a with
    | Some p, RemoveImagePair index =>
        let k := Z.to_nat (spliceStart (Z.of_nat (length before)) index) in
        if (k =? p)%nat then None
        else if (k <? p)%nat then Some (p - 1)%nat
        else Some p
    | Some p, ClearAll => None
    | o, _ => o
    end in
  {| place := place';
     fields := match place' with
               | Some q => default (fields h) (after !! q)
               | None => fields h
               end |}.

Fixpoint through (pause : list Action) (st : AppState) (h : Held)
  : AppState * Held :=
  match pause with
  | [] => (st, h)
  | a :: later =>
      let st' := act a st in
      through later st' (holdThrough a (splitImages st) (splitImages st') h)
  end.

(* await new Promise((resolve) => setTimeout(resolve, ...)) *)
Definition await (st : AppState) (h : Held) (pauses : Schedule)
  : AppState * Held * Schedule :=
  match pauses with
  | [] => (st, h, [])
  | pause :: later => let '(st', h') := through pause st h in (st', h', later)
  end.

(* The arguments of one downloadHalf call. *)
Record Call := {
  imageData : DataURL;
  rotation : Z;
  fileName : string;
  label : string
}.

(* The file a call triggers once its callbacks have run, if any. *)
Definition fileOf (c : Call) : option Download :=
  downloadHalf (imageData c) (rotation c) (fileName c) (label c).

(* downloadHalf(img.<side>HalfOriginal, img.<side>Rotation,
                img.originalName, '<side>') *)
Definition halfCall (side : Side) (img : SplitImage) : Call :=
  match side with
  | LeftSide =>
      {| imageData := leftHalfOriginal img; rotation := leftRotation img;
         fileName := originalName img; label := "left" |}
  | RightSide =>
      {| imageData := rightHalfOriginal img; rotation := rightRotation img;
         fileName := originalName img; label := "right" |}
  end.

(* A run of the export loop: the state, the rest of the schedule, the
   downloadHalf calls made so far. *)
Definition Run : Type := AppState * Schedule * list Call.

Inductive Flow := Next (r : Run) (h : Held) | Break (r : Run).

(* if (img.<side>Checked) { if (stop) break; downloadHalf(...);
     downloadProgress.value.current++; await 100ms } *)
Definition exportSide (side : Side) (h : Held) (r : Run) : Flow :=
  let '(st, pauses, calls) := r in
  if checkedOf side (fields h) then
    if shouldStopDownload st then Break r
    else
      let calls' := calls ++ [halfCall side (fields h)] in
      let p := downloadProgress st in
      let st' :=
        setDownloadProgress {| current := current p + 1; total := total p |} st in
      let '(st'', h', pauses') := await st' h pauses in
      Next (st'', pauses', calls') h'
  else Next r h.

(* for (let i = 0; i < splitImages.value.length; i++) { ... }: the length
   and the entry at i are read from the registry as it is when the loop
   gets there.  `fuel` bounds the number of turns. *)
Fixpoint downloadLoop (fuel : nat) (i : nat) (r : Run) : Run :=
  match fuel with
  | O => r
  | S fuel' =>
      if (i <? length (splitImages (fst (fst r))))%nat then
        if shouldStopDownload (fst (fst r)) then r
        else
          match splitImages (fst (fst r)) !! i with
          | None => downloadLoop fuel' (S i) r
          | Some img =>
              match exportSide LeftSide {| place := Some i; fields := img |} r with
              | Break r1 => r1
              | Next r1 h1 =>
                  match exportSide RightSide h1 r1 with
                  | Break r2 => r2
                  | Next r2 _ => downloadLoop fuel' (S i) r2
                  end
              end
          end
      else r
  end.

(* The pairs the pushes of a schedule add to the registry. *)
Definition pushedBy (a : Action) : nat :=
  match a with
  | Push results => length results
  | _ => 0%nat
  end.

Definition pushed (pauses : Schedule) : nat :=
  sum_list (map pushedBy (concat pauses)).

(* The last await of the handler; no pair is held across it. *)
Definition awaitIdle (st : AppState) (pauses : Schedule)
  : AppState * Schedule :=
  match pauses with
  | [] => (st, [])
  | pause :: later => (fold_left (fun st a => act a st) pause st, later)
  end.

(* The index grows by one each turn and the loop ends when it reaches the
   length of the registry, which only pushes make longer: the pairs at the
   start and the pairs pushed bound the number of turns. *)
Definition downloadChecked (st : AppState) (pauses : Schedule) : Run :=
  let total := checkedCount (splitImages st) in
  if total =? 0 then (st, pauses, [])
  else
    let st1 :=
      setDownloadProgress {| current := 0; total := total |}
        (setShouldStopDownload false (setIsDownloading true st)) in
    let fuel := (length (splitImages st1) + pushed pauses)%nat in
    let '(st2, pauses2, calls) := downloadLoop fuel 0 (st1, pauses, []) in
    let '(st3, pauses3) := awaitIdle st2 pauses2 in
    (setShouldStopDownload false (setIsDownloading false st3), pauses3, calls).

End Interleaved.

(* ===================================================================== *)
(* Observations used to state the properties                             *)
(* ===================================================================== *)

(* The midline a pair was cut along, read off the crop of its second
   half: a crop that starts to the right of the origin comes from a cut
   along the vertical midline, one that starts below the origin from a
   cut along the horizontal midline. *)
Inductive Axis := Vertical | Horizontal.

Definition cropOrigin (u : DataURL) : option (Q * Q) :=
  match u with
  | CanvasData _ c =>
      match drawn c with
      | Some d => Some (sx d, sy d)
      | None => None
      end
  | FileData _ => None
  end.

Definition midlineOf (s : SplitImage) : option Axis :=
  match cropOrigin (leftHalfOriginal s), cropOrigin (rightHalfOriginal s) with
  | Some (x1, y1), Some (x2, y2) =>
      if Qeq_bool x1 0 && Qeq_bool y1 0 then
        if negb (Qle_bool x2 0) && Qeq_bool y2 0 then Some Vertical
        else if Qeq_bool x2 0 && negb (Qle_bool y2 0) then Some Horizontal
        else None
      else None
  | _, _ => None
  end.

(* The bitmap size of an encoded half. *)
Definition halfSize (u : DataURL) : option (Z * Z) :=
  match u with
  | CanvasData _ c => Some (width c, height c)
  | FileData _ => None
  end.

(* The extension-stripping the specification words describe: everything
   from the last dot on is removed; a name without a dot is kept. *)
Fixpoint hasDot (s : string) : bool :=
  match s with
  | EmptyString => false
  | String c rest => Ascii.eqb c "." || hasDot rest
  end.

Fixpoint stripLastExtension (s : string) : string :=
  match s with
  | EmptyString => EmptyString
  | String c rest =>
      if Ascii.eqb c "." && negb (hasDot rest) then EmptyString
      else String c (stripLastExtension rest)
  end.

(* The text after the last dot of a name, when the name has a dot. *)
Fixpoint afterLastDot (s : string) : option string :=
  match s with
  | EmptyString => None
  | String c rest =>
      match afterLastDot rest with
      | Some ext => Some ext
      | None => if Ascii.eqb c "." then Some rest else None
      end
  end.

Fixpoint hasSlash (s : string) : bool :=
  match s with
  | EmptyString => false
  | String c rest => Ascii.eqb c "/" || hasSlash rest
  end.

(* An extension the export strips: not empty and without a slash. *)
Definition strippable (ext : string) : bool :=
  negb (String.eqb ext EmptyString) && negb (hasSlash ext).

(* Where the pair at position i sits after splice(j, 1): one place down
   when the deleted position lies before it. *)
Definition positionAfterRemoval (len j i : Z) : Z :=
  if spliceStart len j <? i then i - 1 else i.

(* Sample data: an idle application, a 7x4 scan and a scan that is not an
   image. *)
Definition idle : AppState :=
  {| splitImages := [];
     isImporting := false;
     importProgress := {| current := 0; total := 0 |};
     shouldStopImport := false;
     isDownloading := false;
     downloadProgress := {| current := 0; total := 0 |};
     shouldStopDownload := false |}.

Definition scan (fileName : string) : File :=
  {| name := fileName;
     type := "image/jpeg";
     readAsDataURL := Some (FileData (Some {| img_width := 7; img_height := 4 |})) |}.

Definition corrupt (fileName : string) : File :=
  {| name := fileName;
     type := "image/jpeg";
     readAsDataURL := Some (FileData None) |}.

(* The pair splitImageInHalf makes of a 7x4 scan. *)
Definition pairOf (fileName : string) : SplitImage :=
  let half := (7 # 2)%Q in
  let leftCanvas :=
    {| width := 3; height := 4;
       drawn := Some {| sx := 0; sy := 0; sw := half; sh := 4;
                        dx := 0; dy := 0; dw := half; dh := 4 |} |} in
  let rightCanvas :=
    {| width := 3; height := 4;
       drawn := Some {| sx := half; sy := 0; sw := half; sh := 4;
                        dx := 0; dy := 0; dw := half; dh := 4 |} |} in
  {| leftHalf := CanvasData jpeg92 leftCanvas;
     rightHalf := CanvasData jpeg92 rightCanvas;
     leftHalfOriginal := CanvasData ImagePng leftCanvas;
     rightHalfOriginal := CanvasData ImagePng rightCanvas;
     originalName := fileName;
     leftRotation := 0; rightRotation := 0;
     leftChecked := false; rightChecked := false |}.

Definition twoPairs : AppState :=
  setSplitImages [pairOf "roll1.jpg"; pairOf "roll2.jpg"] idle.

(* The pair splitImageInHalf makes of a 1x1 image: each half is a canvas
   of height 0, whose data URL is not an image. *)
Definition speck : SplitImage :=
  match splitImageInHalf (FileData (Some {| img_width := 1; img_height := 1 |}))
                         "speck.png" with
  | Resolved s => s
  | Rejected _ => pairOf "speck.png"
  end.

(* The downloads one registry entry contributes to a full export: its
   left half when selected, then its right half when selected; a half
   whose data does not decode contributes nothing. *)
Definition halfDownloads (img : SplitImage) : list Download :=
  (if leftChecked img
   then option_list (downloadHalf (leftHalfOriginal img) (leftRotation img)
                                  (originalName img) "left")
   else []) ++
  (if rightChecked img
   then option_list (downloadHalf (rightHalfOriginal img) (rightRotation img)
                                  (originalName img) "right")
   else []).

(* The selected halves of one registry entry, 0, 1 or 2. *)
Definition selectedHalves (img : SplitImage) : Z :=
  (if leftChecked img then 1 else 0) + (if rightChecked img then 1 else 0).

(* A pair as splitImageInHalf leaves it: not rotated, not selected. *)
Definition fresh (img : SplitImage) : Prop :=
  leftRotation img = 0 /\ rightRotation img = 0 /\
  leftChecked img = false /\ rightChecked img = false.

(* Every stored angle is a whole number of quarter turns. *)
Definition quarterTurns (imgs : list SplitImage) : Prop :=
  Forall (fun img => (90 | leftRotation img) /\ (90 | rightRotation img)) imgs.

(* No stop press anywhere in a schedule. *)
Definition undisturbed (clicks : Schedule) : Prop :=
  Forall (fun pressed => pressed = false) clicks.

(* The fields a handler of one batch kind leaves to the other. *)
Definition sameDownloadState (a b : AppState) : Prop :=
  isDownloading a = isDownloading b /\
  downloadProgress a = downloadProgress b /\
  shouldStopDownload a = shouldStopDownload b.

Definition sameImportState (a b : AppState) : Prop :=
  isImporting a = isImporting b /\
  importProgress a = importProgress b /\
  shouldStopImport a = shouldStopImport b.

(* The image files of a selection, as handleFileSelect filters them. *)
Definition imageFiles (picked : list File) : list File :=
  filter (fun file => String.prefix "image/" (type file) = true) picked.

Definition originalOf (side : Side) (s : SplitImage) : DataURL :=
  match side with
  | LeftSide => leftHalfOriginal s
  | RightSide => rightHalfOriginal s
  end.

Definition previewOf (side : Side) (s : SplitImage) : DataURL :=
  match side with
  | LeftSide => leftHalf s
  | RightSide => rightHalf s
  end.

(* The two views toggleFullscreen and handleEscape leave behind. *)
Definition closedView : Viewer.View :=
  {| Viewer.fullscreenSide := None; Viewer.zoomLevel := 1;
     Viewer.panX := 0; Viewer.panY := 0 |}.

Definition openView (side : Side) : Viewer.View :=
  {| Viewer.fullscreenSide := Some side; Viewer.zoomLevel := 1;
     Viewer.panX := 0; Viewer.panY := 0 |}.

(* What the Select All switch does to one pair. *)
Definition bothSet (value : bool) (img : SplitImage) : SplitImage :=
  setRightChecked value (setLeftChecked value img).

(* What the export of one half leaves untouched. *)
Definition exportFrame (st st' : AppState) : Prop :=
  splitImages st' = splitImages st /\
  sameImportState st' st /\
  isDownloading st' = isDownloading st /\
  total (downloadProgress st') = total (downloadProgress st).

(* The state the export loop starts from. *)
Definition exportStart (st : AppState) : AppState :=
  setDownloadProgress {| current := 0; total := checkedCount (splitImages st) |}
    (setShouldStopDownload false (setIsDownloading true st)).

(* What the import of one group leaves untouched. *)
Definition importFrame (st st' : AppState) : Prop :=
  sameDownloadState st' st /\
  isImporting st' = isImporting st /\
  total (importProgress st') = total (importProgress st).

(* The state the import loop starts from. *)
Definition importStart (len : Z) (st : AppState) : AppState :=
  setImportProgress {| current := 0; total := len |}
    (setShouldStopImport false (setIsImporting true st)).

(* What one run of the import loop did, started at index i on the pending
   files: it imported the first m of them, a whole number of groups or all;
   a rejection comes from the group after them; without a stop press a run
   that resolves has imported everything. *)
Definition imported (i : Z) (pending : list File) (st : AppState)
           (clicks : Schedule) (st' : AppState) (clicks' : Schedule)
           (outcome : Promise unit) (m : nat) (added : list SplitImage) : Prop :=
  (m <= length pending)%nat /\
  (m = length pending \/ Nat.Even m) /\
  promiseAll (map processFile (take m pending)) = Resolved added /\
  splitImages st' = splitImages st ++ added /\
  importFrame st st' /\
  importProgress st' =
    (if (m =? 0)%nat then importProgress st
     else {| current := i + Z.of_nat m; total := total (importProgress st) |}) /\
  (forall e, outcome = Rejected e ->
             promiseAll (map processFile (take 2 (drop m pending))) = Rejected e) /\
  (undisturbed clicks -> shouldStopImport st = false ->
     (forall u, outcome = Resolved u -> m = length pending) /\
     shouldStopImport st' = false /\ undisturbed clicks') /\
  (shouldStopImport st = true -> m = 0%nat /\ outcome = Resolved tt).

(* Sample data: a registry with the left half of its second pair
   selected, and a selection of three scans. *)
Definition oneSelected : AppState := toggleCheck 1 LeftSide twoPairs.

Definition threeScans : list File :=
  [scan "1.jpg"; scan "2.jpg"; scan "3.jpg"].

(* A file whose halves can be exported: it reads and decodes, and the
   data of each of its halves decodes again (the half has pixels and the
   browser could serialise its canvas). *)
Definition exportable (file : File) : Prop :=
  exists s,
    processFile file = Resolved s /\
    is_Some (decode (leftHalfOriginal s)) /\
    is_Some (decode (rightHalfOriginal s)).

(* The names under which the two halves of a file are exported. *)
Definition exportNames (file : File) : list string :=
  [replaceExtension (name file) +:+ "_left.jpg";
   replaceExtension (name file) +:+ "_right.jpg"].

(* The actions of one or more pauses, one after the other. *)
Definition runActions (actions : list Interleaved.Action) (st : AppState)
  : AppState :=
  fold_left (fun st a => Interleaved.act a st) actions st.

(* Nothing happens during any pause. *)
Definition leftAlone (pauses : Interleaved.Schedule) : Prop :=
  Forall (fun pause => pause = []) pauses.

(* The downloadHalf calls one registry entry contributes to a full export:
   for its left half when selected, then for its right half when
   selected. *)
Definition selectedCalls (img : SplitImage) : list Interleaved.Call :=
  (if leftChecked img then [Interleaved.halfCall LeftSide img] else []) ++
  (if rightChecked img then [Interleaved.halfCall RightSide img] else []).

(* The registry and the import fields: what downloadChecked never
   writes. *)
Definition outsideExport (a b : AppState) : Prop :=
  splitImages a = splitImages b /\ sameImportState a b.

(* A schedule of stop presses as a schedule of pauses. *)
Definition pauseOf (pressed : bool) : list Interleaved.Action :=
  if pressed then [Interleaved.StopDownload] else [].

(* A run of the export over stop presses and a run over pauses that end
   in the same state, with the same presses left, after calls that ask
   for the same downloads. *)
Definition sameRun (old : Exporter.Run) (new : Interleaved.Run) : Prop :=
  fst (fst new) = fst (fst old) /\
  snd (fst new) = map pauseOf (snd (fst old)) /\
  snd old = omap Interleaved.fileOf (snd new).

(* ===================================================================== *)
(* Arithmetic of halves and angles                                       *)
(* ===================================================================== *)

Lemma half_as_fraction (n : Z) : (inject_Z n / 2)%Q = (n # 2)%Q.
Proof.
  unfold Qdiv, Qmult, Qinv, inject_Z. simpl.
  now rewrite Z.mul_1_r.
Qed.

Lemma toUnsignedLong_half (n : Z) :
  0 <= n -> toUnsignedLong (inject_Z n / 2) = n / 2.
Proof.
  intros Hn. rewrite half_as_fraction. unfold toUnsignedLong.
  assert (Hle : Qle_bool 0 (n # 2) = true).
  { apply Qle_bool_iff. unfold Qle. simpl. lia. }
  rewrite Hle. reflexivity.
Qed.

Lemma half_positive (n : Z) : 0 < n -> Qle_bool (inject_Z n / 2) 0 = false.
Proof.
  intros Hn. rewrite half_as_fraction.
  destruct (Qle_bool (n # 2) 0) eqn:E; [| reflexivity].
  apply Qle_bool_iff in E. unfold Qle in E. simpl in E. lia.
Qed.

Lemma dropped_remainder (n : Z) :
  n - (n / 2 + n / 2) = if Z.odd n then 1 else 0.
Proof.
  pose proof (Z.div_mod n 2 ltac:(lia)) as Hdm.
  rewrite Zmod_odd in Hdm. destruct (Z.odd n); lia.
Qed.

Lemma normalizedRotation_mod (x : Z) : normalizedRotation x = x mod 360.
Proof.
  unfold normalizedRotation.
  pose proof (Z.rem_bound_abs x 360 ltac:(lia)) as Hb.
  pose proof (Z.quot_rem' x 360) as Hx.
  rewrite Z.rem_mod_nonneg by lia.
  transitivity ((Z.rem x 360 + 360 + (Z.quot x 360 - 1) * 360) mod 360).
  - now rewrite Z.mod_add by lia.
  - f_equal. lia.
Qed.

(* ===================================================================== *)
(* Splitting                                                             *)
(* ===================================================================== *)

Lemma isHorizontal_spec (w h : Z) : isHorizontal w h = true <-> w > h.
Proof. unfold isHorizontal. rewrite Z.gtb_gt. lia. Qed.

(* What splitImageInHalf resolves with in each branch, with the canvas
   sizes already reduced to integer halves. *)
Lemma splitImageInHalf_wide imageData fileName img :
  decode imageData = Some img ->
  0 < img_width img ->
  img_width img > img_height img ->
  exists s,
    splitImageInHalf imageData fileName = Resolved s /\
    halfSize (leftHalf s) = Some (img_width img / 2, img_height img) /\
    halfSize (rightHalf s) = Some (img_width img / 2, img_height img) /\
    halfSize (leftHalfOriginal s) = Some (img_width img / 2, img_height img) /\
    halfSize (rightHalfOriginal s) = Some (img_width img / 2, img_height img) /\
    cropOrigin (leftHalfOriginal s) = Some (0%Q, 0%Q) /\
    cropOrigin (rightHalfOriginal s) = Some ((inject_Z (img_width img) / 2)%Q, 0%Q).
Proof.
  intros Hdec Hw Hgt. unfold splitImageInHalf. rewrite Hdec.
  apply isHorizontal_spec in Hgt. rewrite Hgt.
  eexists. split; [reflexivity |]. cbn.
  rewrite toUnsignedLong_half by lia. repeat split.
Qed.

Lemma splitImageInHalf_tall imageData fileName img :
  decode imageData = Some img ->
  0 < img_height img ->
  img_width img <= img_height img ->
  exists s,
    splitImageInHalf imageData fileName = Resolved s /\
    halfSize (leftHalf s) = Some (img_width img, img_height img / 2) /\
    halfSize (rightHalf s) = Some (img_width img, img_height img / 2) /\
    halfSize (leftHalfOriginal s) = Some (img_width img, img_height img / 2) /\
    halfSize (rightHalfOriginal s) = Some (img_width img, img_height img / 2) /\
    cropOrigin (leftHalfOriginal s) = Some (0%Q, 0%Q) /\
    cropOrigin (rightHalfOriginal s) = Some (0%Q, (inject_Z (img_height img) / 2)%Q).
Proof.
  intros Hdec Hh Hle. unfold splitImageInHalf. rewrite Hdec.
  assert (Hb : isHorizontal (img_width img) (img_height img) = false).
  { destruct (isHorizontal _ _) eqn:E; [| reflexivity].
    apply isHorizontal_spec in E. lia. }
  rewrite Hb. eexists. split; [reflexivity |]. cbn.
  rewrite toUnsignedLong_half by lia. repeat split.
Qed.

(** C2: for a decoded image with width > height, splitImageInHalf resolves
    with two halves (preview and original encodings alike) of width
    floor(width/2) and of the source height; the two widths sum to
    floor(width/2)*2, and the source is one column wider than that sum
    exactly when its width is odd (no column is lost when it is even).
    For width <= height the same holds with the roles of width and height
    exchanged. *)
Theorem split_half_dimensions (imageData : DataURL) (fileName : string)
        (img : HTMLImage) :
  decode imageData = Some img ->
  0 < img_width img ->
  0 < img_height img ->
  exists s lw lh rw rh,
    splitImageInHalf imageData fileName = Resolved s /\
    halfSize (leftHalfOriginal s) = Some (lw, lh) /\
    halfSize (rightHalfOriginal s) = Some (rw, rh) /\
    halfSize (leftHalf s) = Some (lw, lh) /\
    halfSize (rightHalf s) = Some (rw, rh) /\
    (img_width img > img_height img ->
       lw = img_width img / 2 /\ rw = img_width img / 2 /\
       lh = img_height img /\ rh = img_height img /\
       lw + rw = img_width img / 2 * 2 /\
       (img_width img - (lw + rw) = 1 <-> Z.odd (img_width img) = true) /\
       (img_width img - (lw + rw) = 0 <-> Z.odd (img_width img) = false)) /\
    (img_width img <= img_height img ->
       lh = img_height img / 2 /\ rh = img_height img / 2 /\
       lw = img_width img /\ rw = img_width img /\
       lh + rh = img_height img / 2 * 2 /\
       (img_height img - (lh + rh) = 1 <-> Z.odd (img_height img) = true) /\
       (img_height img - (lh + rh) = 0 <-> Z.odd (img_height img) = false)).
Proof.
  intros Hdec Hw Hh.
  destruct (Z_gt_le_dec (img_width img) (img_height img)) as [Hgt | Hle].
  - destruct (splitImageInHalf_wide imageData fileName img Hdec Hw Hgt)
      as (s & Hs & Hl & Hr & Hlo & Hro & _).
    exists s, (img_width img / 2), (img_height img),
           (img_width img / 2), (img_height img).
    repeat (split; [assumption |]).
    split; [intros _ | intros Hle; lia].
    pose proof (dropped_remainder (img_width img)) as Hd.
    repeat (split; [reflexivity || lia |]).
    destruct (Z.odd (img_width img)); split; split; intros; (lia || congruence).
  - destruct (splitImageInHalf_tall imageData fileName img Hdec Hh Hle)
      as (s & Hs & Hl & Hr & Hlo & Hro & _).
    exists s, (img_width img), (img_height img / 2),
           (img_width img), (img_height img / 2).
    repeat (split; [assumption |]).
    split; [intros Hgt; lia | intros _].
    pose proof (dropped_remainder (img_height img)) as Hd.
    repeat (split; [reflexivity || lia |]).
    destruct (Z.odd (img_height img)); split; split; intros; (lia || congruence).
Qed.

Lemma split_half_dimensions_witness :
  exists s lw lh rw rh,
    splitImageInHalf (FileData (Some {| img_width := 7; img_height := 4 |}))
                     "roll1.jpg" = Resolved s /\
    halfSize (leftHalfOriginal s) = Some (lw, lh) /\
    halfSize (rightHalfOriginal s) = Some (rw, rh) /\
    lw = 3 /\ rw = 3 /\ lh = 4 /\ rh = 4.
Proof.
  destruct (split_half_dimensions
              (FileData (Some {| img_width := 7; img_height := 4 |}))
              "roll1.jpg" {| img_width := 7; img_height := 4 |}
              eq_refl ltac:(simpl; lia) ltac:(simpl; lia))
    as (s & lw & lh & rw & rh & Hs & Hl & Hr & _ & _ & Hwide & _).
  exists s, lw, lh, rw, rh.
  destruct (Hwide ltac:(simpl; lia)) as (-> & -> & -> & -> & _).
  repeat split; assumption.
Defined.

(** C6: for positive integer dimensions, splitImageInHalf cuts along the
    vertical midline (left/right halves) exactly when width > height, and
    along the horizontal midline (top/bottom halves) otherwise; a square
    image (width = height) is cut along the horizontal midline. *)
Theorem orientation_detection (imageData : DataURL) (fileName : string)
        (img : HTMLImage) :
  decode imageData = Some img ->
  0 < img_width img ->
  0 < img_height img ->
  exists s,
    splitImageInHalf imageData fileName = Resolved s /\
    (isHorizontal (img_width img) (img_height img) = true <->
       img_width img > img_height img) /\
    (midlineOf s = Some Vertical <-> img_width img > img_height img) /\
    (midlineOf s = Some Horizontal <-> img_width img <= img_height img) /\
    (img_width img = img_height img -> midlineOf s = Some Horizontal).
Proof.
  intros Hdec Hw Hh.
  destruct (Z_gt_le_dec (img_width img) (img_height img)) as [Hgt | Hle].
  - destruct (splitImageInHalf_wide imageData fileName img Hdec Hw Hgt)
      as (s & Hs & _ & _ & _ & _ & Hlo & Hro).
    exists s. split; [assumption |]. split; [apply isHorizontal_spec |].
    assert (Hm : midlineOf s = Some Vertical).
    { unfold midlineOf. rewrite Hlo, Hro. cbn [Qeq_bool andb].
      rewrite half_positive by lia. reflexivity. }
    rewrite Hm. repeat split; intros; (lia || congruence).
  - destruct (splitImageInHalf_tall imageData fileName img Hdec Hh Hle)
      as (s & Hs & _ & _ & _ & _ & Hlo & Hro).
    exists s. split; [assumption |]. split; [apply isHorizontal_spec |].
    assert (Hm : midlineOf s = Some Horizontal).
    { unfold midlineOf. rewrite Hlo, Hro.
      change (Qeq_bool 0 0) with true. change (Qle_bool 0 0) with true.
      cbn [andb negb]. rewrite half_positive by lia. reflexivity. }
    rewrite Hm. repeat split; intros; (lia || congruence).
Qed.

Lemma orientation_detection_witness :
  exists s,
    splitImageInHalf (FileData (Some {| img_width := 6; img_height := 6 |}))
                     "square.png" = Resolved s /\
    midlineOf s = Some Horizontal.
Proof.
  destruct (orientation_detection
              (FileData (Some {| img_width := 6; img_height := 6 |}))
              "square.png" {| img_width := 6; img_height := 6 |}
              eq_refl ltac:(simpl; lia) ltac:(simpl; lia))
    as (s & Hs & _ & _ & _ & Hsq).
  exists s. split; [assumption | apply Hsq; reflexivity].
Defined.

(* ===================================================================== *)
(* Rotation at export                                                    *)
(* ===================================================================== *)

(** C5: for every integer x, ((x % 360) + 360) % 360 lies in [0, 360), and
    normalising twice gives the same as normalising once. *)
Theorem normalization_range_idempotent (x : Z) :
  0 <= normalizedRotation x < 360 /\
  normalizedRotation (normalizedRotation x) = normalizedRotation x.
Proof.
  rewrite !normalizedRotation_mod.
  pose proof (Z.mod_pos_bound x 360 ltac:(lia)) as Hb.
  split; [exact Hb |].
  now rewrite Z.mod_mod by lia.
Qed.

Lemma downloadHalf_canvas imageData rotation fileName label img :
  decode imageData = Some img ->
  exists d,
    downloadHalf imageData rotation fileName label = Some d /\
    (canvasWidth d, canvasHeight d) =
      (if (normalizedRotation rotation =? 90) || (normalizedRotation rotation =? 270)
       then (img_height img, img_width img)
       else (img_width img, img_height img)) /\
    rotateDegrees d = rotation /\
    download d = replaceExtension fileName +:+ "_" +:+ label +:+ ".jpg".
Proof.
  intros Hdec. unfold downloadHalf. rewrite Hdec.
  destruct ((normalizedRotation rotation =? 90) || (normalizedRotation rotation =? 270));
    eexists; (split; [reflexivity |]); cbn; repeat split.
Qed.

Lemma quarter_turn_test (n : Z) :
  (n =? 90) || (n =? 270) = true <-> n = 90 \/ n = 270.
Proof. rewrite orb_true_iff, !Z.eqb_eq. tauto. Qed.

(** C4: for every stored rotation angle, the export canvas of downloadHalf
    has the source image's width and height exchanged exactly when the
    angle normalised modulo 360 is 90 or 270; in every other case, and so
    for normalised angles 0 and 180, it has the source dimensions. *)
Theorem export_canvas_dimensions (imageData : DataURL) (rotation : Z)
        (fileName label : string) (img : HTMLImage) :
  decode imageData = Some img ->
  exists d,
    downloadHalf imageData rotation fileName label = Some d /\
    (normalizedRotation rotation = 90 \/ normalizedRotation rotation = 270 ->
       canvasWidth d = img_height img /\ canvasHeight d = img_width img) /\
    (~ (normalizedRotation rotation = 90 \/ normalizedRotation rotation = 270) ->
       canvasWidth d = img_width img /\ canvasHeight d = img_height img) /\
    (normalizedRotation rotation = 0 \/ normalizedRotation rotation = 180 ->
       canvasWidth d = img_width img /\ canvasHeight d = img_height img) /\
    (img_width img <> img_height img ->
       (canvasWidth d = img_height img /\ canvasHeight d = img_width img <->
        normalizedRotation rotation = 90 \/ normalizedRotation rotation = 270)).
Proof.
  intros Hdec.
  destruct (downloadHalf_canvas imageData rotation fileName label img Hdec)
    as (d & Hd & Hdim & _).
  exists d. split; [assumption |].
  pose proof (quarter_turn_test (normalizedRotation rotation)) as Hq.
  destruct ((normalizedRotation rotation =? 90) || (normalizedRotation rotation =? 270));
    injection Hdim as Hcw Hch; rewrite Hcw, Hch.
  - assert (Hn : normalizedRotation rotation = 90 \/ normalizedRotation rotation = 270)
      by (apply Hq; reflexivity).
    repeat split; intros; try tauto; lia.
  - assert (Hn : ~ (normalizedRotation rotation = 90 \/ normalizedRotation rotation = 270)).
    { intros H. apply Hq in H. discriminate. }
    repeat split; intros; try tauto; lia.
Qed.

Lemma export_canvas_dimensions_witness :
  exists d,
    downloadHalf (CanvasData ImagePng {| width := 3; height := 4; drawn := None |})
                 (-450) "roll1.jpg" "left" = Some d /\
    canvasWidth d = 4 /\ canvasHeight d = 3.
Proof.
  destruct (export_canvas_dimensions
              (CanvasData ImagePng {| width := 3; height := 4; drawn := None |})
              (-450) "roll1.jpg" "left"
              {| img_width := 3; img_height := 4 |} eq_refl)
    as (d & Hd & Hswap & _).
  exists d. split; [assumption |].
  apply Hswap. right. reflexivity.
Defined.

(* ===================================================================== *)
(* The registry                                                          *)
(* ===================================================================== *)

Section RegistryFacts.

Implicit Types (st : AppState) (imgs : list SplitImage) (image : SplitImage).
Implicit Types (i j : Z) (side : Side).

Lemma pairAt_Some imgs i image :
  pairAt imgs i = Some image <->
  0 <= i /\ imgs !! Z.to_nat i = Some image.
Proof.
  unfold pairAt. destruct (i <? 0) eqn:E.
  - apply Z.ltb_lt in E. split; [discriminate | lia].
  - apply Z.ltb_ge in E. tauto.
Qed.

Lemma pairAt_None imgs i :
  pairAt imgs i = None <-> i < 0 \/ Z.of_nat (length imgs) <= i.
Proof.
  unfold pairAt. destruct (i <? 0) eqn:E.
  - apply Z.ltb_lt in E. tauto.
  - apply Z.ltb_ge in E. rewrite lookup_ge_None. lia.
Qed.

Lemma pairAt_alter_same (f : SplitImage -> SplitImage) imgs i :
  pairAt (alter f (Z.to_nat i) imgs) i = f <$> pairAt imgs i.
Proof.
  unfold pairAt. destruct (i <? 0); [reflexivity |].
  apply list_lookup_alter_eq.
Qed.

Lemma pairAt_alter_other (f : SplitImage -> SplitImage) imgs i j :
  0 <= i -> i <> j ->
  pairAt (alter f (Z.to_nat i) imgs) j = pairAt imgs j.
Proof.
  intros Hi Hne. unfold pairAt. destruct (j <? 0) eqn:E; [reflexivity |].
  apply Z.ltb_ge in E. apply list_lookup_alter_ne. lia.
Qed.

Lemma rotateToDirection_images st i side d image :
  pairAt (splitImages st) i = Some image ->
  splitImages (rotateToDirection i side d st) =
    alter (rotated side d) (Z.to_nat i) (splitImages st).
Proof. intros H. unfold rotateToDirection. now rewrite H. Qed.

Lemma rotateToDirection_same st i side d image :
  pairAt (splitImages st) i = Some image ->
  pairAt (splitImages (rotateToDirection i side d st)) i =
    Some (rotated side d image).
Proof.
  intros H. rewrite (rotateToDirection_images _ _ _ _ _ H).
  rewrite pairAt_alter_same, H. reflexivity.
Qed.

Lemma rotateToDirection_other st i j side d :
  i <> j ->
  pairAt (splitImages (rotateToDirection i side d st)) j =
    pairAt (splitImages st) j.
Proof.
  intros Hne. unfold rotateToDirection.
  destruct (pairAt (splitImages st) i) eqn:H; [| reflexivity].
  apply pairAt_Some in H as [Hi _]. cbn. now apply pairAt_alter_other.
Qed.

Lemma rotated_rotation side d image :
  rotationOf side (rotated side d image) = rotationOf side image + deltaValue d.
Proof. destruct side; reflexivity. Qed.

(* Repeating one rotate command: the stored angle keeps adding up. *)
Lemma rotateToDirection_iter (n : nat) st i side d image :
  pairAt (splitImages st) i = Some image ->
  exists image',
    pairAt (splitImages (Nat.iter n (rotateToDirection i side d) st)) i
      = Some image' /\
    rotationOf side image' =
      rotationOf side image + Z.of_nat n * deltaValue d.
Proof.
  intros H. induction n as [| n IH].
  - exists image. split; [exact H | cbn; lia].
  - destruct IH as (image' & Hat & Hrot). cbn [Nat.iter].
    exists (rotated side d image'). split.
    + now apply rotateToDirection_same.
    + rewrite rotated_rotation, Hrot. lia.
Qed.

Lemma toggleCheck_same st i side image :
  pairAt (splitImages st) i = Some image ->
  pairAt (splitImages (toggleCheck i side st)) i = Some (toggled side image).
Proof.
  intros H. unfold toggleCheck. rewrite H. cbn.
  rewrite pairAt_alter_same, H. reflexivity.
Qed.

Lemma toggled_checked side image :
  checkedOf side (toggled side image) = negb (checkedOf side image) /\
  rotationOf side (toggled side image) = rotationOf side image.
Proof. destruct side; split; reflexivity. Qed.

Lemma toggleCheck_length st i side :
  length (splitImages (toggleCheck i side st)) = length (splitImages st).
Proof.
  unfold toggleCheck. destruct (pairAt (splitImages st) i); [| reflexivity].
  cbn. apply length_alter.
Qed.

Lemma removeImagePair_other st i j image :
  pairAt (splitImages st) i = Some image ->
  spliceStart (Z.of_nat (length (splitImages st))) j <> i ->
  pairAt (splitImages (removeImagePair j st))
         (positionAfterRemoval (Z.of_nat (length (splitImages st))) j i)
    = Some image.
Proof.
  intros H Hne. apply pairAt_Some in H as [Hi Hat].
  pose proof (lookup_lt_Some _ _ _ Hat) as Hlt.
  unfold removeImagePair, positionAfterRemoval. cbn.
  set (len := Z.of_nat (length (splitImages st))) in *.
  assert (Hs : 0 <= spliceStart len j <= len).
  { unfold spliceStart. destruct (j <? 0) eqn:E; lia. }
  destruct (spliceStart len j <? i) eqn:E.
  - apply Z.ltb_lt in E. apply pairAt_Some. split; [lia |].
    rewrite list_lookup_delete_ge by lia.
    replace (S (Z.to_nat (i - 1))) with (Z.to_nat i) by lia. exact Hat.
  - apply Z.ltb_ge in E. apply pairAt_Some. split; [lia |].
    rewrite list_lookup_delete_lt by lia. exact Hat.
Qed.

End RegistryFacts.

Section DisplayFacts.

Lemma string_length_append (s t : string) :
  String.length (s +:+ t) = (String.length s + String.length t)%nat.
Proof. induction s as [| c s IH]; simpl; [reflexivity | now rewrite IH]. Qed.

Lemma string_append_cancel_r (t s1 s2 : string) :
  s1 +:+ t = s2 +:+ t -> s1 = s2.
Proof.
  revert s2. induction s1 as [| c s1 IH]; intros [| c' s2] H.
  - reflexivity.
  - apply (f_equal String.length) in H.
    rewrite !string_length_append in H. simpl String.length in H. lia.
  - apply (f_equal String.length) in H.
    rewrite !string_length_append in H. simpl String.length in H. lia.
  - change (String c (s1 +:+ t) = String c' (s2 +:+ t)) in H.
    injection H as -> H. f_equal. now apply IH.
Qed.

Lemma numberToString_inj (m n : Z) :
  Display.numberToString m = Display.numberToString n -> m = n.
Proof.
  unfold Display.numberToString. intros H.
  apply (f_equal NilEmpty.int_of_string) in H.
  rewrite !NilEmpty.isi in H. injection H as H.
  apply (f_equal Z.of_int) in H. now rewrite !DecimalZ.of_to in H.
Qed.

(* The transform names the angle it was given: two angles with the same
   transform are the same number. *)
Lemma imageStyle_inj (r1 r2 : Z) :
  Display.imageStyle r1 = Display.imageStyle r2 -> r1 = r2.
Proof.
  unfold Display.imageStyle. intros H.
  simpl in H. injection H as H.
  change (Display.numberToString r1 +:+ "deg)"
          = Display.numberToString r2 +:+ "deg)") in H.
  apply string_append_cancel_r in H. now apply numberToString_inj.
Qed.

(* The export sizes its canvas and names its file by the angle reduced
   modulo 360. *)
Lemma downloadHalf_normalizes (imageData : DataURL) (r : Z)
      (fileName label : string) :
  (fun d => (canvasWidth d, canvasHeight d, download d))
    <$> downloadHalf imageData r fileName label =
  (fun d => (canvasWidth d, canvasHeight d, download d))
    <$> downloadHalf imageData (normalizedRotation r) fileName label.
Proof.
  unfold downloadHalf. destruct (decode imageData) as [img |]; [| reflexivity].
  assert (Hn : normalizedRotation (normalizedRotation r) = normalizedRotation r).
  { rewrite !normalizedRotation_mod. apply Z.mod_mod. lia. }
  rewrite Hn.
  destruct ((normalizedRotation r =? 90) || (normalizedRotation r =? 270));
    reflexivity.
Qed.

End DisplayFacts.

(** C3 as stated fails at the display: after five +90 commands on a half
    stored at 0 the stored angle is 450, and HalfFrame hands 450 to the
    CSS rotate() function as it is, not the normalised 90. *)
Lemma rotate_display_counterexample :
  exists image,
    pairAt (splitImages (Nat.iter 5 (rotateToDirection 1 LeftSide Delta90) twoPairs)) 1
      = Some image /\
    rotationOf LeftSide image = 450 /\
    normalizedRotation (rotationOf LeftSide image) = 90 /\
    Display.imageStyle (rotationOf LeftSide image) = "rotate(450deg)" /\
    Display.imageStyle (rotationOf LeftSide image)
      <> Display.imageStyle (normalizedRotation (rotationOf LeftSide image)).
Proof.
  eexists. split; [reflexivity |]. vm_compute. repeat split. discriminate.
Qed.

(** C3, amended: for every index that holds a pair, either side and every
    delta of 0, +90, -90 or +180, rotateToDirection stores exactly
    previous + delta for that side (the other side and the selection flags
    keep their values) and nothing is reduced modulo 360 at store time: n
    repetitions of a delta leave previous + n * delta, so the stored angle
    grows without bound.  Normalisation is applied at export only:
    downloadHalf sizes its canvas and names its file by the angle reduced
    modulo 360, so the stored angle and its normalised value give the same
    canvas and name, while the display hands the stored angle to the CSS
    rotate() function unreduced, so two stored angles have the same
    transform only when they are the same number.  In particular four +90
    commands from a stored 0 leave 360 stored, displayed as rotate(360deg),
    and normalising that gives 0. *)
Theorem rotate_stores_sum (st : AppState) (pairIndex : Z) (side : Side)
        (deltaRotation : DeltaRotation) (image : SplitImage) :
  pairAt (splitImages st) pairIndex = Some image ->
  (exists image',
     pairAt (splitImages (rotateToDirection pairIndex side deltaRotation st))
            pairIndex = Some image' /\
     rotationOf side image' = rotationOf side image + deltaValue deltaRotation /\
     (forall other, other <> side ->
        rotationOf other image' = rotationOf other image) /\
     leftChecked image' = leftChecked image /\
     rightChecked image' = rightChecked image) /\
  (forall n : nat,
     exists image',
       pairAt (splitImages
                 (Nat.iter n (rotateToDirection pairIndex side deltaRotation) st))
              pairIndex = Some image' /\
       rotationOf side image' =
         rotationOf side image + Z.of_nat n * deltaValue deltaRotation /\
       Display.imageStyle (rotationOf side image') =
         "rotate(" +:+
           Display.numberToString
             (rotationOf side image + Z.of_nat n * deltaValue deltaRotation)
           +:+ "deg)" /\
       forall (imageData : DataURL) (fileName label : string),
         (fun d => (canvasWidth d, canvasHeight d, download d))
           <$> downloadHalf imageData (rotationOf side image') fileName label =
         (fun d => (canvasWidth d, canvasHeight d, download d))
           <$> downloadHalf imageData
                 (normalizedRotation
                    (rotationOf side image + Z.of_nat n * deltaValue deltaRotation))
                 fileName label) /\
  (forall r1 r2 : Z,
     Display.imageStyle r1 = Display.imageStyle r2 -> r1 = r2) /\
  (rotationOf side image = 0 ->
     exists image4,
       pairAt (splitImages
                 (Nat.iter 4 (rotateToDirection pairIndex side Delta90) st))
              pairIndex = Some image4 /\
       rotationOf side image4 = 360 /\
       normalizedRotation (rotationOf side image4) = 0 /\
       Display.imageStyle (rotationOf side image4) = "rotate(360deg)" /\
       Display.imageStyle (rotationOf side image4) <> Display.imageStyle 0).
Proof.
  intros H. split; [| split; [| split]].
  - exists (rotated side deltaRotation image). split; [| split].
    + now apply rotateToDirection_same.
    + apply rotated_rotation.
    + repeat split; [| destruct side; reflexivity ..].
      intros other Hne. destruct side, other; (reflexivity || congruence).
  - intros n.
    destruct (rotateToDirection_iter n st pairIndex side deltaRotation image H)
      as (image' & Hat & Hrot).
    exists image'. split; [exact Hat |]. split; [exact Hrot |].
    rewrite Hrot. split; [reflexivity |].
    intros imageData fileName label. apply downloadHalf_normalizes.
  - exact imageStyle_inj.
  - intros H0.
    destruct (rotateToDirection_iter 4 st pairIndex side Delta90 image H)
      as (image4 & Hat & Hrot).
    exists image4. rewrite H0 in Hrot. cbn in Hrot.
    split; [exact Hat |]. rewrite Hrot.
    repeat split. intros Heq. apply imageStyle_inj in Heq. discriminate.
Qed.

Lemma rotate_stores_sum_witness :
  exists image4,
    pairAt (splitImages (Nat.iter 4 (rotateToDirection 1 LeftSide Delta90) twoPairs)) 1
      = Some image4 /\
    rotationOf LeftSide image4 = 360 /\
    normalizedRotation (rotationOf LeftSide image4) = 0 /\
    Display.imageStyle (rotationOf LeftSide image4) = "rotate(360deg)" /\
    Display.imageStyle (rotationOf LeftSide image4) <> Display.imageStyle 0.
Proof.
  exact (proj2 (proj2 (proj2 (rotate_stores_sum twoPairs 1 LeftSide Delta90
                                (pairOf "roll2.jpg") eq_refl))) eq_refl).
Defined.

(* The display hands the stored angle to the CSS rotate() function as it
   is; nothing is reduced on the way. *)
Lemma imageStyle_stored_angle :
  Display.imageStyle 450 = "rotate(450deg)" /\
  Display.imageStyle (-90) = "rotate(-90deg)".
Proof. split; reflexivity. Qed.

(** C10: for every index at which the registry holds no pair (negative, or
    at or beyond the length), rotateToDirection and toggleCheck return
    without changing anything: the whole state, and with it the registry
    and every pair's fields, is the one they were given. *)
Theorem out_of_range_is_noop (st : AppState) (pairIndex : Z) (side : Side)
        (deltaRotation : DeltaRotation) :
  pairIndex < 0 \/ Z.of_nat (length (splitImages st)) <= pairIndex ->
  pairAt (splitImages st) pairIndex = None /\
  rotateToDirection pairIndex side deltaRotation st = st /\
  toggleCheck pairIndex side st = st.
Proof.
  intros Hout. apply pairAt_None in Hout.
  unfold rotateToDirection, toggleCheck. rewrite Hout. repeat split.
Qed.

Lemma out_of_range_is_noop_witness :
  rotateToDirection 2 RightSide Delta180 twoPairs = twoPairs /\
  toggleCheck 2 RightSide twoPairs = twoPairs.
Proof.
  exact (proj2 (out_of_range_is_noop twoPairs 2 RightSide Delta180
                  ltac:(right; simpl; lia))).
Defined.

(** C8: in every registry state, after toggleCheck has flipped the
    selection flag of one half of the pair at index i, removing a pair at
    a different position leaves that pair in the registry with all its
    fields as the toggle left them, in particular the half's checked flag
    and rotation angle; the pair is found one index lower when the removed
    position lay before it, and at the same index otherwise. *)
Theorem removal_keeps_selection (st : AppState) (i j : Z) (side : Side)
        (image : SplitImage) :
  pairAt (splitImages st) i = Some image ->
  spliceStart (Z.of_nat (length (splitImages st))) j <> i ->
  let selected := toggleCheck i side st in
  let removed := removeImagePair j selected in
  let i' := positionAfterRemoval (Z.of_nat (length (splitImages st))) j i in
  exists image1,
    pairAt (splitImages selected) i = Some image1 /\
    checkedOf side image1 = negb (checkedOf side image) /\
    pairAt (splitImages removed) i' = Some image1 /\
    forall image2,
      pairAt (splitImages removed) i' = Some image2 ->
      checkedOf side image2 = checkedOf side image1 /\
      rotationOf side image2 = rotationOf side image1.
Proof.
  intros H Hne selected removed i'.
  pose proof (toggleCheck_same st i side image H) as Hsel.
  exists (toggled side image). split; [exact Hsel |].
  split; [apply toggled_checked |].
  assert (Hrem : pairAt (splitImages removed) i' = Some (toggled side image)).
  { subst removed i'. rewrite <- (toggleCheck_length st i side).
    apply removeImagePair_other; [exact Hsel |].
    now rewrite toggleCheck_length. }
  split; [exact Hrem |].
  intros image2 H2. rewrite Hrem in H2. injection H2 as <-. split; reflexivity.
Qed.

Lemma removal_keeps_selection_witness :
  exists image1,
    pairAt (splitImages (toggleCheck 1 LeftSide twoPairs)) 1 = Some image1 /\
    checkedOf LeftSide image1 = true /\
    pairAt (splitImages (removeImagePair 0 (toggleCheck 1 LeftSide twoPairs))) 0
      = Some image1.
Proof.
  destruct (removal_keeps_selection twoPairs 1 0 LeftSide (pairOf "roll2.jpg")
              eq_refl ltac:(vm_compute; discriminate))
    as (image1 & Hsel & Hchk & Hrem & _).
  exists image1. repeat split; assumption.
Defined.

(* ===================================================================== *)
(* Export of the selected halves                                         *)
(* ===================================================================== *)

Lemma checkedCount_fold (imgs : list SplitImage) (start : Z) :
  fold_left
    (fun count img =>
       count + (if leftChecked img then 1 else 0)
             + (if rightChecked img then 1 else 0)) imgs start
  = start + checkedCount imgs.
Proof.
  unfold checkedCount. revert start.
  induction imgs as [| img rest IH]; intros start; cbn [fold_left].
  - lia.
  - rewrite IH, (IH (0 + _ + _)). lia.
Qed.

Lemma checkedCount_nonneg (imgs : list SplitImage) : 0 <= checkedCount imgs.
Proof.
  induction imgs as [| img rest IH]; [unfold checkedCount; cbn; lia |].
  unfold checkedCount. cbn [fold_left]. rewrite checkedCount_fold.
  destruct (leftChecked img), (rightChecked img); lia.
Qed.

(* The count is zero exactly when no half is selected. *)
Lemma checkedCount_zero (imgs : list SplitImage) :
  checkedCount imgs = 0 <->
  Forall (fun img => leftChecked img = false /\ rightChecked img = false) imgs.
Proof.
  induction imgs as [| img rest IH].
  - split; [constructor | reflexivity].
  - unfold checkedCount. cbn [fold_left]. rewrite checkedCount_fold.
    pose proof (checkedCount_nonneg rest) as Hge.
    rewrite Forall_cons, <- IH.
    destruct (leftChecked img), (rightChecked img); split;
      intros; try lia; try (destruct H as [[? ?] ?]; discriminate);
      (repeat split; lia || reflexivity).
Qed.

(** C9: in every registry state in which no half is selected (the count of
    checked halves is zero), downloadChecked does nothing: it triggers no
    download and returns the state it was given, so the registry, both
    progress records and every flag are unchanged, and it never reaches an
    await. *)
Theorem export_without_selection_is_noop (st : AppState) (clicks : Schedule) :
  checkedCount (splitImages st) = 0 ->
  Forall (fun img => leftChecked img = false /\ rightChecked img = false)
         (splitImages st) /\
  downloadChecked st clicks = (st, clicks, []).
Proof.
  intros H0. split; [now apply checkedCount_zero |].
  unfold downloadChecked. rewrite H0. reflexivity.
Qed.

Lemma export_without_selection_is_noop_witness :
  downloadChecked twoPairs [true; false] = (twoPairs, [true; false], []).
Proof.
  exact (proj2 (export_without_selection_is_noop twoPairs [true; false] eq_refl)).
Defined.

(* ===================================================================== *)
(* The name of an exported file                                          *)
(* ===================================================================== *)

Section FileNames.

Implicit Types (s ext : string) (c : ascii).

Lemma afterLastDot_None s : afterLastDot s = None <-> hasDot s = false.
Proof.
  induction s as [| c rest IH]; cbn; [tauto |].
  destruct (afterLastDot rest) as [ext |].
  - destruct (hasDot rest); [| destruct IH as [_ IH]; discriminate (IH eq_refl)].
    rewrite orb_true_r. split; discriminate.
  - destruct IH as [IH _]. rewrite (IH eq_refl), orb_false_r.
    destruct (Ascii.eqb c "."); split; (discriminate || reflexivity).
Qed.

Lemma allExtensionChars_hasDot s : allExtensionChars s = true -> hasDot s = false.
Proof.
  induction s as [| c rest IH]; cbn; [reflexivity |].
  unfold isExtensionChar. intros H.
  apply andb_true_iff in H as [Hc Hrest]. apply andb_true_iff in Hc as [_ Hdot].
  rewrite (IH Hrest). destruct (Ascii.eqb c "."); [discriminate | reflexivity].
Qed.

Lemma allExtensionChars_hasSlash s :
  hasDot s = false -> allExtensionChars s = negb (hasSlash s).
Proof.
  induction s as [| c rest IH]; cbn; [reflexivity |].
  unfold isExtensionChar. intros H.
  apply orb_false_iff in H as [Hc Hrest]. rewrite Hc, (IH Hrest).
  destruct (Ascii.eqb c "/"); reflexivity.
Qed.

Lemma extensionHere_strippable c rest :
  hasDot rest = false ->
  extensionHere (String c rest) = Ascii.eqb c "." && strippable rest.
Proof.
  intros Hdot. unfold strippable. destruct rest as [| c1 rest1].
  - cbn. now rewrite andb_false_r.
  - pose proof (allExtensionChars_hasSlash _ Hdot) as Hall.
    cbn in Hall |- *. rewrite <- Hall, andb_assoc. reflexivity.
Qed.

Lemma extensionHere_no_dot c rest :
  extensionHere (String c rest) = true -> hasDot rest = false.
Proof.
  destruct rest as [| c1 rest1]; cbn; [reflexivity |].
  intros H. apply andb_true_iff in H as [H Hrest].
  apply andb_true_iff in H as [_ Hc1].
  apply (allExtensionChars_hasDot (String c1 rest1)). cbn.
  now rewrite Hc1, Hrest.
Qed.

Lemma replaceExtension_no_dot s :
  hasDot s = false -> replaceExtension s = s /\ stripLastExtension s = s.
Proof.
  induction s as [| c rest IH]; [split; reflexivity |].
  intros H. pose proof H as H'. cbn in H'.
  apply orb_false_iff in H' as [Hc Hrest]. destruct (IH Hrest) as [IH1 IH2].
  split.
  - cbn [replaceExtension].
    rewrite (extensionHere_strippable _ _ Hrest), Hc. cbn. now rewrite IH1.
  - cbn. rewrite Hc. cbn. now rewrite IH2.
Qed.

(* The regular-expression replace against the last-dot reading. *)
Lemma replaceExtension_spec s :
  match afterLastDot s with
  | None => replaceExtension s = s /\ stripLastExtension s = s
  | Some ext =>
      replaceExtension s = if strippable ext then stripLastExtension s else s
  end.
Proof.
  induction s as [| c rest IH]; [split; reflexivity |].
  cbn [afterLastDot]. destruct (afterLastDot rest) as [ext |] eqn:Hlast.
  - assert (Hdot : hasDot rest = true).
    { destruct (hasDot rest) eqn:E; [reflexivity |].
      apply afterLastDot_None in E. congruence. }
    assert (Hhere : extensionHere (String c rest) = false).
    { destruct (extensionHere (String c rest)) eqn:E; [| reflexivity].
      apply extensionHere_no_dot in E. congruence. }
    cbn [replaceExtension stripLastExtension]. rewrite Hhere, Hdot, IH.
    rewrite andb_false_r. destruct (strippable ext); reflexivity.
  - apply afterLastDot_None in Hlast.
    destruct (replaceExtension_no_dot rest Hlast) as [Hrep Hstrip].
    cbn [replaceExtension stripLastExtension].
    rewrite (extensionHere_strippable _ _ Hlast), Hlast, Hrep, Hstrip.
    destruct (Ascii.eqb c "."); cbn; [| split; reflexivity].
    destruct (strippable rest); reflexivity.
Qed.

End FileNames.

(** C7 as stated fails on a name that ends in a dot: the last dot-delimited
    extension of "scan." is empty and stripping it leaves "scan", but the
    export of its left half is named "scan._left.jpg". *)
Lemma download_name_counterexample :
  stripLastExtension "scan." +:+ "_" +:+ sideLabel LeftSide +:+ ".jpg"
    = "scan_left.jpg" /\
  download <$> downloadHalf (leftHalfOriginal (pairOf "scan.")) 0 "scan."
                            (sideLabel LeftSide)
    = Some "scan._left.jpg" /\
  download <$> downloadHalf (leftHalfOriginal (pairOf "scan.")) 0 "scan."
                            (sideLabel LeftSide)
    <> Some (stripLastExtension "scan." +:+ "_" +:+ sideLabel LeftSide +:+ ".jpg").
Proof. vm_compute. repeat split. discriminate. Qed.

(** C7, amended: for every source file name and side label "left" or
    "right", the export is named by the file name without its last
    dot-delimited extension, followed by "_<side>.jpg", provided the text
    after the last dot is not empty and holds no "/"; a name without a
    dot, with nothing after its last dot, or with a "/" after it is kept
    whole in front of "_<side>.jpg".  So "roll1.jpg" exports its left half
    as "roll1_left.jpg". *)
Theorem download_name (imageData : DataURL) (rotation : Z) (fileName : string)
        (side : Side) (img : HTMLImage) :
  decode imageData = Some img ->
  exists d,
    downloadHalf imageData rotation fileName (sideLabel side) = Some d /\
    download d =
      (match afterLastDot fileName with
       | Some ext => if strippable ext then stripLastExtension fileName else fileName
       | None => fileName
       end) +:+ "_" +:+ sideLabel side +:+ ".jpg" /\
    (fileName = "roll1.jpg" -> side = LeftSide -> download d = "roll1_left.jpg").
Proof.
  intros Hdec.
  destruct (downloadHalf_canvas imageData rotation fileName (sideLabel side) img Hdec)
    as (d & Hd & _ & _ & Hname).
  exists d. split; [exact Hd |]. split.
  - rewrite Hname. f_equal.
    pose proof (replaceExtension_spec fileName) as Hspec.
    destruct (afterLastDot fileName); [exact Hspec | apply Hspec].
  - intros -> ->. rewrite Hname. reflexivity.
Qed.

Lemma download_name_witness :
  exists d,
    downloadHalf (leftHalfOriginal (pairOf "roll1.jpg")) 90 "roll1.jpg" "left"
      = Some d /\
    download d = "roll1_left.jpg".
Proof.
  destruct (download_name (leftHalfOriginal (pairOf "roll1.jpg")) 90 "roll1.jpg"
              LeftSide {| img_width := 3; img_height := 4 |} eq_refl)
    as (d & Hd & _ & Hroll).
  exists d. split; [exact Hd | now apply Hroll].
Defined.

(* ===================================================================== *)
(* Import of a batch                                                     *)
(* ===================================================================== *)

Section ImportFacts.

Lemma list_pair_ind {A : Type} (P : list A -> Prop) :
  P [] ->
  (forall x, P [x]) ->
  (forall x y l, P l -> P (x :: y :: l)) ->
  forall l, P l.
Proof.
  intros Hnil Hone Hstep l.
  assert (H : P l /\ forall x, P (x :: l)); [| exact (proj1 H)].
  induction l as [| y l [IH1 IH2]]; split; auto.
Qed.

Lemma filter_all {A : Type} (P : A -> Prop) `{!forall x, Decision (P x)}
      (l : list A) :
  Forall P l -> filter P l = l.
Proof.
  induction 1 as [| x l Hx _ IH]; [reflexivity |].
  rewrite filter_cons_True by exact Hx. now rewrite IH.
Qed.

Lemma await_no_press (stop : AppState -> AppState) (st : AppState) :
  await stop st [] = (st, []).
Proof. reflexivity. Qed.

(* The loop when nobody presses stop and the file at position k of the
   pending files is the only one that fails: the groups before the one
   that holds k are pushed, then the rejection leaves the loop. *)
Lemma importLoop_rejects (pending : list File) :
  forall (k : nat) (bad : File) (e : Failure) (i len : Z) (st : AppState),
    shouldStopImport st = false ->
    pending !! k = Some bad ->
    processFile bad = Rejected e ->
    (forall j f, j <> k -> pending !! j = Some f ->
                 exists s, processFile f = Resolved s) ->
    exists committed st',
      importLoop i len pending st [] = (st', [], Rejected e) /\
      promiseAll (map processFile (take (2 * Nat.div2 k) pending))
        = Resolved committed /\
      splitImages st' = splitImages st ++ committed /\
      length committed = (2 * Nat.div2 k)%nat /\
      isImporting st' = isImporting st.
Proof.
  induction pending as [| x | x y later IH] using list_pair_ind;
    intros k bad e i len st Hstop Hk Hbad Hothers.
  - discriminate.
  - destruct k as [| k]; [| discriminate]. injection Hk as ->.
    exists [], st. cbn. rewrite Hstop, Hbad. cbn.
    rewrite app_nil_r. repeat split.
  - destruct k as [| [| k]].
    + injection Hk as ->. exists [], st. cbn. rewrite Hstop, Hbad. cbn.
      rewrite app_nil_r. repeat split.
    + injection Hk as ->.
      destruct (Hothers 0%nat x ltac:(lia) eq_refl) as [sx Hx].
      exists [], st. cbn. rewrite Hstop, Hx, Hbad. cbn.
      rewrite app_nil_r. repeat split.
    + destruct (Hothers 0%nat x ltac:(lia) eq_refl) as [sx Hx].
      destruct (Hothers 1%nat y ltac:(lia) eq_refl) as [sy Hy].
      set (st3 :=
             setImportProgress
               {| current := Z.min (i + batchSize) len;
                  total := total (importProgress st) |}
               (setSplitImages (splitImages st ++ [sx; sy]) st)).
      destruct (IH k bad e (i + batchSize) len st3 Hstop Hk Hbad)
        as (committed & st' & Hloop & Hall & Himgs & Hlen & Himp).
      { intros j f Hj Hf. apply (Hothers (S (S j)) f); [lia | exact Hf]. }
      exists (sx :: sy :: committed), st'.
      replace (2 * Nat.div2 (S (S k)))%nat with (S (S (2 * Nat.div2 k)))
        by (cbn; lia).
      split; [| split; [| split; [| split]]].
      * cbn [importLoop]. rewrite Hstop, await_no_press.
        simpl take. simpl map. simpl promiseAll. rewrite Hx.
        simpl promiseAll. rewrite Hy.
        destruct (i + batchSize <? len); exact Hloop.
      * change (take (S (S (2 * Nat.div2 k))) (x :: y :: later))
          with (x :: y :: take (2 * Nat.div2 k) later).
        cbn [map promiseAll]. rewrite Hx, Hy, Hall. reflexivity.
      * rewrite Himgs. cbn. now rewrite <- app_assoc.
      * cbn. now rewrite Hlen.
      * exact Himp.
Qed.

End ImportFacts.

(* The export loop with a selected half whose data does not decode: that
   half triggers no download and the loop goes on to the next one. *)
Lemma export_skips_undecodable_half :
  let st := toggleCheck 1 LeftSide
              (toggleCheck 0 LeftSide
                 (setSplitImages [speck; pairOf "roll2.jpg"] idle)) in
  let result := downloadChecked st [] in
  map download (snd result) = ["roll2_left.jpg"] /\
  downloadProgress (fst (fst result)) = {| current := 2; total := 2 |} /\
  isDownloading (fst (fst result)) = false.
Proof. vm_compute. repeat split. Qed.

(* A failing file under no stop press, for any selection: the groups of
   two that come before the failing file's group are pushed, then the
   rejection of Promise.all leaves the handler; the failing file's
   group and every later file are lost. *)
Lemma handleFileSelect_rejects (picked : list File)
      (st : AppState) (k : nat) (bad : File) (e : Failure) :
  Forall (fun file => String.prefix "image/" (type file) = true) picked ->
  picked !! k = Some bad ->
  processFile bad = Rejected e ->
  (forall j f, j <> k -> picked !! j = Some f ->
               exists s, processFile f = Resolved s) ->
  exists committed st',
    handleFileSelect (Some picked) st [] = (st', [], Rejected e) /\
    promiseAll (map processFile (take (2 * Nat.div2 k) picked))
      = Resolved committed /\
    splitImages st' = splitImages st ++ committed /\
    length (splitImages st') = (length (splitImages st) + 2 * Nat.div2 k)%nat /\
    isImporting st' = true.
Proof.
  intros Himage Hk Hbad Hothers.
  set (st0 :=
         setImportProgress
           {| current := 0; total := Z.of_nat (length picked) |}
           (setShouldStopImport false (setIsImporting true st))).
  destruct (importLoop_rejects picked k bad e 0 (Z.of_nat (length picked)) st0
              eq_refl Hk Hbad Hothers)
    as (committed & st' & Hloop & Hall & Himgs & Hlen & Himp).
  exists committed, st'. split; [| split; [exact Hall | split; [| split]]].
  - unfold handleFileSelect. rewrite (filter_all _ _ Himage).
    destruct picked as [| x rest]; [discriminate |].
    fold st0. rewrite Hloop. reflexivity.
  - exact Himgs.
  - rewrite Himgs, length_app, Hlen. reflexivity.
  - exact Himp.
Qed.

(** C1: the claim asks that an import of n files of which one does not
    decode ends with n-1 pairs, the failing file skipped and the batch
    not aborted.  handleFileSelect does not do that.  Of five picked
    files of which the third does not decode, with no stop press, only
    the first two reach the registry, not the four the claim asks for:
    the fourth file is lost with its group, the fifth is never read, the
    handler ends by the rejection with progress at 2 of 5, and since the
    lines after the loop are not reached isImporting stays true. *)
Theorem import_aborts_at_corrupt_file :
  let picked := [scan "1.jpg"; scan "2.jpg"; corrupt "3.jpg";
                 scan "4.jpg"; scan "5.jpg"] in
  let result := handleFileSelect (Some picked) idle [] in
  splitImages (fst (fst result)) = [pairOf "1.jpg"; pairOf "2.jpg"] /\
  splitImages (fst (fst result))
    <> [pairOf "1.jpg"; pairOf "2.jpg"; pairOf "4.jpg"; pairOf "5.jpg"] /\
  length (splitImages (fst (fst result))) <> 4%nat /\
  snd result = Rejected ImageError /\
  importProgress (fst (fst result)) = {| current := 2; total := 5 |} /\
  isImporting (fst (fst result)) = true.
Proof. vm_compute. repeat split; discriminate. Qed.

(* ===================================================================== *)
(* Selection: the counters and switches over the registry                *)
(* ===================================================================== *)

Section SelectionFacts.

Implicit Types (st : AppState) (imgs : list SplitImage) (img : SplitImage).

Lemma checkedCount_cons img imgs :
  checkedCount (img :: imgs) = selectedHalves img + checkedCount imgs.
Proof.
  unfold checkedCount at 1. cbn [fold_left]. rewrite checkedCount_fold.
  unfold selectedHalves. lia.
Qed.

Lemma checkedCount_nil : checkedCount [] = 0.
Proof. reflexivity. Qed.

Lemma checkedCount_app imgs1 imgs2 :
  checkedCount (imgs1 ++ imgs2) = checkedCount imgs1 + checkedCount imgs2.
Proof.
  induction imgs1 as [| img rest IH]; [rewrite checkedCount_nil; cbn [app]; lia |].
  cbn [app]. rewrite !checkedCount_cons, IH. lia.
Qed.

Lemma selectedHalves_bounds img : 0 <= selectedHalves img <= 2.
Proof. unfold selectedHalves. destruct (leftChecked img), (rightChecked img); lia. Qed.

Lemma checkedCount_bounds imgs :
  0 <= checkedCount imgs <= 2 * Z.of_nat (length imgs).
Proof.
  induction imgs as [| img rest IH]; [rewrite checkedCount_nil; cbn [length]; lia |].
  rewrite checkedCount_cons. pose proof (selectedHalves_bounds img).
  cbn [length]. lia.
Qed.

Lemma hasCheckedItems_count st :
  hasCheckedItems st = true <-> 0 < checkedCount (splitImages st).
Proof.
  unfold hasCheckedItems.
  induction (splitImages st) as [| img rest IH]; cbn [existsb].
  - rewrite checkedCount_nil. split; [discriminate | lia].
  - rewrite checkedCount_cons, orb_true_iff, IH.
    pose proof (checkedCount_bounds rest). unfold selectedHalves.
    destruct (leftChecked img), (rightChecked img); cbn; split;
      intros; try lia; auto; destruct H0; (discriminate || lia).
Qed.

Lemma forallb_both_count imgs :
  forallb (fun img => leftChecked img && rightChecked img) imgs = true <->
  checkedCount imgs = 2 * Z.of_nat (length imgs).
Proof.
  induction imgs as [| img rest IH]; cbn [forallb length].
  - rewrite checkedCount_nil. split; [lia | reflexivity].
  - rewrite checkedCount_cons, andb_true_iff, IH.
    pose proof (checkedCount_bounds rest). unfold selectedHalves.
    destruct (leftChecked img), (rightChecked img); cbn; split;
      intros; try lia; try (split; [reflexivity | lia]);
      destruct H0; discriminate.
Qed.

Lemma allChecked_count st :
  allChecked st = true <->
  splitImages st <> [] /\
  checkedCount (splitImages st) = 2 * Z.of_nat (length (splitImages st)).
Proof.
  unfold allChecked. destruct (splitImages st) as [| img rest] eqn:E.
  - cbn. split; [discriminate | intros [H _]; congruence].
  - change (length (img :: rest) =? 0)%nat with false. cbv iota.
    rewrite forallb_both_count. split; [intros H; split; [discriminate | exact H] | tauto].
Qed.

End SelectionFacts.

(** X1: the three selection summaries agree with one another: the count of
    selected halves lies between 0 and twice the number of pairs;
    hasCheckedItems (which enables the download button) holds exactly when
    the count is positive; allChecked (the Select All box) holds exactly
    when the registry is not empty and the count is twice the number of
    pairs. *)
Theorem selection_summaries_agree (st : AppState) :
  0 <= checkedCount (splitImages st) <= 2 * Z.of_nat (length (splitImages st)) /\
  (hasCheckedItems st = true <-> 0 < checkedCount (splitImages st)) /\
  (hasCheckedItems st = false <-> checkedCount (splitImages st) = 0) /\
  (allChecked st = true <->
     splitImages st <> [] /\
     checkedCount (splitImages st) = 2 * Z.of_nat (length (splitImages st))).
Proof.
  pose proof (checkedCount_bounds (splitImages st)) as Hb.
  pose proof (hasCheckedItems_count st) as Hh.
  split; [exact Hb |]. split; [exact Hh |]. split; [| apply allChecked_count].
  destruct (hasCheckedItems st).
  - assert (0 < checkedCount (splitImages st)) by (apply Hh; reflexivity).
    split; [discriminate | lia].
  - split; [intros _ | reflexivity].
    destruct (Z.eq_dec (checkedCount (splitImages st)) 0) as [H0 | Hne];
      [exact H0 |].
    assert (false = true) by (apply Hh; lia). discriminate.
Qed.

Section SwitchFacts.

Implicit Types (st : AppState) (imgs : list SplitImage) (img : SplitImage).
Implicit Types (i j : Z) (side : Side).

Lemma setSplitImages_same st : setSplitImages (splitImages st) st = st.
Proof. destruct st; reflexivity. Qed.

Lemma splitImages_set imgs st : splitImages (setSplitImages imgs st) = imgs.
Proof. reflexivity. Qed.

Lemma setSplitImages_twice imgs1 imgs2 st :
  setSplitImages imgs2 (setSplitImages imgs1 st) = setSplitImages imgs2 st.
Proof. reflexivity. Qed.

Lemma alter_beyond (f : SplitImage -> SplitImage) imgs (n : nat) :
  (length imgs <= n)%nat -> alter f n imgs = imgs.
Proof.
  revert n. induction imgs as [| img rest IH]; intros [| n] Hn;
    cbn in *; try reflexivity; try lia.
  f_equal. apply IH. lia.
Qed.

(* Both in-place handlers, without the lookup: a negative index changes
   nothing; any other index alters that position, if there is one. *)
Lemma rotateToDirection_alter st i side d :
  rotateToDirection i side d st =
    if i <? 0 then st
    else setSplitImages
           (alter (rotated side d) (Z.to_nat i) (splitImages st)) st.
Proof.
  unfold rotateToDirection, pairAt. destruct (i <? 0); [reflexivity |].
  destruct (splitImages st !! Z.to_nat i) eqn:E; [reflexivity |].
  apply lookup_ge_None in E. rewrite alter_beyond by exact E.
  now rewrite setSplitImages_same.
Qed.

Lemma toggleCheck_alter st i side :
  toggleCheck i side st =
    if i <? 0 then st
    else setSplitImages (alter (toggled side) (Z.to_nat i) (splitImages st)) st.
Proof.
  unfold toggleCheck, pairAt. destruct (i <? 0); [reflexivity |].
  destruct (splitImages st !! Z.to_nat i) eqn:E; [reflexivity |].
  apply lookup_ge_None in E. rewrite alter_beyond by exact E.
  now rewrite setSplitImages_same.
Qed.

Lemma toggled_twice side img : toggled side (toggled side img) = img.
Proof. destruct img, side; cbn; now rewrite negb_involutive. Qed.

Lemma rotated_commute side1 d1 side2 d2 img :
  rotated side1 d1 (rotated side2 d2 img) = rotated side2 d2 (rotated side1 d1 img).
Proof.
  destruct img, side1, side2; cbn; try reflexivity;
    unfold setLeftRotation, setRightRotation; cbn; f_equal; lia.
Qed.

Lemma rotated_back side img :
  rotated side Delta90 (rotated side DeltaMinus90 img) = img /\
  rotated side DeltaMinus90 (rotated side Delta90 img) = img /\
  rotated side Delta0 img = img.
Proof.
  destruct img, side; cbn; unfold setLeftRotation, setRightRotation; cbn;
    repeat split; f_equal; lia.
Qed.

Lemma checkedCount_alter (f : SplitImage -> SplitImage) imgs (n : nat) img :
  imgs !! n = Some img ->
  checkedCount (alter f n imgs) =
    checkedCount imgs + (selectedHalves (f img) - selectedHalves img).
Proof.
  revert n. induction imgs as [| x rest IH]; intros [| n] H; try discriminate.
  - injection H as ->. cbn [alter list_alter]. rewrite !checkedCount_cons. lia.
  - cbn in H. change (alter f (S n) (x :: rest)) with (x :: alter f n rest).
    rewrite !checkedCount_cons, (IH _ H). lia.
Qed.

Lemma selectedHalves_toggled side img :
  selectedHalves (toggled side img) =
    selectedHalves img + (if checkedOf side img then -1 else 1).
Proof.
  unfold selectedHalves.
  destruct side; cbn; destruct (leftChecked img), (rightChecked img); reflexivity.
Qed.

Lemma selectedHalves_rotated side d img :
  selectedHalves (rotated side d img) = selectedHalves img.
Proof. destruct side; reflexivity. Qed.

End SwitchFacts.

(** X2: toggleCheck on an existing pair changes the count of selected
    halves by exactly one (up when the half was unselected, down when it
    was selected) and leaves the number of pairs alone; applied twice with
    the same index and side it gives back the state it started from,
    whatever the index. *)
Theorem toggle_counts_and_undoes (st : AppState) (pairIndex : Z) (side : Side) :
  toggleCheck pairIndex side (toggleCheck pairIndex side st) = st /\
  length (splitImages (toggleCheck pairIndex side st)) = length (splitImages st) /\
  forall image,
    pairAt (splitImages st) pairIndex = Some image ->
    checkedCount (splitImages (toggleCheck pairIndex side st)) =
      checkedCount (splitImages st) + (if checkedOf side image then -1 else 1).
Proof.
  split; [| split; [apply toggleCheck_length |]].
  - rewrite !toggleCheck_alter. destruct (pairIndex <? 0); [reflexivity |].
    rewrite splitImages_set, setSplitImages_twice.
    rewrite list_alter_alter_eq, list_alter_id by apply toggled_twice.
    apply setSplitImages_same.
  - intros image H. apply pairAt_Some in H as [Hi Hat].
    rewrite toggleCheck_alter.
    destruct (pairIndex <? 0) eqn:E; [apply Z.ltb_lt in E; lia |].
    rewrite splitImages_set, (checkedCount_alter _ _ _ _ Hat).
    rewrite selectedHalves_toggled. lia.
Qed.

(** X3: rotate commands compose by plain addition of their deltas: any two
    rotateToDirection calls give the same state in either order; a +90
    followed by a -90 (or the reverse) on the same half, and a delta of 0,
    give back the state unchanged; and no rotate command changes the
    number of pairs or the count of selected halves. *)
Theorem rotate_commands_compose (st : AppState) (i j : Z) (s t : Side)
        (d e : DeltaRotation) :
  rotateToDirection i s d (rotateToDirection j t e st) =
    rotateToDirection j t e (rotateToDirection i s d st) /\
  rotateToDirection i s Delta90 (rotateToDirection i s DeltaMinus90 st) = st /\
  rotateToDirection i s DeltaMinus90 (rotateToDirection i s Delta90 st) = st /\
  rotateToDirection i s Delta0 st = st /\
  length (splitImages (rotateToDirection i s d st)) = length (splitImages st) /\
  checkedCount (splitImages (rotateToDirection i s d st)) =
    checkedCount (splitImages st).
Proof.
  rewrite !rotateToDirection_alter.
  split; [| split; [| split; [| split; [| split]]]].
  - destruct (i <? 0) eqn:Ei, (j <? 0) eqn:Ej; try reflexivity.
    rewrite !splitImages_set, !setSplitImages_twice.
    f_equal. destruct (decide (Z.to_nat i = Z.to_nat j)) as [Heq | Hne].
    + rewrite Heq, !list_alter_alter_eq. apply list_alter_ext; [| reflexivity].
      intros x _. apply rotated_commute.
    + now apply list_alter_alter_ne.
  - destruct (i <? 0); [reflexivity |].
    rewrite splitImages_set, setSplitImages_twice.
    rewrite list_alter_alter_eq, list_alter_id; [apply setSplitImages_same |].
    intros x. apply rotated_back.
  - destruct (i <? 0); [reflexivity |].
    rewrite splitImages_set, setSplitImages_twice.
    rewrite list_alter_alter_eq, list_alter_id; [apply setSplitImages_same |].
    intros x. apply rotated_back.
  - destruct (i <? 0); [reflexivity |].
    rewrite list_alter_id; [apply setSplitImages_same |].
    intros x. apply rotated_back.
  - destruct (i <? 0); [reflexivity |]. rewrite splitImages_set.
    apply length_alter.
  - destruct (i <? 0); [reflexivity |]. rewrite splitImages_set.
    destruct (splitImages st !! Z.to_nat i) as [img |] eqn:E.
    + rewrite (checkedCount_alter _ _ _ _ E), selectedHalves_rotated. lia.
    + apply lookup_ge_None in E. now rewrite alter_beyond.
Qed.

Section SelectAllFacts.

Implicit Types (st : AppState) (imgs : list SplitImage) (img : SplitImage).

Lemma checkedCount_map_bothSet value imgs :
  checkedCount (map (bothSet value) imgs) =
    if value then 2 * Z.of_nat (length imgs) else 0.
Proof.
  induction imgs as [| img rest IH]; cbn [map length].
  - rewrite checkedCount_nil. destruct value; reflexivity.
  - rewrite checkedCount_cons, IH. unfold selectedHalves, bothSet.
    destruct value; cbn [leftChecked rightChecked setRightChecked setLeftChecked]; lia.
Qed.

Lemma lookup_map_bothSet value imgs (n : nat) :
  map (bothSet value) imgs !! n = bothSet value <$> imgs !! n.
Proof.
  revert n. induction imgs as [| img rest IH]; intros [| n]; cbn; auto.
Qed.

End SelectAllFacts.

(** X4: the Select All switch.  Setting it to true selects both halves of
    every pair, so the count becomes twice the number of pairs; setting it
    to false clears every flag, so the count becomes 0 and nothing is left
    to download.  Either way each pair keeps its position, its images, its
    name and both rotation angles.  Reading the switch back gives the
    value written only when the registry is not empty: on an empty
    registry it reads false even after true was written. *)
Theorem select_all_switch (st : AppState) (value : bool) :
  length (splitImages (setAllChecked value st)) = length (splitImages st) /\
  checkedCount (splitImages (setAllChecked value st)) =
    (if value then 2 * Z.of_nat (length (splitImages st)) else 0) /\
  (forall i image,
     pairAt (splitImages st) i = Some image ->
     exists image',
       pairAt (splitImages (setAllChecked value st)) i = Some image' /\
       leftChecked image' = value /\ rightChecked image' = value /\
       leftRotation image' = leftRotation image /\
       rightRotation image' = rightRotation image /\
       originalName image' = originalName image /\
       leftHalfOriginal image' = leftHalfOriginal image /\
       rightHalfOriginal image' = rightHalfOriginal image /\
       leftHalf image' = leftHalf image /\
       rightHalf image' = rightHalf image) /\
  allChecked (setAllChecked value st) =
    (if (length (splitImages st) =? 0)%nat then false else value) /\
  hasCheckedItems (setAllChecked false st) = false.
Proof.
  assert (Hlen : length (splitImages (setAllChecked value st))
                 = length (splitImages st)).
  { unfold setAllChecked. rewrite splitImages_set. apply length_map. }
  assert (Hcount : forall v,
             checkedCount (splitImages (setAllChecked v st)) =
               (if v then 2 * Z.of_nat (length (splitImages st)) else 0)).
  { intros v. unfold setAllChecked. rewrite splitImages_set.
    apply checkedCount_map_bothSet. }
  split; [exact Hlen |]. split; [apply Hcount |]. split; [| split].
  - intros i image H. apply pairAt_Some in H as [Hi Hat].
    exists (bothSet value image). split.
    + apply pairAt_Some. split; [exact Hi |].
      unfold setAllChecked. rewrite splitImages_set.
      change (fun img => setRightChecked value (setLeftChecked value img))
        with (bothSet value).
      now rewrite lookup_map_bothSet, Hat.
    + repeat split.
  - destruct (length (splitImages st) =? 0)%nat eqn:E.
    + unfold allChecked. now rewrite Hlen, E.
    + destruct value.
      * apply allChecked_count. rewrite Hlen, Hcount. split; [| reflexivity].
        intros Hnil. rewrite Hnil in Hlen. cbn in Hlen.
        rewrite <- Hlen in E. discriminate.
      * destruct (allChecked (setAllChecked false st)) eqn:A; [| reflexivity].
        apply allChecked_count in A as [Hne A]. rewrite Hcount, Hlen in A.
        apply Nat.eqb_neq in E. lia.
  - destruct (hasCheckedItems (setAllChecked false st)) eqn:E; [| reflexivity].
    apply hasCheckedItems_count in E. rewrite Hcount in E. lia.
Qed.

Section RemovalFacts.

Implicit Types (st : AppState) (imgs : list SplitImage) (img : SplitImage).

Lemma spliceStart_range (len index : Z) :
  0 <= len -> 0 <= spliceStart len index <= len.
Proof. unfold spliceStart. destruct (index <? 0) eqn:E; lia. Qed.

Lemma checkedCount_delete imgs (n : nat) img :
  imgs !! n = Some img ->
  checkedCount (delete n imgs) = checkedCount imgs - selectedHalves img.
Proof.
  revert n. induction imgs as [| x rest IH]; intros [| n] H; try discriminate.
  - injection H as ->. change (delete 0%nat (img :: rest)) with rest.
    rewrite checkedCount_cons. lia.
  - cbn in H. change (delete (S n) (x :: rest)) with (x :: delete n rest).
    rewrite !checkedCount_cons, (IH _ H). lia.
Qed.

Lemma delete_beyond imgs (n : nat) : (length imgs <= n)%nat -> delete n imgs = imgs.
Proof.
  revert n. induction imgs as [| x rest IH]; intros [| n] Hn;
    cbn in *; try reflexivity; try lia.
  f_equal. apply IH. lia.
Qed.

End RemovalFacts.

(** X5: removeImagePair follows splice(index, 1).  An index at or beyond
    the length removes nothing.  Otherwise exactly one pair goes: the one
    at the index, or, for a negative index, the one that many places from
    the end (the first pair when the index reaches before the start); the
    number of pairs drops by one, the count of selected halves drops by
    the selected halves of the removed pair, the pairs before it keep
    their index and the pairs after it move one index down. *)
Theorem remove_pair_by_index (st : AppState) (index : Z) :
  let len := Z.of_nat (length (splitImages st)) in
  let start := spliceStart len index in
  let st' := removeImagePair index st in
  (len <= index -> st' = st) /\
  (index < len -> splitImages st <> [] ->
     exists removed,
       pairAt (splitImages st) start = Some removed /\
       (0 <= index -> start = index) /\
       (index < 0 -> start = Z.max (len + index) 0) /\
       Z.of_nat (length (splitImages st')) = len - 1 /\
       checkedCount (splitImages st') =
         checkedCount (splitImages st) - selectedHalves removed /\
       (forall p, p < start ->
                  pairAt (splitImages st') p = pairAt (splitImages st) p) /\
       (forall p, start <= p ->
                  pairAt (splitImages st') p = pairAt (splitImages st) (p + 1))).
Proof.
  intros len start st'. subst st'. unfold removeImagePair. fold len. fold start.
  rewrite splitImages_set.
  pose proof (spliceStart_range len index ltac:(subst len; lia)) as Hr. fold start in Hr.
  split.
  - intros Hge.
    assert (Hs : start = len).
    { subst start. unfold spliceStart.
      destruct (index <? 0) eqn:E; [apply Z.ltb_lt in E; subst len; lia | lia]. }
    rewrite Hs, delete_beyond by (subst len; lia). apply setSplitImages_same.
  - intros Hlt Hne.
    assert (Hpos : 0 < len).
    { subst len. destruct (splitImages st); [congruence | cbn; lia]. }
    assert (Hs : start < len).
    { subst start. unfold spliceStart. destruct (index <? 0) eqn:E; lia. }
    destruct (splitImages st !! Z.to_nat start) as [removed |] eqn:Hat.
    2: { apply lookup_ge_None in Hat. subst len. lia. }
    exists removed.
    split; [apply pairAt_Some; split; [lia | exact Hat] |].
    split; [intros H0; subst start; unfold spliceStart;
            destruct (index <? 0) eqn:E; [apply Z.ltb_lt in E; lia | lia] |].
    split; [intros H0; subst start; unfold spliceStart;
            destruct (index <? 0) eqn:E; [reflexivity | apply Z.ltb_ge in E; lia] |].
    split; [rewrite length_delete by (rewrite Hat; eauto); subst len; lia |].
    split; [now apply checkedCount_delete |].
    split.
    + intros p Hp. unfold pairAt. destruct (p <? 0) eqn:E; [reflexivity |].
      apply Z.ltb_ge in E. apply list_lookup_delete_lt. lia.
    + intros p Hp. unfold pairAt.
      destruct (p <? 0) eqn:E; [apply Z.ltb_lt in E; lia |].
      destruct (p + 1 <? 0) eqn:E'; [apply Z.ltb_lt in E'; lia |].
      rewrite list_lookup_delete_ge by lia. f_equal. lia.
Qed.

(* ===================================================================== *)
(* The export loop under any schedule                                    *)
(* ===================================================================== *)

Section ExportFacts.

Implicit Types (st : AppState) (imgs : list SplitImage) (img : SplitImage).
Implicit Types (clicks : Schedule) (log : list Download).

Lemma option_list_short {A : Type} (o : option A) :
  Z.of_nat (length (option_list o)) <= 1.
Proof. destruct o; cbn; lia. Qed.

Lemma exportFrame_refl st : exportFrame st st.
Proof. repeat split. Qed.

Lemma exportFrame_trans st1 st2 st3 :
  exportFrame st1 st2 -> exportFrame st2 st3 -> exportFrame st1 st3.
Proof.
  intros (A1 & (B1 & C1 & D1) & E1 & F1) (A2 & (B2 & C2 & D2) & E2 & F2).
  repeat split; congruence.
Qed.

Lemma await_stopDownload_frame st clicks :
  exportFrame st (fst (await stopDownload st clicks)) /\
  downloadProgress (fst (await stopDownload st clicks)) = downloadProgress st /\
  (shouldStopDownload st = true ->
   shouldStopDownload (fst (await stopDownload st clicks)) = true).
Proof.
  destruct clicks as [| [|] later]; cbn; repeat split; auto.
Qed.

(* One half of one pair: either the break is taken and nothing happens,
   or the half's downloads are appended and the loop goes on. *)
Lemma exportSide_cases (checked : bool) data rotation fileName label st clicks log :
  let part := if checked
              then option_list (downloadHalf data rotation fileName label)
              else [] in
  (checked = true /\ shouldStopDownload st = true /\
   exportSide checked data rotation fileName label (st, clicks, log)
     = Break (st, clicks, log)) \/
  (exists st' clicks',
     exportSide checked data rotation fileName label (st, clicks, log)
       = Next (st', clicks', log ++ part) /\
     exportFrame st st' /\
     current (downloadProgress st') =
       current (downloadProgress st) + (if checked then 1 else 0) /\
     (shouldStopDownload st = true -> shouldStopDownload st' = true) /\
     (undisturbed clicks -> shouldStopDownload st = false ->
        shouldStopDownload st' = false /\ undisturbed clicks') /\
     (checked = true -> forall later, clicks = true :: later ->
        shouldStopDownload st' = true)).
Proof.
  intros part. subst part. unfold exportSide. destruct checked.
  - destruct (shouldStopDownload st) eqn:Hstop; [left; repeat split |].
    right. destruct clicks as [| pressed later]; cbn.
    + eexists _, _. split; [reflexivity |].
      repeat split; try lia; auto; try discriminate.
    + eexists _, _. split; [reflexivity |].
      split; [destruct pressed; repeat split |].
      split; [destruct pressed; cbn; lia |].
      split; [discriminate |].
      split.
      * intros Hund _. inversion Hund as [| ? ? Hp Hl]; subst. split; [exact Hstop | exact Hl].
      * intros _ later' Heq. injection Heq as -> _. reflexivity.
  - right. exists st, clicks. rewrite app_nil_r.
    split; [reflexivity |]. split; [apply exportFrame_refl |].
    split; [lia |]. split; [auto |]. split; [auto | discriminate].
Qed.

Lemma downloadLoop_stopped imgs st clicks log :
  shouldStopDownload st = true ->
  downloadLoop imgs (st, clicks, log) = (st, clicks, log).
Proof. intros H. destruct imgs; cbn; [reflexivity | now rewrite H]. Qed.

(* Any schedule: the loop leaves the registry and the import state alone,
   triggers an initial segment of the full export, and counts at least
   what it triggers and at most what is selected. *)
Lemma downloadLoop_any imgs :
  forall st clicks log,
  exists st' clicks' added rest,
    downloadLoop imgs (st, clicks, log) = (st', clicks', log ++ added) /\
    flat_map halfDownloads imgs = added ++ rest /\
    exportFrame st st' /\
    Z.of_nat (length added)
      <= current (downloadProgress st') - current (downloadProgress st)
      <= checkedCount imgs /\
    (undisturbed clicks -> shouldStopDownload st = false ->
       rest = [] /\
       current (downloadProgress st') - current (downloadProgress st)
         = checkedCount imgs /\
       shouldStopDownload st' = false /\ undisturbed clicks').
Proof.
  induction imgs as [| img tl IH]; intros st clicks log.
  - exists st, clicks, [], []. rewrite app_nil_r, checkedCount_nil.
    repeat split; auto; cbn [length]; lia.
  - cbn [downloadLoop fst flat_map]. rewrite checkedCount_cons.
    pose proof (checkedCount_bounds tl) as Htl.
    destruct (shouldStopDownload st) eqn:Hstop.
    { exists st, clicks, [], (halfDownloads img ++ flat_map halfDownloads tl).
      rewrite app_nil_r. pose proof (selectedHalves_bounds img).
      repeat split; auto; cbn [length]; try lia; congruence. }
    unfold halfDownloads at 1. unfold selectedHalves.
    destruct (exportSide_cases (leftChecked img) (leftHalfOriginal img)
                (leftRotation img) (originalName img) "left" st clicks log)
      as [(Hc & Hs & Hbrk) | (st1 & clicks1 & Hnext & Hf1 & Hc1 & Hk1 & Hu1 & _)];
      [congruence |].
    rewrite Hnext.
    set (partL := if leftChecked img
                  then option_list (downloadHalf (leftHalfOriginal img)
                         (leftRotation img) (originalName img) "left")
                  else []) in *.
    assert (HlenL : Z.of_nat (length partL) <= (if leftChecked img then 1 else 0)).
    { subst partL. destruct (leftChecked img); [| cbn; lia].
      apply option_list_short. }
    destruct (exportSide_cases (rightChecked img) (rightHalfOriginal img)
                (rightRotation img) (originalName img) "right" st1 clicks1
                (log ++ partL))
      as [(Hc & Hs & Hbrk) | (st2 & clicks2 & Hnext2 & Hf2 & Hc2 & Hk2 & Hu2 & _)].
    + rewrite Hbrk.
      exists st1, clicks1, partL,
        ((if rightChecked img
          then option_list (downloadHalf (rightHalfOriginal img)
                 (rightRotation img) (originalName img) "right")
          else []) ++ flat_map halfDownloads tl).
      split; [reflexivity |]. split; [now rewrite <- app_assoc |].
      split; [exact Hf1 |]. rewrite Hc.
      split; [destruct (leftChecked img); lia |].
      intros Hund _. destruct (Hu1 Hund Hstop) as [Hno _]. congruence.
    + rewrite Hnext2.
      set (partR := if rightChecked img
                    then option_list (downloadHalf (rightHalfOriginal img)
                           (rightRotation img) (originalName img) "right")
                    else []) in *.
      assert (HlenR : Z.of_nat (length partR) <= (if rightChecked img then 1 else 0)).
      { subst partR. destruct (rightChecked img); [| cbn; lia].
        apply option_list_short. }
      destruct (IH st2 clicks2 ((log ++ partL) ++ partR))
        as (st' & clicks' & added & rest & Hloop & Hflat & Hf & Hcount & Hund).
      exists st', clicks', (partL ++ partR ++ added), rest.
      split; [rewrite Hloop; now rewrite <- !app_assoc |].
      split; [rewrite Hflat; now rewrite <- !app_assoc |].
      split; [exact (exportFrame_trans _ _ _ (exportFrame_trans _ _ _ Hf1 Hf2) Hf) |].
      split; [rewrite !length_app, !Nat2Z.inj_add;
              destruct (leftChecked img), (rightChecked img); lia |].
      intros Hu _. destruct (Hu1 Hu Hstop) as [H1 Hu1'].
      destruct (Hu2 Hu1' H1) as [H2 Hu2'].
      destruct (Hund Hu2' H2) as (Hr & Hk & Hs' & Hu').
      repeat split; auto.
      destruct (leftChecked img), (rightChecked img); lia.
Qed.

(* The first press of stop falls in the pause after the first exported
   half: that half is the only one counted. *)
Lemma downloadLoop_first_press imgs :
  forall st clicks later log,
    clicks = true :: later ->
    shouldStopDownload st = false ->
    0 < checkedCount imgs ->
    current (downloadProgress (fst (fst (downloadLoop imgs (st, clicks, log)))))
      = current (downloadProgress st) + 1.
Proof.
  induction imgs as [| img tl IH]; intros st clicks later log Hclicks Hstop Hpos.
  - rewrite checkedCount_nil in Hpos. lia.
  - rewrite checkedCount_cons in Hpos. unfold selectedHalves in Hpos.
    cbn [downloadLoop fst]. rewrite Hstop.
    destruct (exportSide_cases (leftChecked img) (leftHalfOriginal img)
                (leftRotation img) (originalName img) "left" st clicks log)
      as [(Hc & Hs & Hbrk) | (st1 & clicks1 & Hnext & Hf1 & Hc1 & Hk1 & Hu1 & Hp1)];
      [congruence |].
    rewrite Hnext.
    destruct (leftChecked img) eqn:HL.
    + specialize (Hp1 eq_refl later Hclicks).
      match goal with |- context [exportSide ?c ?d ?r ?n ?l ?run] =>
        destruct (exportSide_cases c d r n l st1 clicks1
                    (log ++ option_list (downloadHalf (leftHalfOriginal img)
                       (leftRotation img) (originalName img) "left")))
          as [(Hc & Hs & Hbrk) | (st2 & clicks2 & Hnext2 & Hf2 & Hc2 & Hk2 & _)]
      end.
      * rewrite Hbrk. cbn. lia.
      * rewrite Hnext2.
        destruct (rightChecked img) eqn:HR.
        -- exfalso. unfold exportSide in Hnext2. rewrite Hp1 in Hnext2. discriminate.
        -- rewrite downloadLoop_stopped by auto. cbn. lia.
    + unfold exportSide in Hnext. injection Hnext as <- <- _.
      destruct (rightChecked img) eqn:HR.
      * destruct (exportSide_cases true (rightHalfOriginal img)
                    (rightRotation img) (originalName img) "right" st clicks
                    (log ++ []))
          as [(Hc & Hs & Hbrk) | (st2 & clicks2 & Hnext2 & Hf2 & Hc2 & Hk2 & _ & Hp2)];
          [congruence |].
        rewrite Hnext2. rewrite downloadLoop_stopped by (eapply Hp2; eauto).
        cbn. lia.
      * cbn [exportSide]. apply (IH _ _ later); [exact Hclicks | exact Hstop | lia].
Qed.

(* The first selected half is exported whatever the schedule: the stop
   flag is cleared before the loop and first read before any pause. *)
Lemma downloadLoop_starts imgs :
  forall st clicks log,
    shouldStopDownload st = false ->
    0 < checkedCount imgs ->
    current (downloadProgress st) + 1
      <= current (downloadProgress (fst (fst (downloadLoop imgs (st, clicks, log))))).
Proof.
  induction imgs as [| img tl IH]; intros st clicks log Hstop Hpos.
  - rewrite checkedCount_nil in Hpos. lia.
  - rewrite checkedCount_cons in Hpos. unfold selectedHalves in Hpos.
    cbn [downloadLoop fst]. rewrite Hstop.
    destruct (exportSide_cases (leftChecked img) (leftHalfOriginal img)
                (leftRotation img) (originalName img) "left" st clicks log)
      as [(Hc & Hs & Hbrk) | (st1 & clicks1 & Hnext & _ & Hc1 & _ & _ & _)];
      [congruence |].
    rewrite Hnext.
    match goal with |- context [exportSide ?c ?d ?r ?n ?l (st1, clicks1, ?lg)] =>
      destruct (exportSide_cases c d r n l st1 clicks1 lg)
        as [(Hc & Hs & Hbrk) | (st2 & clicks2 & Hnext2 & _ & Hc2 & _ & _ & _)]
    end.
    + rewrite Hbrk. cbn [fst]. rewrite Hc in Hpos.
      destruct (leftChecked img) eqn:HL; [lia |].
      exfalso. unfold exportSide in Hnext. injection Hnext as <- _ _.
      congruence.
    + rewrite Hnext2.
      match goal with |- context [downloadLoop tl (st2, clicks2, ?lg)] =>
        destruct (downloadLoop_any tl st2 clicks2 lg)
          as (st' & clicks' & added & rest & Hloop & _ & _ & Hcount & _);
        pose proof (IH st2 clicks2 lg) as IH'
      end.
      rewrite Hloop in *. cbn [fst] in *.
      destruct (leftChecked img) eqn:HL, (rightChecked img) eqn:HR; try lia.
      apply Z.le_trans with (current (downloadProgress st2) + 1); [lia |].
      apply IH'; [| lia].
      unfold exportSide in Hnext, Hnext2.
      injection Hnext as <- _ _. injection Hnext2 as <- _ _. exact Hstop.
Qed.

End ExportFacts.

Section ExportRuns.

Implicit Types (st : AppState) (imgs : list SplitImage) (img : SplitImage).
Implicit Types (clicks : Schedule) (log : list Download).

(* downloadChecked on a registry with a selected half, in three steps. *)
Lemma downloadChecked_steps st clicks :
  checkedCount (splitImages st) <> 0 ->
  exists st2 clicks2 added st3 clicks3,
    downloadLoop (splitImages st) (exportStart st, clicks, []) = (st2, clicks2, added) /\
    await stopDownload st2 clicks2 = (st3, clicks3) /\
    downloadChecked st clicks =
      (setShouldStopDownload false (setIsDownloading false st3), clicks3, added).
Proof.
  intros Hne. unfold downloadChecked.
  destruct (checkedCount (splitImages st) =? 0) eqn:E;
    [apply Z.eqb_eq in E; congruence |].
  change (splitImages
            (setDownloadProgress
               {| current := 0; total := checkedCount (splitImages st) |}
               (setShouldStopDownload false (setIsDownloading true st))))
    with (splitImages st).
  fold (exportStart st).
  destruct (downloadLoop (splitImages st) (exportStart st, clicks, []))
    as [[st2 clicks2] added].
  destruct (await stopDownload st2 clicks2) as [st3 clicks3] eqn:Haw.
  exists st2, clicks2, added, st3, clicks3. repeat split. exact Haw.
Qed.

Lemma halfDownloads_length img :
  (leftChecked img = true -> is_Some (decode (leftHalfOriginal img))) ->
  (rightChecked img = true -> is_Some (decode (rightHalfOriginal img))) ->
  Z.of_nat (length (halfDownloads img)) = selectedHalves img.
Proof.
  intros HL HR. unfold halfDownloads, selectedHalves, downloadHalf.
  rewrite length_app.
  destruct (leftChecked img), (rightChecked img);
    try (destruct (HL eq_refl) as [a ->]);
    try (destruct (HR eq_refl) as [b ->]);
    repeat match goal with
           | |- context [if ?c then (_, _) else (_, _)] => destruct c
           end; reflexivity.
Qed.

End ExportRuns.

(* downloadChecked under any schedule of stop presses. *)
Lemma downloadChecked_any (st : AppState) (clicks : Schedule) :
  checkedCount (splitImages st) <> 0 ->
  let result := downloadChecked st clicks in
  let st' := fst (fst result) in
  (exists rest, flat_map halfDownloads (splitImages st) = snd result ++ rest) /\
  Z.of_nat (length (snd result)) <= current (downloadProgress st')
    <= total (downloadProgress st') /\
  total (downloadProgress st') = checkedCount (splitImages st) /\
  isDownloading st' = false /\
  shouldStopDownload st' = false /\
  splitImages st' = splitImages st /\
  sameImportState st' st /\
  1 <= current (downloadProgress st').
Proof.
  intros Hne result st'. subst st' result.
  destruct (downloadChecked_steps st clicks Hne)
    as (st2 & clicks2 & added & st3 & clicks3 & Hloop & Haw & Hrun).
  rewrite Hrun. cbn [fst snd].
  destruct (downloadLoop_any (splitImages st) (exportStart st) clicks [])
    as (st2' & clicks2' & added' & rest & Hloop' & Hflat & Hframe & Hcount & _).
  rewrite Hloop in Hloop'. injection Hloop' as <- <- <-.
  destruct (await_stopDownload_frame st2 clicks2) as (Hf3 & Hp3 & _).
  rewrite Haw in Hf3, Hp3. cbn [fst] in Hf3, Hp3.
  destruct Hframe as (Himgs & (I1 & I2 & I3) & Hd & Htot).
  destruct Hf3 as (Himgs3 & (J1 & J2 & J3) & Hd3 & Htot3).
  cbn in Himgs, I1, I2, I3, Hd, Htot, Hcount.
  split; [exists rest; exact Hflat |].
  split; [cbn; rewrite Hp3; cbn in Hcount, Htot; lia |].
  split; [cbn; rewrite Hp3; exact Htot |].
  split; [reflexivity |]. split; [reflexivity |].
  split; [cbn; congruence |].
  split; [repeat split; cbn; congruence |].
  pose proof (checkedCount_bounds (splitImages st)) as Hb.
  pose proof (downloadLoop_starts (splitImages st) (exportStart st) clicks []
                eq_refl ltac:(lia)) as Hstart.
  rewrite Hloop in Hstart. cbn in Hstart. cbn. rewrite Hp3. exact Hstart.
Qed.

(** X8: stopping an export at once.  When at least one half is selected
    and stop is pressed during the pause that follows the first exported
    half, exactly one half is counted (progress ends at 1 of total), at
    most one file is triggered, and no later half is exported. *)
Theorem export_stopped_after_first (st : AppState) (clicks later : Schedule) :
  checkedCount (splitImages st) <> 0 ->
  clicks = true :: later ->
  let result := downloadChecked st clicks in
  current (downloadProgress (fst (fst result))) = 1 /\
  total (downloadProgress (fst (fst result))) = checkedCount (splitImages st) /\
  (length (snd result) <= 1)%nat /\
  shouldStopDownload (fst (fst result)) = false.
Proof.
  intros Hne Hclicks result.
  destruct (downloadChecked_any st clicks Hne)
    as (_ & Hlen & Htot & _ & Hstop & _).
  fold result in Hlen, Htot, Hstop.
  assert (Hcur : current (downloadProgress (fst (fst result))) = 1).
  { subst result.
    destruct (downloadChecked_steps st clicks Hne)
      as (st2 & clicks2 & added & st3 & clicks3 & Hloop & Haw & Hrun).
    rewrite Hrun. cbn [fst].
    destruct (await_stopDownload_frame st2 clicks2) as (_ & Hp3 & _).
    rewrite Haw in Hp3. cbn [fst] in Hp3.
    pose proof (checkedCount_bounds (splitImages st)) as Hb.
    pose proof (downloadLoop_first_press (splitImages st) (exportStart st)
                  clicks later [] Hclicks eq_refl ltac:(lia)) as H1.
    rewrite Hloop in H1. cbn [fst] in H1. cbn. rewrite Hp3, H1. reflexivity. }
  repeat split; try assumption. lia.
Qed.

(* ===================================================================== *)
(* The export while the page stays in use                                *)
(* ===================================================================== *)

Section InterleavedFacts.

Implicit Types (st : AppState) (a : Interleaved.Action).
Implicit Types (pause : list Interleaved.Action) (pauses : Interleaved.Schedule).
Implicit Types (h : Interleaved.Held) (calls : list Interleaved.Call).

Lemma outsideExport_refl st : outsideExport st st.
Proof. repeat split. Qed.

Lemma outsideExport_trans st1 st2 st3 :
  outsideExport st1 st2 -> outsideExport st2 st3 -> outsideExport st1 st3.
Proof.
  intros (A1 & B1 & C1 & D1) (A2 & B2 & C2 & D2). repeat split; congruence.
Qed.

(* No action writes the export's progress or its running flag, and none
   clears the stop flag. *)
Lemma act_download a st :
  downloadProgress (Interleaved.act a st) = downloadProgress st /\
  isDownloading (Interleaved.act a st) = isDownloading st /\
  (shouldStopDownload st = true ->
   shouldStopDownload (Interleaved.act a st) = true).
Proof.
  destruct a; cbn [Interleaved.act];
    unfold stopDownload, removeImagePair, clearAll, rotateToDirection,
           toggleCheck, setAllChecked;
    try destruct (pairAt _ _); cbn; auto.
Qed.

Lemma length_delete_le {A : Type} (l : list A) :
  forall i, (length (delete i l) <= length l)%nat.
Proof.
  intros i. rewrite delete_take_drop, length_app, length_take, length_drop. lia.
Qed.

Lemma act_length a st :
  (length (splitImages (Interleaved.act a st))
   <= length (splitImages st) + Interleaved.pushedBy a)%nat.
Proof.
  destruct a; cbn [Interleaved.act Interleaved.pushedBy];
    unfold stopDownload, removeImagePair, clearAll, rotateToDirection,
           toggleCheck, setAllChecked;
    try destruct (pairAt _ _); cbn;
    rewrite ?length_alter, ?length_map, ?length_app; try lia.
  match goal with |- context [delete ?k ?l] =>
    pose proof (length_delete_le l k) end. lia.
Qed.

(* What an action makes of the registry and the import fields depends on
   the registry and the import fields only. *)
Lemma act_outside a st1 st2 :
  outsideExport st1 st2 ->
  outsideExport (Interleaved.act a st1) (Interleaved.act a st2).
Proof.
  intros (Himgs & I1 & I2 & I3).
  destruct a; cbn [Interleaved.act];
    unfold stopDownload, removeImagePair, clearAll, rotateToDirection,
           toggleCheck, setAllChecked;
    rewrite ?Himgs; try destruct (pairAt _ _);
    repeat split; cbn; congruence.
Qed.

Lemma runActions_app (xs ys : list Interleaved.Action) st :
  runActions (xs ++ ys) st = runActions ys (runActions xs st).
Proof. unfold runActions. apply fold_left_app. Qed.

Lemma runActions_download pause :
  forall st,
    downloadProgress (runActions pause st) = downloadProgress st /\
    isDownloading (runActions pause st) = isDownloading st /\
    (shouldStopDownload st = true ->
     shouldStopDownload (runActions pause st) = true).
Proof.
  induction pause as [| a later IH]; intros st; [repeat split; auto |].
  destruct (IH (Interleaved.act a st)) as (P & D & S).
  destruct (act_download a st) as (P0 & D0 & S0).
  change (runActions (a :: later) st) with (runActions later (Interleaved.act a st)).
  repeat split; try congruence. auto.
Qed.

Lemma runActions_length pause :
  forall st,
    (length (splitImages (runActions pause st))
     <= length (splitImages st) + sum_list (map Interleaved.pushedBy pause))%nat.
Proof.
  induction pause as [| a later IH]; intros st; [cbn; lia |].
  change (runActions (a :: later) st) with (runActions later (Interleaved.act a st)).
  pose proof (IH (Interleaved.act a st)). pose proof (act_length a st).
  cbn [map sum_list_with]. unfold id at 1. lia.
Qed.

Lemma runActions_outside pause :
  forall st1 st2,
    outsideExport st1 st2 ->
    outsideExport (runActions pause st1) (runActions pause st2).
Proof.
  induction pause as [| a later IH]; intros st1 st2 H; [exact H |].
  apply IH. now apply act_outside.
Qed.

Lemma through_state pause :
  forall st h, fst (Interleaved.through pause st h) = runActions pause st.
Proof.
  induction pause as [| a later IH]; intros st h; [reflexivity |].
  cbn [Interleaved.through]. apply IH.
Qed.

Lemma pushed_cons pause pauses :
  Interleaved.pushed (pause :: pauses) =
    (sum_list (map Interleaved.pushedBy pause) + Interleaved.pushed pauses)%nat.
Proof.
  unfold Interleaved.pushed. cbn [concat].
  rewrite map_app, sum_list_with_app. reflexivity.
Qed.

(* One pause of the loop. *)
Lemma await_facts st h pauses :
  exists st' h' pauses' consumed,
    Interleaved.await st h pauses = (st', h', pauses') /\
    pauses = consumed ++ pauses' /\
    st' = runActions (concat consumed) st /\
    (length (splitImages st') + Interleaved.pushed pauses'
     <= length (splitImages st) + Interleaved.pushed pauses)%nat.
Proof.
  destruct pauses as [| pause later].
  - exists st, h, [], []. repeat split. cbn. lia.
  - cbn [Interleaved.await].
    destruct (Interleaved.through pause st h) as [st' h'] eqn:E.
    exists st', h', later, [pause]. split; [reflexivity |].
    split; [reflexivity |].
    pose proof (through_state pause st h) as Hst. rewrite E in Hst. cbn in Hst.
    subst st'. cbn [concat]. rewrite app_nil_r. split; [reflexivity |].
    rewrite pushed_cons. pose proof (runActions_length pause st). lia.
Qed.

(* One half of the held pair: the break is taken, or the half is not
   selected and nothing happens, or downloadHalf is called, counted, and
   one pause goes by. *)
Lemma live_exportSide side h st pauses calls :
  (Interleaved.exportSide side h (st, pauses, calls) = Interleaved.Break (st, pauses, calls)) \/
  (checkedOf side (Interleaved.fields h) = false /\
   Interleaved.exportSide side h (st, pauses, calls)
     = Interleaved.Next (st, pauses, calls) h) \/
  (checkedOf side (Interleaved.fields h) = true /\
   shouldStopDownload st = false /\
   exists st' h' pauses' consumed,
     Interleaved.exportSide side h (st, pauses, calls)
       = Interleaved.Next
           (st', pauses', calls ++ [Interleaved.halfCall side (Interleaved.fields h)]) h' /\
     pauses = consumed ++ pauses' /\
     outsideExport st' (runActions (concat consumed) st) /\
     isDownloading st' = isDownloading st /\
     total (downloadProgress st') = total (downloadProgress st) /\
     current (downloadProgress st') = current (downloadProgress st) + 1 /\
     (length (splitImages st') + Interleaved.pushed pauses'
      <= length (splitImages st) + Interleaved.pushed pauses)%nat).
Proof.
  unfold Interleaved.exportSide.
  destruct (checkedOf side (Interleaved.fields h)) eqn:Hc;
    [| right; left; split; reflexivity].
  destruct (shouldStopDownload st) eqn:Hs; [left; reflexivity |].
  right; right. split; [reflexivity |]. split; [reflexivity |].
  set (st1 := setDownloadProgress
                {| current := current (downloadProgress st) + 1;
                   total := total (downloadProgress st) |} st).
  destruct (await_facts st1 h pauses)
    as (st' & h' & pauses' & consumed & Haw & Hsplit & Hst & Hlen).
  rewrite Haw. exists st', h', pauses', consumed.
  split; [reflexivity |]. split; [exact Hsplit |].
  destruct (runActions_download (concat consumed) st1) as (P & D & _).
  rewrite <- Hst in P, D.
  split.
  { rewrite Hst. apply runActions_outside. repeat split. }
  split; [rewrite D; reflexivity |].
  split; [rewrite P; reflexivity |].
  split; [rewrite P; reflexivity |].
  exact Hlen.
Qed.

(* The loop under any schedule: every call is counted once, the total and
   the running flag are kept, and the registry and the import fields end
   as the actions of the pauses that went by left them. *)
Lemma live_loop_any (fuel : nat) :
  forall i st pauses calls,
  exists st' pauses' more consumed,
    Interleaved.downloadLoop fuel i (st, pauses, calls)
      = (st', pauses', calls ++ more) /\
    pauses = consumed ++ pauses' /\
    outsideExport st' (runActions (concat consumed) st) /\
    isDownloading st' = isDownloading st /\
    total (downloadProgress st') = total (downloadProgress st) /\
    current (downloadProgress st')
      = current (downloadProgress st) + Z.of_nat (length more).
Proof.
  induction fuel as [| fuel IH]; intros i st pauses calls.
  - exists st, pauses, [], []. rewrite app_nil_r. cbn.
    repeat split; lia.
  - assert (Hstay : exists st' pauses' more consumed,
               (st, pauses, calls) = (st', pauses', calls ++ more) /\
               pauses = consumed ++ pauses' /\
               outsideExport st' (runActions (concat consumed) st) /\
               isDownloading st' = isDownloading st /\
               total (downloadProgress st') = total (downloadProgress st) /\
               current (downloadProgress st')
                 = current (downloadProgress st) + Z.of_nat (length more)).
    { exists st, pauses, [], []. rewrite app_nil_r. cbn. repeat split; lia. }
    cbn [Interleaved.downloadLoop fst].
    destruct (i <? length (splitImages st))%nat; [| exact Hstay].
    destruct (shouldStopDownload st); [exact Hstay |].
    destruct (splitImages st !! i) as [img |]; [| apply IH].
    set (h := {| Interleaved.place := Some i; Interleaved.fields := img |}).
    destruct (live_exportSide LeftSide h st pauses calls)
      as [-> | [(_ & ->) | (_ & _ & st1 & h1 & pauses1 & consumed1 & -> & Hs1 & Ho1 & Hd1 & Ht1 & Hc1 & _)]];
      [exact Hstay | |].
    + destruct (live_exportSide RightSide h st pauses calls)
        as [-> | [(_ & ->) | (_ & _ & st2 & h2 & pauses2 & consumed2 & -> & Hs2 & Ho2 & Hd2 & Ht2 & Hc2 & _)]];
        [exact Hstay | apply IH |].
      destruct (IH (S i) st2 pauses2 (calls ++ [Interleaved.halfCall RightSide (Interleaved.fields h)]))
        as (st' & pauses' & more & consumed & Hloop & Hs & Ho & Hd & Ht & Hc).
      exists st', pauses', (Interleaved.halfCall RightSide (Interleaved.fields h) :: more),
             (consumed2 ++ consumed).
      split; [rewrite Hloop; now rewrite <- app_assoc |].
      split; [rewrite Hs2, Hs; now rewrite app_assoc |].
      split.
      { rewrite concat_app, runActions_app.
        eapply outsideExport_trans; [exact Ho |].
        now apply runActions_outside. }
      split; [congruence |]. split; [congruence |].
      rewrite Hc, Hc2. cbn [length]. lia.
    + destruct (live_exportSide RightSide h1 st1 pauses1
                  (calls ++ [Interleaved.halfCall LeftSide (Interleaved.fields h)]))
        as [-> | [(_ & ->) | (_ & _ & st2 & h2 & pauses2 & consumed2 & -> & Hs2 & Ho2 & Hd2 & Ht2 & Hc2 & _)]].
      * exists st1, pauses1, [Interleaved.halfCall LeftSide (Interleaved.fields h)], consumed1.
        repeat split; try assumption; apply Ho1.
      * destruct (IH (S i) st1 pauses1 (calls ++ [Interleaved.halfCall LeftSide (Interleaved.fields h)]))
          as (st' & pauses' & more & consumed & Hloop & Hs & Ho & Hd & Ht & Hc).
        exists st', pauses', (Interleaved.halfCall LeftSide (Interleaved.fields h) :: more),
               (consumed1 ++ consumed).
        split; [rewrite Hloop; now rewrite <- app_assoc |].
        split; [rewrite Hs1, Hs; now rewrite app_assoc |].
        split.
        { rewrite concat_app, runActions_app.
          eapply outsideExport_trans; [exact Ho |].
          now apply runActions_outside. }
        split; [congruence |]. split; [congruence |].
        rewrite Hc, Hc1. cbn [length]. lia.
      * destruct (IH (S i) st2 pauses2
                    ((calls ++ [Interleaved.halfCall LeftSide (Interleaved.fields h)])
                       ++ [Interleaved.halfCall RightSide (Interleaved.fields h1)]))
          as (st' & pauses' & more & consumed & Hloop & Hs & Ho & Hd & Ht & Hc).
        exists st', pauses',
               (Interleaved.halfCall LeftSide (Interleaved.fields h)
                  :: Interleaved.halfCall RightSide (Interleaved.fields h1) :: more),
               (consumed1 ++ consumed2 ++ consumed).
        split; [rewrite Hloop; now rewrite <- !app_assoc |].
        split; [rewrite Hs1, Hs2, Hs; now rewrite !app_assoc |].
        split.
        { rewrite !concat_app, !runActions_app.
          eapply outsideExport_trans; [exact Ho |].
          apply runActions_outside.
          eapply outsideExport_trans; [exact Ho2 |].
          now apply runActions_outside. }
        split; [congruence |]. split; [congruence |].
        rewrite Hc, Hc2, Hc1. cbn [length]. lia.
Qed.

Lemma live_loop_turn (fuel i : nat) (r : Interleaved.Run) :
  Interleaved.downloadLoop (S fuel) i r =
    if (i <? length (splitImages (fst (fst r))))%nat then
      if shouldStopDownload (fst (fst r)) then r
      else
        match splitImages (fst (fst r)) !! i with
        | None => Interleaved.downloadLoop fuel (S i) r
        | Some img =>
            match Interleaved.exportSide LeftSide
                    {| Interleaved.place := Some i; Interleaved.fields := img |} r with
            | Interleaved.Break r1 => r1
            | Interleaved.Next r1 h1 =>
                match Interleaved.exportSide RightSide h1 r1 with
                | Interleaved.Break r2 => r2
                | Interleaved.Next r2 _ => Interleaved.downloadLoop fuel (S i) r2
                end
            end
        end
    else r.
Proof. reflexivity. Qed.

(* The loop ends by its own test: past the pairs at the start and the
   pairs pushed, one more turn of fuel changes nothing. *)
Lemma live_loop_fuel (fuel : nat) :
  forall i st pauses calls,
    (length (splitImages st) + Interleaved.pushed pauses <= fuel + i)%nat ->
    Interleaved.downloadLoop (S fuel) i (st, pauses, calls)
      = Interleaved.downloadLoop fuel i (st, pauses, calls).
Proof.
  induction fuel as [| fuel IH]; intros i st pauses calls Hfuel.
  - cbn [Interleaved.downloadLoop fst].
    destruct (Nat.ltb_spec i (length (splitImages st))); [lia | reflexivity].
  - rewrite (live_loop_turn (S fuel)), (live_loop_turn fuel i (st, pauses, calls)).
    cbn [fst].
    destruct (i <? length (splitImages st))%nat; [| reflexivity].
    destruct (shouldStopDownload st); [reflexivity |].
    destruct (splitImages st !! i) as [img |]; [| apply IH; lia].
    set (h := {| Interleaved.place := Some i; Interleaved.fields := img |}).
    destruct (live_exportSide LeftSide h st pauses calls)
      as [-> | [(_ & ->) | (_ & _ & st1 & h1 & pauses1 & consumed1 & -> & _ & _ & _ & _ & _ & Hl1)]];
      [reflexivity | |].
    + destruct (live_exportSide RightSide h st pauses calls)
        as [-> | [(_ & ->) | (_ & _ & st2 & h2 & pauses2 & consumed2 & -> & _ & _ & _ & _ & _ & Hl2)]];
        [reflexivity | apply IH; lia | apply IH; lia].
    + destruct (live_exportSide RightSide h1 st1 pauses1
                  (calls ++ [Interleaved.halfCall LeftSide (Interleaved.fields h)]))
        as [-> | [(_ & ->) | (_ & _ & st2 & h2 & pauses2 & consumed2 & -> & _ & _ & _ & _ & _ & Hl2)]];
        [reflexivity | apply IH; lia | apply IH; lia].
Qed.

Lemma live_loop_more_fuel (extra : nat) :
  forall fuel i st pauses calls,
    (length (splitImages st) + Interleaved.pushed pauses <= fuel + i)%nat ->
    Interleaved.downloadLoop (fuel + extra) i (st, pauses, calls)
      = Interleaved.downloadLoop fuel i (st, pauses, calls).
Proof.
  induction extra as [| extra IH]; intros fuel i st pauses calls Hfuel.
  - now rewrite Nat.add_0_r.
  - rewrite Nat.add_succ_r, live_loop_fuel by lia. now apply IH.
Qed.

(* The first selected half is always exported: the loop reaches it
   without a pause, and the stop flag is clear until then. *)
Lemma live_loop_starts (fuel : nat) :
  forall i st pauses calls,
    shouldStopDownload st = false ->
    0 < checkedCount (drop i (splitImages st)) ->
    (length (splitImages st) <= fuel + i)%nat ->
    (S (length calls)
     <= length (snd (Interleaved.downloadLoop fuel i (st, pauses, calls))))%nat.
Proof.
  induction fuel as [| fuel IH]; intros i st pauses calls Hstop Hsel Hfuel.
  - rewrite drop_ge in Hsel by lia. rewrite checkedCount_nil in Hsel. lia.
  - destruct (splitImages st !! i) as [img |] eqn:Hat.
    2:{ apply lookup_ge_None in Hat. rewrite drop_ge in Hsel by lia.
        rewrite checkedCount_nil in Hsel. lia. }
    pose proof (lookup_lt_Some _ _ _ Hat) as Hlt.
    cbn [Interleaved.downloadLoop fst].
    destruct (Nat.ltb_spec i (length (splitImages st))) as [_ |]; [| lia].
    rewrite Hstop, Hat.
    rewrite (drop_S _ _ _ Hat), checkedCount_cons in Hsel.
    set (h := {| Interleaved.place := Some i; Interleaved.fields := img |}).
    assert (Hgrow : forall fuel0 i0 st0 pauses0 calls0,
               (length calls0
                <= length (snd (Interleaved.downloadLoop fuel0 i0 (st0, pauses0, calls0))))%nat).
    { intros fuel0 i0 st0 pauses0 calls0.
      destruct (live_loop_any fuel0 i0 st0 pauses0 calls0)
        as (st' & pauses' & more & consumed & -> & _).
      cbn [snd]. rewrite length_app. lia. }
    destruct (live_exportSide LeftSide h st pauses calls)
      as [Hb | [(Hc & ->) | (_ & _ & st1 & h1 & pauses1 & consumed1 & -> & _)]].
    + exfalso. unfold Interleaved.exportSide in Hb. rewrite Hstop in Hb.
      destruct (checkedOf LeftSide (Interleaved.fields h)); [| discriminate].
      destruct (Interleaved.await _ h pauses) as [[? ?] ?]. discriminate.
    + destruct (live_exportSide RightSide h st pauses calls)
        as [Hb | [(Hc' & ->) | (_ & _ & st2 & h2 & pauses2 & consumed2 & -> & _)]].
      * exfalso. unfold Interleaved.exportSide in Hb. rewrite Hstop in Hb.
        destruct (checkedOf RightSide (Interleaved.fields h)); [| discriminate].
        destruct (Interleaved.await _ h pauses) as [[? ?] ?]. discriminate.
      * apply IH; [exact Hstop | | lia].
        cbn in Hc, Hc'. unfold selectedHalves in Hsel.
        rewrite Hc, Hc' in Hsel. lia.
      * specialize (Hgrow fuel (S i) st2 pauses2
                      (calls ++ [Interleaved.halfCall RightSide (Interleaved.fields h)])).
        rewrite length_app in Hgrow. cbn [length] in Hgrow. lia.
    + assert (Hone : (S (length calls)
                      <= length (calls ++ [Interleaved.halfCall LeftSide (Interleaved.fields h)]))%nat).
      { rewrite length_app. cbn [length]. lia. }
      destruct (live_exportSide RightSide h1 st1 pauses1
                  (calls ++ [Interleaved.halfCall LeftSide (Interleaved.fields h)]))
        as [-> | [(_ & ->) | (_ & _ & st2 & h2 & pauses2 & consumed2 & -> & _)]].
      * exact Hone.
      * etransitivity; [exact Hone | apply Hgrow].
      * etransitivity; [exact Hone |].
        etransitivity; [| apply Hgrow]. rewrite !length_app. lia.
Qed.

Lemma leftAlone_await st h pauses :
  leftAlone pauses ->
  exists pauses',
    Interleaved.await st h pauses = (st, h, pauses') /\ leftAlone pauses'.
Proof.
  intros Hq. destruct Hq as [| pause later Hp Hl].
  - exists []. split; [reflexivity | constructor].
  - subst pause. exists later. split; [reflexivity | exact Hl].
Qed.

(* One half of the held pair when nothing happens during the pause. *)
Lemma leftAlone_exportSide side h st pauses calls :
  leftAlone pauses ->
  shouldStopDownload st = false ->
  exists st' pauses',
    Interleaved.exportSide side h (st, pauses, calls)
      = Interleaved.Next
          (st', pauses',
           calls ++ (if checkedOf side (Interleaved.fields h)
                     then [Interleaved.halfCall side (Interleaved.fields h)]
                     else [])) h /\
    leftAlone pauses' /\
    exportFrame st st' /\
    shouldStopDownload st' = false /\
    current (downloadProgress st')
      = current (downloadProgress st)
        + (if checkedOf side (Interleaved.fields h) then 1 else 0).
Proof.
  intros Hq Hstop. unfold Interleaved.exportSide.
  destruct (checkedOf side (Interleaved.fields h)).
  - rewrite Hstop.
    set (st1 := setDownloadProgress
                  {| current := current (downloadProgress st) + 1;
                     total := total (downloadProgress st) |} st).
    destruct (leftAlone_await st1 h pauses Hq) as (pauses' & -> & Hq').
    exists st1, pauses'. split; [reflexivity |].
    split; [exact Hq' |]. repeat split. exact Hstop.
  - exists st, pauses. rewrite app_nil_r. split; [reflexivity |].
    split; [exact Hq |]. split; [apply exportFrame_refl |].
    split; [exact Hstop | lia].
Qed.

(* The loop when nothing happens during the pauses: the calls for every
   selected half from index i on, in registry order. *)
Lemma live_loop_leftAlone (fuel : nat) :
  forall i st pauses calls,
    leftAlone pauses ->
    shouldStopDownload st = false ->
    (length (splitImages st) <= fuel + i)%nat ->
    exists st' pauses',
      Interleaved.downloadLoop fuel i (st, pauses, calls)
        = (st', pauses',
           calls ++ flat_map selectedCalls (drop i (splitImages st))) /\
      leftAlone pauses' /\
      exportFrame st st' /\
      shouldStopDownload st' = false /\
      current (downloadProgress st')
        = current (downloadProgress st) + checkedCount (drop i (splitImages st)).
Proof.
  induction fuel as [| fuel IH]; intros i st pauses calls Hq Hstop Hfuel.
  - exists st, pauses. rewrite drop_ge by lia. cbn [flat_map].
    rewrite app_nil_r, checkedCount_nil.
    split; [reflexivity |]. split; [exact Hq |].
    split; [apply exportFrame_refl |]. split; [exact Hstop | lia].
  - cbn [Interleaved.downloadLoop fst].
    destruct (Nat.ltb_spec i (length (splitImages st))) as [Hlt | Hge].
    2:{ exists st, pauses. rewrite drop_ge by lia. cbn [flat_map].
        rewrite app_nil_r, checkedCount_nil.
        split; [reflexivity |]. split; [exact Hq |].
        split; [apply exportFrame_refl |]. split; [exact Hstop | lia]. }
    rewrite Hstop.
    destruct (lookup_lt_is_Some_2 _ _ Hlt) as [img Hat]. rewrite Hat.
    rewrite (drop_S _ _ _ Hat), checkedCount_cons. cbn [flat_map].
    set (h := {| Interleaved.place := Some i; Interleaved.fields := img |}).
    destruct (leftAlone_exportSide LeftSide h st pauses calls Hq Hstop)
      as (st1 & pauses1 & -> & Hq1 & Hf1 & Hs1 & Hc1).
    destruct (leftAlone_exportSide RightSide h st1 pauses1
                (calls ++ (if checkedOf LeftSide (Interleaved.fields h)
                           then [Interleaved.halfCall LeftSide (Interleaved.fields h)]
                           else []))
                Hq1 Hs1)
      as (st2 & pauses2 & -> & Hq2 & Hf2 & Hs2 & Hc2).
    pose proof (exportFrame_trans _ _ _ Hf1 Hf2) as Hf.
    destruct Hf as (Himgs & Hrest).
    destruct (IH (S i) st2 pauses2
                 ((calls ++ (if checkedOf LeftSide (Interleaved.fields h)
                             then [Interleaved.halfCall LeftSide (Interleaved.fields h)]
                             else []))
                    ++ (if checkedOf RightSide (Interleaved.fields h)
                        then [Interleaved.halfCall RightSide (Interleaved.fields h)]
                        else []))
                 Hq2 Hs2 ltac:(rewrite Himgs; lia))
      as (st' & pauses' & Hloop & Hq' & Hf' & Hs' & Hc').
    exists st', pauses'. rewrite Hloop, Himgs.
    split.
    { unfold selectedCalls. cbn [checkedOf Interleaved.fields h].
      now rewrite <- !app_assoc. }
    split; [exact Hq' |].
    split; [eapply exportFrame_trans; [| exact Hf']; now split |].
    split; [exact Hs' |].
    rewrite Hc', Hc2, Hc1, Himgs. unfold selectedHalves.
    cbn [checkedOf Interleaved.fields h]. lia.
Qed.

Lemma live_downloadChecked_steps st pauses :
  checkedCount (splitImages st) <> 0 ->
  exists st2 pauses2 calls,
    Interleaved.downloadLoop
      (length (splitImages st) + Interleaved.pushed pauses) 0
      (exportStart st, pauses, []) = (st2, pauses2, calls) /\
    Interleaved.downloadChecked st pauses =
      (setShouldStopDownload false
         (setIsDownloading false (fst (Interleaved.awaitIdle st2 pauses2))),
       snd (Interleaved.awaitIdle st2 pauses2), calls).
Proof.
  intros Hne. unfold Interleaved.downloadChecked.
  destruct (Z.eqb_spec (checkedCount (splitImages st)) 0) as [| _]; [contradiction |].
  fold (exportStart st).
  change (splitImages (exportStart st)) with (splitImages st).
  destruct (Interleaved.downloadLoop _ 0 (exportStart st, pauses, []))
    as [[st2 pauses2] calls].
  exists st2, pauses2, calls. split; [reflexivity |].
  destruct (Interleaved.awaitIdle st2 pauses2). reflexivity.
Qed.

Lemma awaitIdle_facts st pauses :
  exists consumed,
    pauses = consumed ++ snd (Interleaved.awaitIdle st pauses) /\
    fst (Interleaved.awaitIdle st pauses) = runActions (concat consumed) st.
Proof.
  destruct pauses as [| pause later].
  - exists []. split; reflexivity.
  - exists [pause]. cbn [Interleaved.awaitIdle fst snd concat].
    rewrite app_nil_r. split; reflexivity.
Qed.

(* downloadChecked under any use of the page during its pauses. *)
Lemma live_downloadChecked_any st pauses :
  checkedCount (splitImages st) <> 0 ->
  let result := Interleaved.downloadChecked st pauses in
  let st' := fst (fst result) in
  isDownloading st' = false /\
  shouldStopDownload st' = false /\
  total (downloadProgress st') = checkedCount (splitImages st) /\
  current (downloadProgress st') = Z.of_nat (length (snd result)) /\
  1 <= current (downloadProgress st') /\
  (exists consumed,
     pauses = consumed ++ snd (fst result) /\
     outsideExport st' (runActions (concat consumed) st)) /\
  (forall extra : nat,
     Interleaved.downloadLoop
       (length (splitImages st) + Interleaved.pushed pauses + extra) 0
       (exportStart st, pauses, [])
     = Interleaved.downloadLoop
         (length (splitImages st) + Interleaved.pushed pauses) 0
         (exportStart st, pauses, [])).
Proof.
  intros Hne result st'. subst st' result.
  destruct (live_downloadChecked_steps st pauses Hne)
    as (st2 & pauses2 & calls & Hloop & ->).
  cbn [fst snd].
  destruct (live_loop_any (length (splitImages st) + Interleaved.pushed pauses) 0
              (exportStart st) pauses [])
    as (st2' & pauses2' & more & consumed1 & Hloop' & Hs1 & Ho1 & Hd1 & Ht1 & Hc1).
  rewrite Hloop in Hloop'. injection Hloop' as <- <- ->.
  destruct (awaitIdle_facts st2 pauses2) as (consumed2 & Hs2 & Hst3).
  destruct (runActions_download (concat consumed2) st2) as (P & D & _).
  rewrite <- Hst3 in P, D.
  pose proof (live_loop_starts (length (splitImages st) + Interleaved.pushed pauses) 0
                (exportStart st) pauses [] eq_refl) as Hstart.
  rewrite Hloop in Hstart. cbn [snd length drop] in Hstart.
  pose proof (checkedCount_nonneg (splitImages st)) as Hge.
  change (drop 0 (splitImages (exportStart st))) with (splitImages st) in Hstart.
  change (splitImages (exportStart st)) with (splitImages st) in Hstart.
  specialize (Hstart ltac:(lia) ltac:(lia)).
  split; [reflexivity |]. split; [reflexivity |].
  split; [cbn; rewrite P, Ht1; reflexivity |].
  split; [cbn; rewrite P, Hc1; cbn; reflexivity |].
  split; [cbn; rewrite P, Hc1; cbn; lia |].
  split.
  { exists (consumed1 ++ consumed2).
    split; [rewrite Hs1, Hs2 at 1; now rewrite app_assoc |].
    rewrite concat_app, runActions_app.
    eapply outsideExport_trans with (st2 := fst (Interleaved.awaitIdle st2 pauses2));
      [repeat split |].
    rewrite Hst3. apply runActions_outside.
    eapply outsideExport_trans; [exact Ho1 |].
    apply runActions_outside. repeat split. }
  intros extra. apply live_loop_more_fuel.
  change (splitImages (exportStart st)) with (splitImages st). lia.
Qed.

(* downloadChecked when nothing happens during its pauses. *)
Lemma live_downloadChecked_leftAlone st pauses :
  checkedCount (splitImages st) <> 0 ->
  leftAlone pauses ->
  let result := Interleaved.downloadChecked st pauses in
  let st' := fst (fst result) in
  snd result = flat_map selectedCalls (splitImages st) /\
  downloadProgress st' =
    {| current := checkedCount (splitImages st);
       total := checkedCount (splitImages st) |} /\
  isDownloading st' = false /\
  shouldStopDownload st' = false /\
  splitImages st' = splitImages st /\
  sameImportState st' st.
Proof.
  intros Hne Hq result st'. subst st' result.
  destruct (live_downloadChecked_steps st pauses Hne)
    as (st2 & pauses2 & calls & Hloop & ->).
  cbn [fst snd].
  destruct (live_loop_leftAlone (length (splitImages st) + Interleaved.pushed pauses) 0
              (exportStart st) pauses [] Hq eq_refl ltac:(cbn; lia))
    as (st2' & pauses2' & Hloop' & Hq2 & Hf & Hs & Hc).
  rewrite Hloop in Hloop'. injection Hloop' as <- <- ->.
  assert (Hidle : fst (Interleaved.awaitIdle st2 pauses2) = st2).
  { destruct Hq2 as [| pause later -> _]; reflexivity. }
  rewrite Hidle.
  destruct Hf as (Himgs & (I1 & I2 & I3) & Hd & Ht).
  change (drop 0 (splitImages (exportStart st))) with (splitImages st) in Hc.
  change (current (downloadProgress (exportStart st))) with 0 in Hc.
  change (total (downloadProgress (exportStart st)))
    with (checkedCount (splitImages st)) in Ht.
  cbn in Himgs, I1, I2, I3, Hd.
  split; [reflexivity |].
  split.
  { cbn [downloadProgress setShouldStopDownload setIsDownloading].
    destruct (downloadProgress st2) as [c t].
    cbn [current total] in Ht, Hc. f_equal; lia. }
  split; [reflexivity |]. split; [reflexivity |].
  split; [exact Himgs |]. repeat split; assumption.
Qed.

(* A pause that holds at most a stop press leaves the held pair where it
   is and as it is. *)
Lemma pauseOf_await st clicks (i : nat) img :
  splitImages st !! i = Some img ->
  Interleaved.await st {| Interleaved.place := Some i; Interleaved.fields := img |}
                    (map pauseOf clicks)
  = (fst (Scheduler.await stopDownload st clicks),
     {| Interleaved.place := Some i; Interleaved.fields := img |},
     map pauseOf (snd (Scheduler.await stopDownload st clicks))).
Proof.
  intros Hat. destruct clicks as [| [|] later]; try reflexivity.
  cbn. unfold Interleaved.holdThrough. cbn. rewrite Hat. reflexivity.
Qed.

Lemma pauseOf_exportSide side st clicks calls (i : nat) img :
  splitImages st !! i = Some img ->
  match Exporter.exportSide (checkedOf side img) (originalOf side img)
          (rotationOf side img) (originalName img) (sideLabel side)
          (st, clicks, omap Interleaved.fileOf calls),
        Interleaved.exportSide side
          {| Interleaved.place := Some i; Interleaved.fields := img |}
          (st, map pauseOf clicks, calls) with
  | Exporter.Break old, Interleaved.Break new => sameRun old new
  | Exporter.Next old, Interleaved.Next new h =>
      sameRun old new /\
      h = {| Interleaved.place := Some i; Interleaved.fields := img |} /\
      splitImages (fst (fst old)) = splitImages st
  | _, _ => False
  end.
Proof.
  intros Hat. unfold Exporter.exportSide, Interleaved.exportSide.
  cbn [Interleaved.fields].
  destruct (checkedOf side img); [| repeat split].
  destruct (shouldStopDownload st); [repeat split |].
  set (st1 := setDownloadProgress
                {| current := current (downloadProgress st) + 1;
                   total := total (downloadProgress st) |} st).
  rewrite (pauseOf_await st1 clicks i img Hat).
  destruct (Scheduler.await stopDownload st1 clicks) as [st2 clicks2] eqn:E.
  cbn [fst snd].
  assert (Himgs : splitImages st2 = splitImages st).
  { destruct clicks as [| [|] later]; cbn in E; injection E as <- _; reflexivity. }
  split; [| split; [reflexivity | exact Himgs]].
  unfold sameRun. cbn [fst snd]. split; [reflexivity |]. split; [reflexivity |].
  rewrite omap_app. f_equal.
  destruct side; cbn; unfold Interleaved.fileOf; cbn;
    match goal with |- context [downloadHalf ?a ?b ?c ?d] =>
      destruct (downloadHalf a b c d) end; reflexivity.
Qed.

(* The loop over the registry taken at the start and the loop that
   re-reads the registry, on a schedule of stop presses. *)
Lemma pauseOf_loop (rest : list SplitImage) :
  forall (pre : list SplitImage) st clicks calls (fuel : nat),
    splitImages st = pre ++ rest ->
    (length rest <= fuel)%nat ->
    sameRun (Exporter.downloadLoop rest (st, clicks, omap Interleaved.fileOf calls))
            (Interleaved.downloadLoop fuel (length pre) (st, map pauseOf clicks, calls)).
Proof.
  induction rest as [| img rest IH]; intros pre st clicks calls fuel Himgs Hfuel.
  - cbn [Exporter.downloadLoop].
    destruct fuel as [| fuel]; [repeat split |].
    rewrite live_loop_turn. cbn [fst]. rewrite Himgs, app_nil_r.
    destruct (Nat.ltb_spec (length pre) (length pre)); [lia | repeat split].
  - destruct fuel as [| fuel]; [cbn in Hfuel; lia |].
    rewrite live_loop_turn. cbn [fst Exporter.downloadLoop].
    assert (Hat : splitImages st !! length pre = Some img).
    { rewrite Himgs. apply list_lookup_middle. reflexivity. }
    destruct (Nat.ltb_spec (length pre) (length (splitImages st))) as [_ | Hge].
    2:{ rewrite Himgs, length_app in Hge. cbn in Hge. lia. }
    destruct (shouldStopDownload st); [repeat split |].
    rewrite Hat.
    pose proof (pauseOf_exportSide LeftSide st clicks calls (length pre) img Hat) as HL.
    cbn [checkedOf originalOf rotationOf sideLabel] in HL.
    destruct (Exporter.exportSide (leftChecked img) (leftHalfOriginal img)
                (leftRotation img) (originalName img) "left"
                (st, clicks, omap Interleaved.fileOf calls))
      as [[[st1 clicks1] log1] | old1];
      destruct (Interleaved.exportSide LeftSide _ (st, map pauseOf clicks, calls))
      as [[[st1' pauses1] calls1] h1 | new1]; try contradiction; [| exact HL].
    destruct HL as ((E1 & E2 & E3) & -> & Himgs1). cbn [fst snd] in E1, E2, E3, Himgs1.
    subst st1' pauses1 log1.
    assert (Hat1 : splitImages st1 !! length pre = Some img) by now rewrite Himgs1.
    pose proof (pauseOf_exportSide RightSide st1 clicks1 calls1 (length pre) img Hat1) as HR.
    cbn [checkedOf originalOf rotationOf sideLabel] in HR.
    remember (Interleaved.exportSide RightSide _ _) as right eqn:Hright.
    change (Interleaved.exportSide RightSide _ _) with right in HR.
    clear Hright.
    destruct (Exporter.exportSide (rightChecked img) (rightHalfOriginal img)
                (rightRotation img) (originalName img) "right"
                (st1, clicks1, omap Interleaved.fileOf calls1))
      as [[[st2 clicks2] log2] | old2];
      destruct right as [[[st2' pauses2] calls2] h2 | new2];
      try contradiction; [| exact HR].
    destruct HR as ((F1 & F2 & F3) & -> & Himgs2). cbn [fst snd] in F1, F2, F3, Himgs2.
    subst st2' pauses2 log2.
    replace (S (length pre)) with (length (pre ++ [img]))
      by (rewrite length_app; cbn; lia).
    apply IH; [| cbn in Hfuel; lia].
    rewrite Himgs2, Himgs1, Himgs, <- app_assoc. reflexivity.
Qed.

Lemma pauseOf_pushed clicks : Interleaved.pushed (map pauseOf clicks) = 0%nat.
Proof.
  unfold Interleaved.pushed.
  induction clicks as [| [|] later IH]; cbn; [reflexivity | exact IH | exact IH].
Qed.

(* On a schedule of stop presses Exporter.downloadChecked and
   Interleaved.downloadChecked end in the same state with the same
   presses left, and the downloads of the first are the files of the
   calls of the second. *)
Lemma pauseOf_downloadChecked st clicks :
  sameRun (Exporter.downloadChecked st clicks)
          (Interleaved.downloadChecked st (map pauseOf clicks)).
Proof.
  unfold Exporter.downloadChecked, Interleaved.downloadChecked.
  destruct (checkedCount (splitImages st) =? 0); [repeat split |].
  fold (exportStart st).
  change (splitImages (exportStart st)) with (splitImages st).
  pose proof (pauseOf_loop (splitImages st) [] (exportStart st) clicks []
                (length (splitImages st) + Interleaved.pushed (map pauseOf clicks))
                eq_refl ltac:(lia)) as H.
  change (omap Interleaved.fileOf []) with (@nil Download) in H.
  change (length (@nil SplitImage)) with 0%nat in H.
  remember (Interleaved.downloadLoop _ 0 _) as live eqn:Hlive.
  change (Interleaved.downloadLoop _ _ _) with live in H. clear Hlive.
  destruct (Exporter.downloadLoop (splitImages st) (exportStart st, clicks, []))
    as [[st2 clicks2] log].
  destruct live as [[st2' pauses2] calls].
  destruct H as (E1 & E2 & E3). cbn [fst snd] in E1, E2, E3. subst st2' pauses2 log.
  destruct clicks2 as [| [|] later]; repeat split.
Qed.

Lemma selectedCalls_files (imgs : list SplitImage) :
  Forall (fun img =>
            (leftChecked img = true -> is_Some (decode (leftHalfOriginal img))) /\
            (rightChecked img = true -> is_Some (decode (rightHalfOriginal img))))
         imgs ->
  Forall (fun call => is_Some (Interleaved.fileOf call))
         (flat_map selectedCalls imgs).
Proof.
  induction 1 as [| img rest [HL HR] _ IH]; [constructor |].
  cbn [flat_map]. apply Forall_app. split; [| exact IH].
  unfold selectedCalls. apply Forall_app. split.
  - destruct (leftChecked img); constructor; [| constructor].
    destruct (HL eq_refl) as [half Hhalf].
    unfold Interleaved.fileOf, downloadHalf. cbn. rewrite Hhalf.
    destruct (_ || _); eexists; reflexivity.
  - destruct (rightChecked img); constructor; [| constructor].
    destruct (HR eq_refl) as [half Hhalf].
    unfold Interleaved.fileOf, downloadHalf. cbn. rewrite Hhalf.
    destruct (_ || _); eexists; reflexivity.
Qed.

(* Past the end of the registry the loop is over. *)
Lemma live_loop_done (fuel i : nat) st pauses calls :
  (length (splitImages st) <= i)%nat ->
  Interleaved.downloadLoop fuel i (st, pauses, calls) = (st, pauses, calls).
Proof.
  intros Hge. destruct fuel as [| fuel]; [reflexivity |].
  rewrite live_loop_turn. cbn [fst].
  destruct (Nat.ltb_spec i (length (splitImages st))); [lia | reflexivity].
Qed.

(* Remove All during the pause that follows the call for the left half
   of the first pair, when nothing is pushed afterwards. *)
Lemma live_downloadChecked_cleared st img (rest : list SplitImage)
      (later : Interleaved.Schedule) :
  splitImages st = img :: rest ->
  leftChecked img = true ->
  Interleaved.pushed later = 0%nat ->
  let result :=
    Interleaved.downloadChecked st ([Interleaved.ClearAll] :: later) in
  snd result =
    Interleaved.halfCall LeftSide img
      :: (if rightChecked img then [Interleaved.halfCall RightSide img] else []) /\
  current (downloadProgress (fst (fst result)))
    = 1 + (if rightChecked img then 1 else 0) /\
  total (downloadProgress (fst (fst result))) = checkedCount (img :: rest) /\
  splitImages (fst (fst result)) = [].
Proof.
  intros Himgs HL Hpushed result.
  assert (Hne : checkedCount (splitImages st) <> 0).
  { rewrite Himgs, checkedCount_cons. unfold selectedHalves. rewrite HL.
    pose proof (checkedCount_nonneg rest). destruct (rightChecked img); lia. }
  destruct (live_downloadChecked_steps st ([Interleaved.ClearAll] :: later) Hne)
    as (st2 & pauses2 & calls & Hloop & Hrun).
  subst result. rewrite Hrun. cbn [fst snd]. clear Hrun.
  rewrite Himgs in Hloop. cbn [length Nat.add] in Hloop.
  rewrite live_loop_turn in Hloop. cbn [fst] in Hloop.
  change (splitImages (exportStart st)) with (splitImages st) in Hloop.
  rewrite Himgs in Hloop. cbn [length] in Hloop.
  change (shouldStopDownload (exportStart st)) with false in Hloop.
  change ((img :: rest) !! 0%nat) with (Some img) in Hloop.
  destruct (Nat.ltb_spec 0 (S (length rest))) as [_ |]; [| lia].
  set (st1 := clearAll
                (setDownloadProgress
                   {| current := 1; total := checkedCount (splitImages st) |}
                   (exportStart st))).
  set (h1 := {| Interleaved.place := None; Interleaved.fields := img |}).
  remember (Interleaved.exportSide LeftSide _ _) as left eqn:Hleft in Hloop.
  assert (Hleft' : left = Interleaved.Next
                            (st1, later, [Interleaved.halfCall LeftSide img]) h1).
  { rewrite Hleft. unfold Interleaved.exportSide.
    cbn [checkedOf Interleaved.fields]. rewrite HL. reflexivity. }
  rewrite Hleft' in Hloop. clear Hleft Hleft' left.
  assert (Hidle : forall st0 pauses0,
             splitImages st0 = [] -> Interleaved.pushed pauses0 = 0%nat ->
             downloadProgress (fst (Interleaved.awaitIdle st0 pauses0))
               = downloadProgress st0 /\
             splitImages (fst (Interleaved.awaitIdle st0 pauses0)) = []).
  { intros st0 pauses0 Hempty Hp0.
    destruct (awaitIdle_facts st0 pauses0) as (consumed & Hsplit & ->).
    destruct (runActions_download (concat consumed) st0) as (P & _).
    split; [exact P |].
    pose proof (runActions_length (concat consumed) st0) as Hlen.
    assert (Hc : sum_list (map Interleaved.pushedBy (concat consumed)) = 0%nat).
    { rewrite Hsplit in Hp0. unfold Interleaved.pushed in Hp0.
      rewrite concat_app, map_app, sum_list_with_app in Hp0. lia. }
    rewrite Hempty, Hc in Hlen. cbn in Hlen.
    destruct (splitImages (runActions (concat consumed) st0)); [reflexivity |].
    cbn in Hlen. lia. }
  unfold Interleaved.exportSide in Hloop.
  cbn [checkedOf Interleaved.fields h1] in Hloop.
  destruct (rightChecked img).
  - change (shouldStopDownload st1) with false in Hloop.
    set (st1' := setDownloadProgress
                   {| current := current (downloadProgress st1) + 1;
                      total := total (downloadProgress st1) |} st1) in Hloop.
    destruct (await_facts st1' h1 later)
      as (st3 & h3 & pauses3 & consumed & Haw & Hsplit & Hst3 & Hlen).
    rewrite Haw in Hloop.
    change (splitImages st1') with (@nil SplitImage) in Hlen.
    rewrite Hpushed in Hlen. cbn in Hlen.
    rewrite live_loop_done in Hloop by lia.
    injection Hloop as <- <- <-.
    destruct (runActions_download (concat consumed) st1') as (P & _).
    rewrite <- Hst3 in P.
    destruct (Hidle st3 pauses3) as (Pi & Ei).
    { destruct (splitImages st3); [reflexivity | cbn in Hlen; lia]. }
    { lia. }
    split; [reflexivity |].
    cbn [downloadProgress setShouldStopDownload setIsDownloading splitImages].
    rewrite Pi, P.
    split; [reflexivity |]. split; [| exact Ei].
    cbn. now rewrite Himgs.
  - rewrite live_loop_done in Hloop by (cbn; lia).
    injection Hloop as <- <- <-.
    destruct (Hidle st1 later eq_refl Hpushed) as (Pi & Ei).
    split; [reflexivity |].
    cbn [downloadProgress setShouldStopDownload setIsDownloading splitImages].
    rewrite Pi.
    split; [reflexivity |]. split; [| exact Ei].
    cbn. now rewrite Himgs.
Qed.

(* Once the stop flag is set the loop makes no further call. *)
Lemma live_loop_stopped (fuel i : nat) st pauses calls :
  shouldStopDownload st = true ->
  Interleaved.downloadLoop fuel i (st, pauses, calls) = (st, pauses, calls).
Proof.
  intros Hstop. destruct fuel as [| fuel]; [reflexivity |].
  rewrite live_loop_turn. cbn [fst]. rewrite Hstop.
  destruct (i <? length (splitImages st))%nat; reflexivity.
Qed.

Lemma runActions_stop pause :
  forall st,
    In Interleaved.StopDownload pause ->
    shouldStopDownload (runActions pause st) = true.
Proof.
  induction pause as [| a later IH]; intros st Hin; [destruct Hin |].
  change (runActions (a :: later) st) with (runActions later (Interleaved.act a st)).
  destruct Hin as [-> | Hin]; [| now apply IH].
  destruct (runActions_download later (Interleaved.act Interleaved.StopDownload st))
    as (_ & _ & Hkeep).
  apply Hkeep. reflexivity.
Qed.

(* Stop pressed during the pause that follows the first call: that call
   is the only one. *)
Lemma live_loop_first_press (fuel : nat) :
  forall i st pause later calls,
    In Interleaved.StopDownload pause ->
    shouldStopDownload st = false ->
    0 < checkedCount (drop i (splitImages st)) ->
    (length (splitImages st) <= fuel + i)%nat ->
    exists st' img side,
      Interleaved.downloadLoop fuel i (st, pause :: later, calls)
        = (st', later, calls ++ [Interleaved.halfCall side img]) /\
      img ∈ splitImages st /\
      checkedOf side img = true /\
      downloadProgress st' =
        {| current := current (downloadProgress st) + 1;
           total := total (downloadProgress st) |}.
Proof.
  induction fuel as [| fuel IH]; intros i st pause later calls Hin Hstop Hsel Hfuel.
  - rewrite drop_ge in Hsel by lia. rewrite checkedCount_nil in Hsel. lia.
  - destruct (splitImages st !! i) as [img |] eqn:Hat.
    2:{ apply lookup_ge_None in Hat. rewrite drop_ge in Hsel by lia.
        rewrite checkedCount_nil in Hsel. lia. }
    pose proof (lookup_lt_Some _ _ _ Hat) as Hlt.
    rewrite live_loop_turn. cbn [fst].
    destruct (Nat.ltb_spec i (length (splitImages st))) as [_ |]; [| lia].
    rewrite Hstop, Hat.
    rewrite (drop_S _ _ _ Hat), checkedCount_cons in Hsel.
    set (h := {| Interleaved.place := Some i; Interleaved.fields := img |}).
    set (st1 := setDownloadProgress
                  {| current := current (downloadProgress st) + 1;
                     total := total (downloadProgress st) |} st).
    assert (Hcall : forall side h0,
               Interleaved.fields h0 = img ->
               checkedOf side img = true ->
               exists h',
                 Interleaved.exportSide side h0 (st, pause :: later, calls)
                 = Interleaved.Next
                     (runActions pause st1, later,
                      calls ++ [Interleaved.halfCall side img]) h').
    { intros side h0 Hh0 Hc. unfold Interleaved.exportSide.
      rewrite Hh0, Hc, Hstop. fold st1. cbn [Interleaved.await].
      pose proof (through_state pause st1 h0) as Hthrough.
      destruct (Interleaved.through pause st1 h0) as [st2 h2].
      cbn [fst] in Hthrough. subst st2. exists h2. reflexivity. }
    pose proof (runActions_stop pause st1 Hin) as Hstopped.
    destruct (runActions_download pause st1) as (P & _).
    destruct (leftChecked img) eqn:HL.
    + destruct (Hcall LeftSide h eq_refl HL) as (h' & ->).
      exists (runActions pause st1), img, LeftSide.
      split; [| split; [eapply list_elem_of_lookup_2; exact Hat | split; [exact HL | exact P]]].
      unfold Interleaved.exportSide. rewrite Hstopped.
      destruct (checkedOf RightSide (Interleaved.fields h')); [reflexivity |].
      apply live_loop_stopped. exact Hstopped.
    + assert (HLeft : Interleaved.exportSide LeftSide h (st, pause :: later, calls)
                      = Interleaved.Next (st, pause :: later, calls) h).
      { unfold Interleaved.exportSide. cbn [checkedOf Interleaved.fields h].
        now rewrite HL. }
      rewrite HLeft.
      destruct (rightChecked img) eqn:HR.
      * destruct (Hcall RightSide h eq_refl HR) as (h' & ->).
        exists (runActions pause st1), img, RightSide.
        split; [| split; [eapply list_elem_of_lookup_2; exact Hat | split; [exact HR | exact P]]].
        apply live_loop_stopped. exact Hstopped.
      * assert (HRight : Interleaved.exportSide RightSide h (st, pause :: later, calls)
                         = Interleaved.Next (st, pause :: later, calls) h).
        { unfold Interleaved.exportSide. cbn [checkedOf Interleaved.fields h].
          now rewrite HR. }
        rewrite HRight.
        unfold selectedHalves in Hsel. rewrite HL, HR in Hsel.
        apply IH; [exact Hin | exact Hstop | lia | lia].
Qed.

Lemma live_downloadChecked_first_press st pause (later : Interleaved.Schedule) :
  checkedCount (splitImages st) <> 0 ->
  In Interleaved.StopDownload pause ->
  let result := Interleaved.downloadChecked st (pause :: later) in
  (exists img side,
     img ∈ splitImages st /\
     checkedOf side img = true /\
     snd result = [Interleaved.halfCall side img]) /\
  downloadProgress (fst (fst result)) =
    {| current := 1; total := checkedCount (splitImages st) |} /\
  isDownloading (fst (fst result)) = false /\
  shouldStopDownload (fst (fst result)) = false /\
  snd (fst result) = tail later.
Proof.
  intros Hne Hin result.
  destruct (live_downloadChecked_steps st (pause :: later) Hne)
    as (st2 & pauses2 & calls & Hloop & Hrun).
  subst result. rewrite Hrun. cbn [fst snd]. clear Hrun.
  pose proof (checkedCount_nonneg (splitImages st)) as Hge.
  destruct (live_loop_first_press
              (length (splitImages st) + Interleaved.pushed (pause :: later)) 0
              (exportStart st) pause later [] Hin eq_refl)
    as (st' & img & side & Hloop' & Hel & Hc & Hprog).
  { change (drop 0 (splitImages (exportStart st))) with (splitImages st). lia. }
  { change (splitImages (exportStart st)) with (splitImages st). lia. }
  pose proof (eq_trans (eq_sym Hloop) Hloop') as Hsame.
  injection Hsame as -> -> ->.
  destruct (awaitIdle_facts st' later) as (consumed & _ & Hst3).
  destruct (runActions_download (concat consumed) st') as (P & _).
  rewrite <- Hst3 in P.
  split; [exists img, side; repeat split; assumption |].
  split; [cbn; rewrite P, Hprog; reflexivity |].
  split; [reflexivity |]. split; [reflexivity |].
  destruct later; reflexivity.
Qed.

End InterleavedFacts.

(** X6: an export during which the page is left alone.  When at least one
    half is selected and nothing happens during the pauses of
    downloadChecked (no stop press, no edit of the registry, no import),
    downloadChecked calls downloadHalf once for every selected half, pair
    by pair in registry order and left before right, with that half's
    original data, stored angle, file name and side; progress ends at
    current = total = the count of selected halves, both download flags
    end false, and the registry and the import fields are as before.  If
    every selected half decodes, every call yields a file.  (The files
    themselves are triggered by the callbacks of the calls, in the order
    in which those run.) *)
Theorem export_without_stop (st : AppState) (pauses : Interleaved.Schedule) :
  checkedCount (splitImages st) <> 0 ->
  leftAlone pauses ->
  let result := Interleaved.downloadChecked st pauses in
  let st' := fst (fst result) in
  snd result = flat_map selectedCalls (splitImages st) /\
  downloadProgress st' =
    {| current := checkedCount (splitImages st);
       total := checkedCount (splitImages st) |} /\
  isDownloading st' = false /\
  shouldStopDownload st' = false /\
  splitImages st' = splitImages st /\
  sameImportState st' st /\
  (Forall (fun img =>
             (leftChecked img = true -> is_Some (decode (leftHalfOriginal img))) /\
             (rightChecked img = true -> is_Some (decode (rightHalfOriginal img))))
          (splitImages st) ->
   Forall (fun call => is_Some (Interleaved.fileOf call)) (snd result)).
Proof.
  intros Hne Hq result st'.
  destruct (live_downloadChecked_leftAlone st pauses Hne Hq)
    as (Hcalls & Hprog & Hd & Hs & Himgs & Himp).
  fold result in Hcalls, Hprog, Hd, Hs, Himgs, Himp.
  repeat (split; [assumption |]).
  intros Hall. rewrite Hcalls. now apply selectedCalls_files.
Qed.

(** X7: an export under any use of the page.  When at least one half is
    selected, then whatever happens during the pauses of downloadChecked
    (stop presses, removals, Remove All, rotations, checkbox and Select
    All changes, pairs pushed by a running import), downloadChecked ends
    with both download flags false and with total = the count of halves
    selected at the start; progress.current is the number of downloadHalf
    calls made, and at least 1, since the first selected half is reached
    before the first pause; downloadChecked itself writes neither the
    registry nor the import fields: they end as the actions of the pauses
    that went by left them; and the loop ends by its own test within as
    many turns as there are pairs at the start and pairs pushed: more
    turns of fuel give the same run. *)
Theorem export_under_any_schedule (st : AppState) (pauses : Interleaved.Schedule) :
  checkedCount (splitImages st) <> 0 ->
  let result := Interleaved.downloadChecked st pauses in
  let st' := fst (fst result) in
  isDownloading st' = false /\
  shouldStopDownload st' = false /\
  total (downloadProgress st') = checkedCount (splitImages st) /\
  current (downloadProgress st') = Z.of_nat (length (snd result)) /\
  1 <= current (downloadProgress st') /\
  (exists consumed,
     pauses = consumed ++ snd (fst result) /\
     outsideExport st' (runActions (concat consumed) st)) /\
  (forall extra : nat,
     Interleaved.downloadLoop
       (length (splitImages st) + Interleaved.pushed pauses + extra) 0
       (exportStart st, pauses, [])
     = Interleaved.downloadLoop
         (length (splitImages st) + Interleaved.pushed pauses) 0
         (exportStart st, pauses, [])).
Proof. exact (live_downloadChecked_any st pauses). Qed.

(** X21: Remove All during an export.  When the left half of the first
    pair is selected and Remove All is pressed during the pause that
    follows the call for it, and nothing is pushed afterwards, the export
    still goes on with the pair it holds: the right half of that pair is
    exported as well when it is selected, although the pair is no longer
    in the registry; no other pair is exported, whatever was selected, so
    that progress ends at 1 or 2 out of the count taken at the start;
    the registry ends empty. *)
Theorem export_cleared_in_first_pause (st : AppState) (img : SplitImage)
        (rest : list SplitImage) (later : Interleaved.Schedule) :
  splitImages st = img :: rest ->
  leftChecked img = true ->
  Interleaved.pushed later = 0%nat ->
  let result :=
    Interleaved.downloadChecked st ([Interleaved.ClearAll] :: later) in
  snd result =
    Interleaved.halfCall LeftSide img
      :: (if rightChecked img then [Interleaved.halfCall RightSide img] else []) /\
  current (downloadProgress (fst (fst result)))
    = 1 + (if rightChecked img then 1 else 0) /\
  total (downloadProgress (fst (fst result))) = checkedCount (img :: rest) /\
  splitImages (fst (fst result)) = [].
Proof. exact (live_downloadChecked_cleared st img rest later). Qed.


(** X22: stopping an export at once, whatever else happens.  When at
    least one half is selected and stop is pressed during the pause that
    follows the first call, then whatever else runs during that pause and
    the later ones, downloadChecked makes exactly one downloadHalf call,
    for a half that was selected at the start; progress ends at 1 of the
    count of selected halves, both download flags end false, and one more
    pause (the last one of the handler) has gone by. *)
Theorem export_stopped_in_first_pause (st : AppState)
        (pause : list Interleaved.Action) (later : Interleaved.Schedule) :
  checkedCount (splitImages st) <> 0 ->
  In Interleaved.StopDownload pause ->
  let result := Interleaved.downloadChecked st (pause :: later) in
  (exists img side,
     img ∈ splitImages st /\
     checkedOf side img = true /\
     snd result = [Interleaved.halfCall side img]) /\
  downloadProgress (fst (fst result)) =
    {| current := 1; total := checkedCount (splitImages st) |} /\
  isDownloading (fst (fst result)) = false /\
  shouldStopDownload (fst (fst result)) = false /\
  snd (fst result) = tail later.
Proof. exact (live_downloadChecked_first_press st pause later). Qed.

(* ===================================================================== *)
(* The import loop under any schedule                                    *)
(* ===================================================================== *)

Section ImportRuns.

Implicit Types (st : AppState) (pending : list File) (clicks : Schedule).

Lemma importFrame_refl st : importFrame st st.
Proof. repeat split. Qed.

Lemma importFrame_trans st1 st2 st3 :
  importFrame st1 st2 -> importFrame st2 st3 -> importFrame st1 st3.
Proof.
  intros ((A1 & B1 & C1) & D1 & E1) ((A2 & B2 & C2) & D2 & E2).
  repeat split; congruence.
Qed.

Lemma await_stopImport_facts st clicks :
  let st' := fst (await stopImport st clicks) in
  let clicks' := snd (await stopImport st clicks) in
  importFrame st st' /\
  splitImages st' = splitImages st /\
  importProgress st' = importProgress st /\
  (shouldStopImport st = true -> shouldStopImport st' = true) /\
  (undisturbed clicks -> shouldStopImport st' = shouldStopImport st /\
                         undisturbed clicks') /\
  (forall later, clicks = true :: later -> shouldStopImport st' = true).
Proof.
  destruct clicks as [| [|] later]; cbn; repeat split; auto;
    try discriminate;
    try (match goal with H : undisturbed _ |- _ => inversion H; subst end;
         auto; discriminate).
Qed.

Lemma processFile_fresh (file : File) (s : SplitImage) :
  processFile file = Resolved s -> fresh s /\ originalName s = name file.
Proof.
  unfold processFile, splitImageInHalf.
  destruct (readAsDataURL file) as [data |]; [| discriminate].
  destruct (decode data) as [img |]; [| discriminate].
  destruct (isHorizontal _ _); intros H; injection H as <-; repeat split.
Qed.

Lemma promiseAll_fresh (batch : list File) (results : list SplitImage) :
  promiseAll (map processFile batch) = Resolved results ->
  Forall fresh results /\ length results = length batch /\
  map originalName results = map name batch.
Proof.
  revert results. induction batch as [| f rest IH]; intros results H; cbn in H.
  - injection H as <-. repeat split. constructor.
  - destruct (processFile f) as [s | e] eqn:Hf; [| discriminate].
    destruct (promiseAll (map processFile rest)) as [l | e]; [| discriminate].
    injection H as <-. destruct (IH l eq_refl) as (Hfr & Hlen & Hnames).
    destruct (processFile_fresh f s Hf) as [Hs Hn].
    split; [constructor; assumption |]. cbn. split; congruence.
Qed.

Lemma promiseAll_app {A : Type} (ps qs : list (Promise A)) (a b : list A) :
  promiseAll ps = Resolved a -> promiseAll qs = Resolved b ->
  promiseAll (ps ++ qs) = Resolved (a ++ b).
Proof.
  revert a. induction ps as [| p rest IH]; intros a Ha Hb; cbn in *.
  - injection Ha as <-. exact Hb.
  - destruct p as [x | e]; [| discriminate].
    destruct (promiseAll rest) as [l | e]; [| discriminate].
    injection Ha as <-. now rewrite (IH l eq_refl Hb).
Qed.

(* One turn of the for loop, with the rest of the loop on the files after
   the group. *)
Lemma importLoop_turn (f : File) (tl : list File) (i len : Z) st clicks :
  shouldStopImport st = false ->
  importLoop i len (f :: tl) st clicks =
    match promiseAll (map processFile (take 2 (f :: tl))) with
    | Rejected e =>
        (fst (await stopImport st clicks), snd (await stopImport st clicks),
         Rejected e)
    | Resolved results =>
        let st1 := fst (await stopImport st clicks) in
        let clicks1 := snd (await stopImport st clicks) in
        let st3 :=
          setImportProgress
            {| current := Z.min (i + batchSize) len;
               total := total (importProgress st1) |}
            (setSplitImages (splitImages st1 ++ results) st1) in
        let paused :=
          if i + batchSize <? len then await stopImport st3 clicks1
          else (st3, clicks1) in
        importLoop (i + batchSize) len (drop 2 (f :: tl)) (fst paused) (snd paused)
    end.
Proof.
  intros Hstop. cbn [importLoop]. rewrite Hstop.
  destruct (await stopImport st clicks) as [st1 clicks1]. cbn [fst snd].
  destruct (promiseAll (map processFile (take 2 (f :: tl)))) as [results | e];
    [| reflexivity].
  cbv zeta.
  destruct (if i + batchSize <? len then _ else _) as [st4 clicks4]. cbn [fst snd].
  destruct tl as [| g later]; reflexivity.
Qed.

Lemma importLoop_stopped pending (i len : Z) st clicks :
  shouldStopImport st = true ->
  importLoop i len pending st clicks = (st, clicks, Resolved tt).
Proof. intros H. destruct pending; cbn; [reflexivity | now rewrite H]. Qed.

End ImportRuns.

Section ImportLoop.

Implicit Types (st : AppState) (pending : list File) (clicks : Schedule).

Lemma imported_nothing (i : Z) pending st clicks :
  pending = [] \/ shouldStopImport st = true ->
  imported i pending st clicks st clicks (Resolved tt) 0 [].
Proof.
  intros Hwhy. unfold imported. rewrite app_nil_r.
  split; [lia |]. split; [right; exists 0%nat; lia |].
  split; [reflexivity |]. split; [reflexivity |].
  split; [apply importFrame_refl |]. split; [reflexivity |].
  split; [discriminate |]. split; [| auto].
  intros Hu Hs. split; [| auto].
  intros _ _. destruct Hwhy as [-> | Hs']; [reflexivity | congruence].
Qed.

Lemma importLoop_any pending :
  forall (i len : Z) st clicks,
    len = i + Z.of_nat (length pending) ->
    exists st' clicks' outcome m added,
      importLoop i len pending st clicks = (st', clicks', outcome) /\
      imported i pending st clicks st' clicks' outcome m added.
Proof.
  induction pending as [| f | f g later IH] using list_pair_ind;
    intros i len st clicks Hlen.
  - exists st, clicks, (Resolved tt), 0%nat, []. split; [reflexivity |].
    apply imported_nothing. now left.
  - destruct (shouldStopImport st) eqn:Hstop.
    { exists st, clicks, (Resolved tt), 0%nat, [].
      split; [now apply importLoop_stopped | apply imported_nothing; now right]. }
    rewrite importLoop_turn by exact Hstop.
    destruct (await_stopImport_facts st clicks)
      as (Hfr & Himgs & Hprog & Hmono & Hund & _).
    destruct (await stopImport st clicks) as [st1 clicks1]. cbn [fst snd] in *.
    change (take 2 [f]) with [f]. change (drop 2 [f]) with (@nil File).
    destruct (promiseAll (map processFile [f])) as [results | e] eqn:Hb.
    + cbv zeta. cbn [length] in Hlen. unfold batchSize.
      replace (i + 2 <? len) with false by (symmetry; apply Z.ltb_ge; lia).
      cbn [fst snd importLoop].
      destruct (promiseAll_fresh [f] results Hb) as (_ & Hrl & _). cbn in Hrl.
      eexists _, clicks1, (Resolved tt), 1%nat, results.
      split; [reflexivity |]. unfold imported. cbn [length].
      split; [lia |]. split; [now left |]. split; [exact Hb |].
      split; [cbn; now rewrite Himgs |].
      split; [destruct Hfr as ((A & B & C) & D & E); repeat split; cbn; congruence |].
      split; [cbn; rewrite Hprog; f_equal; lia |].
      split; [discriminate |]. split; [| congruence].
      intros Hu _. destruct (Hund Hu) as [Hs1 Hu1].
      split; [reflexivity |]. split; [cbn; congruence | exact Hu1].
    + exists st1, clicks1, (Rejected e), 0%nat, [].
      split; [reflexivity |]. unfold imported. rewrite app_nil_r.
      split; [cbn; lia |]. split; [right; exists 0%nat; lia |].
      split; [reflexivity |]. split; [exact Himgs |]. split; [exact Hfr |].
      split; [exact Hprog |].
      split; [intros e' He; injection He as <-; exact Hb |].
      split; [| congruence].
      intros Hu _. destruct (Hund Hu) as [Hs1 Hu1].
      split; [discriminate |]. split; [congruence | exact Hu1].
  - destruct (shouldStopImport st) eqn:Hstop.
    { exists st, clicks, (Resolved tt), 0%nat, [].
      split; [now apply importLoop_stopped | apply imported_nothing; now right]. }
    rewrite importLoop_turn by exact Hstop.
    destruct (await_stopImport_facts st clicks)
      as (Hfr & Himgs & Hprog & Hmono & Hund & _).
    destruct (await stopImport st clicks) as [st1 clicks1]. cbn [fst snd] in *.
    change (take 2 (f :: g :: later)) with [f; g].
    change (drop 2 (f :: g :: later)) with later.
    destruct (promiseAll (map processFile [f; g])) as [results | e] eqn:Hb.
    + cbv zeta. cbn [length] in Hlen. unfold batchSize.
      replace (Z.min (i + 2) len) with (i + 2) by lia.
      set (st3 := setImportProgress
                    {| current := i + 2; total := total (importProgress st1) |}
                    (setSplitImages (splitImages st1 ++ results) st1)).
      set (paused := if i + 2 <? len then await stopImport st3 clicks1
                     else (st3, clicks1)).
      assert (Hp : importFrame st3 (fst paused) /\
                   splitImages (fst paused) = splitImages st3 /\
                   importProgress (fst paused) = importProgress st3 /\
                   (undisturbed clicks1 ->
                      shouldStopImport (fst paused) = shouldStopImport st3 /\
                      undisturbed (snd paused))).
      { subst paused. destruct (i + 2 <? len).
        - destruct (await_stopImport_facts st3 clicks1) as (A & B & C & _ & D & _).
          split; [exact A |]. split; [exact B |]. split; [exact C | exact D].
        - cbn [fst snd]. split; [apply importFrame_refl |].
          split; [reflexivity |]. split; [reflexivity |].
          intros Hu. split; [reflexivity | exact Hu]. }
      destruct Hp as (Hfr4 & Himgs4 & Hprog4 & Hund4).
      destruct (IH (i + 2) len (fst paused) (snd paused) ltac:(lia))
        as (st' & clicks' & outcome & m' & added' & Hloop &
            Hm & Hshape & Hall & Hadd & Hfr' & Hprog' & Hrej & Hund' & _).
      destruct (promiseAll_fresh [f; g] results Hb) as (_ & Hrl & _).
      cbn in Hrl.
      exists st', clicks', outcome, (2 + m')%nat, (results ++ added').
      split; [exact Hloop |]. unfold imported. cbn [length].
      split; [lia |].
      split; [destruct Hshape as [-> | [k Hk]];
              [now left | right; exists (S k); lia] |].
      split.
      { change (take (2 + m') (f :: g :: later)) with ([f; g] ++ take m' later).
        rewrite map_app. now apply promiseAll_app. }
      split; [rewrite Hadd, Himgs4; cbn; rewrite Himgs; now rewrite <- app_assoc |].
      split.
      { apply (importFrame_trans _ st1); [exact Hfr |].
        apply (importFrame_trans _ st3);
          [destruct Hfr as ((A & B & C) & D & E); repeat split |].
        apply (importFrame_trans _ (fst paused)); assumption. }
      split.
      { rewrite Hprog'. change (2 + m' =? 0)%nat with false. cbv iota.
        rewrite Hprog4. cbn. rewrite Hprog.
        destruct (m' =? 0)%nat eqn:E.
        - apply Nat.eqb_eq in E. subst m'. f_equal; lia.
        - f_equal; lia. }
      split; [exact Hrej |]. split; [| congruence].
      intros Hu _. destruct (Hund Hu) as [Hs1 Hu1].
      destruct (Hund4 Hu1) as [Hs4 Hu4].
      destruct (Hund' Hu4 ltac:(rewrite Hs4; cbn; congruence)) as (Hres & Hs' & Hu').
      split; [intros u Ho; rewrite (Hres u Ho); reflexivity |].
      split; assumption.
    + exists st1, clicks1, (Rejected e), 0%nat, [].
      split; [reflexivity |]. unfold imported. rewrite app_nil_r.
      split; [cbn; lia |]. split; [right; exists 0%nat; lia |].
      split; [reflexivity |]. split; [exact Himgs |]. split; [exact Hfr |].
      split; [exact Hprog |].
      split; [intros e' He; injection He as <-; exact Hb |].
      split; [| congruence].
      intros Hu _. destruct (Hund Hu) as [Hs1 Hu1].
      split; [discriminate |]. split; [congruence | exact Hu1].
Qed.

End ImportLoop.

Section ImportHandler.

Implicit Types (st : AppState) (picked : list File) (clicks : Schedule).

(* handleFileSelect on a selection with an image file, in steps. *)
Lemma handleFileSelect_steps picked st clicks :
  imageFiles picked <> [] ->
  handleFileSelect (Some picked) st clicks =
    let len := Z.of_nat (length (imageFiles picked)) in
    match importLoop 0 len (imageFiles picked) (importStart len st) clicks with
    | (st1, clicks1, Rejected e) => (st1, clicks1, Rejected e)
    | (st1, clicks1, Resolved _) =>
        (setShouldStopImport false
           (setIsImporting false (fst (await stopImport st1 clicks1))),
         snd (await stopImport st1 clicks1), Resolved tt)
    end.
Proof.
  intros Hne. unfold handleFileSelect. destruct picked as [| x rest].
  { exfalso. apply Hne. reflexivity. }
  fold (imageFiles (x :: rest)).
  destruct (imageFiles (x :: rest)) as [| y more] eqn:E; [congruence |].
  cbv zeta. fold (importStart (Z.of_nat (length (y :: more))) st).
  destruct (importLoop _ _ _ _ _) as [[st1 clicks1] [u | e]]; [| reflexivity].
  destruct (await stopImport st1 clicks1); reflexivity.
Qed.

Lemma promiseAll_take {A : Type} (ps : list (Promise A)) (rs : list A) (m : nat) :
  promiseAll ps = Resolved rs ->
  promiseAll (take m ps) = Resolved (take m rs).
Proof.
  revert rs m. induction ps as [| p rest IH]; intros rs m H; cbn in H.
  - injection H as <-. now destruct m.
  - destruct p as [a | e]; [| discriminate].
    destruct (promiseAll rest) as [l | e] eqn:Hl; [| discriminate].
    injection H as <-. destruct m as [| m]; [reflexivity |].
    cbn. now rewrite (IH l m eq_refl).
Qed.

Lemma promiseAll_drop {A : Type} (ps : list (Promise A)) (rs : list A) (m : nat) :
  promiseAll ps = Resolved rs ->
  promiseAll (drop m ps) = Resolved (drop m rs).
Proof.
  revert rs m. induction ps as [| p rest IH]; intros rs m H; cbn in H.
  - injection H as <-. now destruct m.
  - destruct p as [a | e]; [| discriminate].
    destruct (promiseAll rest) as [l | e] eqn:Hl; [| discriminate].
    injection H as <-. destruct m as [| m]; [cbn; now rewrite Hl |].
    cbn. now apply IH.
Qed.

Lemma checkedCount_fresh (added : list SplitImage) :
  Forall fresh added -> checkedCount added = 0.
Proof.
  intros H. apply checkedCount_zero.
  eapply Forall_impl; [exact H |]. intros img (_ & _ & HL & HR). now split.
Qed.

Lemma quarterTurns_fresh (added : list SplitImage) :
  Forall fresh added -> quarterTurns added.
Proof.
  intros H. eapply Forall_impl; [exact H |].
  intros img (HL & HR & _). rewrite HL, HR. split; exists 0; reflexivity.
Qed.

End ImportHandler.

(* The three early returns of handleFileSelect. *)
Lemma handleFileSelect_nothing (files : option (list File)) (st : AppState)
        (clicks : Schedule) :
  match files with
  | None => True
  | Some picked => imageFiles picked = []
  end ->
  handleFileSelect files st clicks = (st, clicks, Resolved tt).
Proof.
  destruct files as [picked |]; [| reflexivity].
  intros Hnone. unfold handleFileSelect. destruct picked as [| x rest]; [reflexivity |].
  fold (imageFiles (x :: rest)). now rewrite Hnone.
Qed.

(** X9: a selection with nothing to import.  When the file list is null,
    empty, or holds no file whose type starts with "image/",
    handleFileSelect returns at once: the state (isImporting and the
    progress included) and the schedule are untouched and the handler
    resolves. *)
Theorem import_of_nothing (files : option (list File)) (st : AppState)
        (clicks : Schedule) :
  match files with
  | None => True
  | Some picked => imageFiles picked = []
  end ->
  handleFileSelect files st clicks = (st, clicks, Resolved tt).
Proof. exact (handleFileSelect_nothing files st clicks). Qed.

(* handleFileSelect on a selection with an image file, any schedule. *)
Lemma handleFileSelect_appends (picked : list File) (st : AppState)
        (clicks : Schedule) :
  imageFiles picked <> [] ->
  let result := handleFileSelect (Some picked) st clicks in
  let st' := fst (fst result) in
  exists (m : nat) (added : list SplitImage),
    (m <= length (imageFiles picked))%nat /\
    (m = length (imageFiles picked) \/ Nat.Even m) /\
    promiseAll (map processFile (take m (imageFiles picked))) = Resolved added /\
    splitImages st' = splitImages st ++ added /\
    (forall i image, pairAt (splitImages st) i = Some image ->
                     pairAt (splitImages st') i = Some image) /\
    Forall fresh added /\
    map originalName added = map name (take m (imageFiles picked)) /\
    checkedCount (splitImages st') = checkedCount (splitImages st) /\
    sameDownloadState st' st /\
    importProgress st' =
      {| current := Z.of_nat m;
         total := Z.of_nat (length (imageFiles picked)) |} /\
    (forall u, snd result = Resolved u ->
               isImporting st' = false /\ shouldStopImport st' = false) /\
    (forall e, snd result = Rejected e ->
               promiseAll (map processFile (take 2 (drop m (imageFiles picked))))
                 = Rejected e).
Proof.
  intros Hne result st'. subst st' result.
  rewrite (handleFileSelect_steps picked st clicks Hne). cbv zeta.
  set (len := Z.of_nat (length (imageFiles picked))).
  destruct (importLoop_any (imageFiles picked) 0 len (importStart len st) clicks
              ltac:(subst len; lia))
    as (st1 & clicks1 & outcome & m & added & Hloop &
        Hm & Hshape & Hall & Hadd & Hfr & Hprog & Hrej & _ & _).
  rewrite Hloop.
  destruct (promiseAll_fresh _ _ Hall) as (Hfresh & _ & Hnames).
  destruct Hfr as ((D1 & D2 & D3) & Himp & Htot).
  cbn in Hadd, D1, D2, D3, Himp, Htot, Hprog.
  assert (Hprog1 : importProgress st1 = {| current := Z.of_nat m; total := len |}).
  { rewrite Hprog. destruct (m =? 0)%nat eqn:E; [| f_equal; lia].
    apply Nat.eqb_eq in E. now subst m. }
  destruct (await_stopImport_facts st1 clicks1)
    as (((E1 & E2 & E3) & _ & _) & Himgs2 & Hprog2 & _).
  cbv zeta in *.
  exists m, added.
  split; [exact Hm |]. split; [exact Hshape |]. split; [exact Hall |].
  assert (Hkeep : forall imgs' : list SplitImage,
             imgs' = splitImages st ++ added ->
             (forall i image, pairAt (splitImages st) i = Some image ->
                              pairAt imgs' i = Some image) /\
             checkedCount imgs' = checkedCount (splitImages st)).
  { intros imgs' ->. split.
    - intros i image H. apply pairAt_Some in H as [Hi Hat].
      apply pairAt_Some. split; [exact Hi |]. now apply lookup_app_l_Some.
    - rewrite checkedCount_app, (checkedCount_fresh _ Hfresh). lia. }
  destruct outcome as [u | e]; cbn [fst snd].
  - assert (Himgs' : splitImages
              (setShouldStopImport false
                 (setIsImporting false (fst (await stopImport st1 clicks1))))
              = splitImages st ++ added) by (cbn; congruence).
    destruct (Hkeep _ Himgs') as [Hold Hcc].
    split; [exact Himgs' |]. split; [exact Hold |].
    split; [exact Hfresh |]. split; [exact Hnames |]. split; [exact Hcc |].
    split; [repeat split; cbn; congruence |].
    split; [cbn; congruence |].
    split; [intros _ _; split; reflexivity | discriminate].
  - destruct (Hkeep _ Hadd) as [Hold Hcc].
    split; [exact Hadd |]. split; [exact Hold |].
    split; [exact Hfresh |]. split; [exact Hnames |]. split; [exact Hcc |].
    split; [repeat split; assumption |].
    split; [exact Hprog1 |].
    split; [discriminate |].
    intros e' He. injection He as <-. now apply Hrej.
Qed.

(** X10: what an import can do to the state, for any files and any stop
    presses.  handleFileSelect only appends: the registry afterwards is
    the old registry followed by the pairs of the first m image files of
    the selection, in selection order, where m is a whole number of groups
    of two or all of them; every old pair keeps its index and its fields;
    each added pair is named after its file, is unrotated and unselected,
    so the count of selected halves is unchanged; the download state is
    untouched; progress ends at current = m, total = the number of image
    files.  If the handler resolves, isImporting and shouldStopImport end
    false; if it rejects, the group after the first m files holds a file
    that failed. *)
Theorem import_only_appends (picked : list File) (st : AppState)
        (clicks : Schedule) :
  imageFiles picked <> [] ->
  let result := handleFileSelect (Some picked) st clicks in
  let st' := fst (fst result) in
  exists (m : nat) (added : list SplitImage),
    (m <= length (imageFiles picked))%nat /\
    (m = length (imageFiles picked) \/ Nat.Even m) /\
    promiseAll (map processFile (take m (imageFiles picked))) = Resolved added /\
    splitImages st' = splitImages st ++ added /\
    (forall i image, pairAt (splitImages st) i = Some image ->
                     pairAt (splitImages st') i = Some image) /\
    Forall fresh added /\
    map originalName added = map name (take m (imageFiles picked)) /\
    checkedCount (splitImages st') = checkedCount (splitImages st) /\
    sameDownloadState st' st /\
    importProgress st' =
      {| current := Z.of_nat m;
         total := Z.of_nat (length (imageFiles picked)) |} /\
    (forall u, snd result = Resolved u ->
               isImporting st' = false /\ shouldStopImport st' = false) /\
    (forall e, snd result = Rejected e ->
               promiseAll (map processFile (take 2 (drop m (imageFiles picked))))
                 = Rejected e).
Proof. exact (handleFileSelect_appends picked st clicks). Qed.

(* handleFileSelect when every image file decodes. *)
Lemma handleFileSelect_good (picked : list File) (st : AppState)
        (clicks : Schedule) (results : list SplitImage) :
  imageFiles picked <> [] ->
  promiseAll (map processFile (imageFiles picked)) = Resolved results ->
  let result := handleFileSelect (Some picked) st clicks in
  let st' := fst (fst result) in
  exists m : nat,
    snd result = Resolved tt /\
    (m <= length (imageFiles picked))%nat /\
    (m = length (imageFiles picked) \/ Nat.Even m) /\
    splitImages st' = splitImages st ++ take m results /\
    importProgress st' =
      {| current := Z.of_nat m;
         total := Z.of_nat (length (imageFiles picked)) |} /\
    isImporting st' = false /\
    shouldStopImport st' = false /\
    (undisturbed clicks ->
       m = length (imageFiles picked) /\
       splitImages st' = splitImages st ++ results).
Proof.
  intros Hne Hgood result st'. subst st' result.
  rewrite (handleFileSelect_steps picked st clicks Hne). cbv zeta.
  set (len := Z.of_nat (length (imageFiles picked))).
  destruct (importLoop_any (imageFiles picked) 0 len (importStart len st) clicks
              ltac:(subst len; lia))
    as (st1 & clicks1 & outcome & m & added & Hloop &
        Hm & Hshape & Hall & Hadd & Hfr & Hprog & Hrej & Hund & _).
  rewrite Hloop.
  destruct outcome as [u | e].
  2: { exfalso. specialize (Hrej e eq_refl).
       rewrite <- firstn_map, <- skipn_map in Hrej.
       rewrite (promiseAll_take _ _ 2 (promiseAll_drop _ _ m Hgood)) in Hrej.
       discriminate. }
  assert (Hadded : added = take m results).
  { rewrite <- firstn_map, (promiseAll_take _ _ m Hgood) in Hall. congruence. }
  subst added.
  destruct (promiseAll_fresh _ _ Hgood) as (_ & Hrl & _).
  destruct Hfr as (_ & Himp & Htot).
  cbn in Hadd, Himp, Htot, Hprog.
  destruct (await_stopImport_facts st1 clicks1) as (_ & Himgs2 & Hprog2 & _).
  cbv zeta in *. cbn [fst snd].
  exists m. split; [reflexivity |]. split; [exact Hm |]. split; [exact Hshape |].
  split; [cbn; congruence |].
  split.
  { cbn. rewrite Hprog2, Hprog. destruct (m =? 0)%nat eqn:E; [| f_equal; lia].
    apply Nat.eqb_eq in E. now subst m. }
  split; [reflexivity |]. split; [reflexivity |].
  intros Hu. destruct (Hund Hu eq_refl) as (Hres & _ & _).
  specialize (Hres u eq_refl). split; [exact Hres |].
  cbn. rewrite Himgs2, Hadd, Hres, take_ge by lia. reflexivity.
Qed.

(** X11: an import in which every image file decodes.  Whatever the stop
    presses, handleFileSelect resolves, isImporting and shouldStopImport
    end false, and the registry gains the pairs of the first m image
    files in selection order, m being a whole number of groups of two or
    all files, with progress at current = m of total = the number of
    image files.  When stop is never pressed, all files are imported:
    m is the number of image files and current = total. *)
Theorem import_of_good_files (picked : list File) (st : AppState)
        (clicks : Schedule) (results : list SplitImage) :
  imageFiles picked <> [] ->
  promiseAll (map processFile (imageFiles picked)) = Resolved results ->
  let result := handleFileSelect (Some picked) st clicks in
  let st' := fst (fst result) in
  exists m : nat,
    snd result = Resolved tt /\
    (m <= length (imageFiles picked))%nat /\
    (m = length (imageFiles picked) \/ Nat.Even m) /\
    splitImages st' = splitImages st ++ take m results /\
    importProgress st' =
      {| current := Z.of_nat m;
         total := Z.of_nat (length (imageFiles picked)) |} /\
    isImporting st' = false /\
    shouldStopImport st' = false /\
    (undisturbed clicks ->
       m = length (imageFiles picked) /\
       splitImages st' = splitImages st ++ results).
Proof. exact (handleFileSelect_good picked st clicks results). Qed.

(** X12: stopping an import at once.  When stop is pressed while the first
    group of two files is being read and that group decodes, the group is
    still committed and nothing after it is read: the registry gains
    exactly the pairs of the first group, progress ends at the size of
    that group, the handler resolves and both import flags end false. *)
Theorem import_stopped_in_first_group (picked : list File) (st : AppState)
        (clicks later : Schedule) (firstGroup : list SplitImage) :
  imageFiles picked <> [] ->
  clicks = true :: later ->
  promiseAll (map processFile (take 2 (imageFiles picked))) = Resolved firstGroup ->
  let result := handleFileSelect (Some picked) st clicks in
  let st' := fst (fst result) in
  snd result = Resolved tt /\
  splitImages st' = splitImages st ++ firstGroup /\
  importProgress st' =
    {| current := Z.of_nat (length firstGroup);
       total := Z.of_nat (length (imageFiles picked)) |} /\
  isImporting st' = false /\
  shouldStopImport st' = false.
Proof.
  intros Hne Hclicks Hfirst result st'. subst st' result.
  rewrite (handleFileSelect_steps picked st clicks Hne). cbv zeta.
  destruct (imageFiles picked) as [| f tl] eqn:Hfiles; [congruence |].
  set (len := Z.of_nat (length (f :: tl))).
  rewrite importLoop_turn by reflexivity. rewrite Hfirst. cbv zeta.
  destruct (await_stopImport_facts (importStart len st) clicks)
    as (_ & Himgs1 & Hprog1 & _ & _ & Hpress).
  specialize (Hpress later Hclicks). cbv zeta in *.
  set (st1 := fst (await stopImport (importStart len st) clicks)) in *.
  set (clicks1 := snd (await stopImport (importStart len st) clicks)) in *.
  set (st3 := setImportProgress _ _).
  assert (Hs3 : shouldStopImport st3 = true) by exact Hpress.
  set (paused := if 0 + batchSize <? len then await stopImport st3 clicks1
                 else (st3, clicks1)).
  assert (Hp : shouldStopImport (fst paused) = true /\
               splitImages (fst paused) = splitImages st3 /\
               importProgress (fst paused) = importProgress st3).
  { subst paused. destruct (0 + batchSize <? len); [| repeat split; exact Hs3].
    destruct (await_stopImport_facts st3 clicks1) as (_ & A & B & C & _).
    cbv zeta in *. repeat split; auto. }
  destruct Hp as (Hs4 & Himgs4 & Hprog4).
  rewrite importLoop_stopped by exact Hs4.
  destruct (await_stopImport_facts (fst paused) (snd paused))
    as (_ & Himgs5 & Hprog5 & _).
  cbv zeta in *. cbn [fst snd].
  destruct (promiseAll_fresh _ _ Hfirst) as (_ & Hlen1 & _).
  split; [reflexivity |].
  split; [cbn; rewrite Himgs5, Himgs4; cbn; now rewrite Himgs1 |].
  split.
  { cbn. rewrite Hprog5, Hprog4. cbn. rewrite Hprog1. cbn.
    f_equal. rewrite Hlen1. subst len. unfold batchSize.
    destruct tl; cbn [firstn length]; rewrite ?take_0; cbn [length]; lia. }
  split; reflexivity.
Qed.

(* ===================================================================== *)
(* Quarter turns                                                         *)
(* ===================================================================== *)

Section QuarterTurns.

Implicit Types (st : AppState) (imgs : list SplitImage) (img : SplitImage).

Lemma quarter_turn_normal (r : Z) :
  (90 | r) ->
  normalizedRotation r = 0 \/ normalizedRotation r = 90 \/
  normalizedRotation r = 180 \/ normalizedRotation r = 270.
Proof.
  intros [k ->]. rewrite normalizedRotation_mod.
  pose proof (Z.mod_pos_bound (k * 90) 360 ltac:(lia)) as Hb.
  pose proof (Z.div_mod (k * 90) 360 ltac:(lia)) as Hdm.
  lia.
Qed.

Lemma quarter_turn_step (r : Z) (d : DeltaRotation) :
  (90 | r) -> (90 | r + deltaValue d).
Proof.
  intros [k ->]. destruct d; cbn.
  - exists k. lia.
  - exists (k + 1). lia.
  - exists (k - 1). lia.
  - exists (k + 2). lia.
Qed.

(* The test `normalized === 90 || normalized === 270` before and after a
   rotate command. *)
Lemma quarter_turn_swaps (r : Z) (d : DeltaRotation) :
  (90 | r) ->
  ((normalizedRotation (r + deltaValue d) =? 90)
   || (normalizedRotation (r + deltaValue d) =? 270)) =
  match d with
  | Delta90 | DeltaMinus90 =>
      negb ((normalizedRotation r =? 90) || (normalizedRotation r =? 270))
  | Delta0 | Delta180 =>
      (normalizedRotation r =? 90) || (normalizedRotation r =? 270)
  end.
Proof.
  intros [k ->]. rewrite !normalizedRotation_mod.
  pose proof (Z.mod_pos_bound (k * 90) 360 ltac:(lia)) as Hb.
  pose proof (Z.div_mod (k * 90) 360 ltac:(lia)) as Hdm.
  pose proof (Z.mod_pos_bound (k * 90 + deltaValue d) 360 ltac:(lia)) as Hb'.
  pose proof (Z.div_mod (k * 90 + deltaValue d) 360 ltac:(lia)) as Hdm'.
  destruct d; cbn [deltaValue] in *;
    destruct ((k * 90) mod 360 =? 90) eqn:E1,
             ((k * 90) mod 360 =? 270) eqn:E2;
    cbn [orb negb];
    repeat match goal with
           | |- context [?a =? ?b] => destruct (Z.eqb_spec a b)
           end; cbn [orb]; try reflexivity; exfalso;
    repeat match goal with
           | H : (_ =? _) = true |- _ => apply Z.eqb_eq in H
           | H : (_ =? _) = false |- _ => apply Z.eqb_neq in H
           end; lia.
Qed.

Lemma quarterTurns_alter (f : SplitImage -> SplitImage) imgs (n : nat) :
  (forall img, (90 | leftRotation img) /\ (90 | rightRotation img) ->
               (90 | leftRotation (f img)) /\ (90 | rightRotation (f img))) ->
  quarterTurns imgs -> quarterTurns (alter f n imgs).
Proof.
  intros Hf H. unfold quarterTurns. apply Forall_alter; [exact H |].
  intros img _ Hi. now apply Hf.
Qed.

Lemma quarterTurns_delete imgs (n : nat) :
  quarterTurns imgs -> quarterTurns (delete n imgs).
Proof. apply Forall_delete. Qed.

End QuarterTurns.

(** X13: every stored angle is a whole number of quarter turns, and stays
    one.  The property holds for an empty registry and is preserved by
    every operation on the state: rotateToDirection, toggleCheck,
    removeImagePair, clearAll, the Select All switch, handleFileSelect
    (any files, any stop presses) and downloadChecked.  Under it the
    normalised angle of every half is 0, 90, 180 or 270. *)
Theorem quarter_turns_kept (st : AppState) :
  quarterTurns (splitImages st) ->
  (forall i side d, quarterTurns (splitImages (rotateToDirection i side d st))) /\
  (forall i side, quarterTurns (splitImages (toggleCheck i side st))) /\
  (forall i, quarterTurns (splitImages (removeImagePair i st))) /\
  quarterTurns (splitImages (clearAll st)) /\
  (forall value, quarterTurns (splitImages (setAllChecked value st))) /\
  (forall files clicks,
     quarterTurns (splitImages (fst (fst (handleFileSelect files st clicks))))) /\
  (forall clicks,
     quarterTurns (splitImages (fst (fst (downloadChecked st clicks))))) /\
  (forall i side image,
     pairAt (splitImages st) i = Some image ->
     normalizedRotation (rotationOf side image) = 0 \/
     normalizedRotation (rotationOf side image) = 90 \/
     normalizedRotation (rotationOf side image) = 180 \/
     normalizedRotation (rotationOf side image) = 270).
Proof.
  intros H.
  split; [| split; [| split; [| split; [| split; [| split; [| split]]]]]].
  - intros i side d. rewrite rotateToDirection_alter.
    destruct (i <? 0); [exact H |]. rewrite splitImages_set.
    apply quarterTurns_alter; [| exact H].
    intros img [HL HR]. destruct side; cbn; split; auto;
      now apply quarter_turn_step.
  - intros i side. rewrite toggleCheck_alter.
    destruct (i <? 0); [exact H |]. rewrite splitImages_set.
    apply quarterTurns_alter; [| exact H].
    intros img Hi. destruct side; exact Hi.
  - intros i. unfold removeImagePair. rewrite splitImages_set.
    now apply quarterTurns_delete.
  - constructor.
  - intros value. unfold setAllChecked. rewrite splitImages_set.
    induction H as [| img rest Hi _ IH]; cbn [map]; constructor; auto.
  - intros files clicks.
    destruct files as [picked |]; [| exact H].
    destruct (imageFiles picked) as [| f tl] eqn:E.
    + now rewrite (handleFileSelect_nothing (Some picked) st clicks E).
    + destruct (handleFileSelect_appends picked st clicks ltac:(congruence))
        as (m & added & _ & _ & _ & Himgs & _ & Hfresh & _).
      rewrite Himgs. apply Forall_app. split; [exact H |].
      now apply quarterTurns_fresh.
  - intros clicks.
    destruct (Z.eq_dec (checkedCount (splitImages st)) 0) as [H0 | Hne].
    + unfold downloadChecked. now rewrite H0.
    + destruct (downloadChecked_any st clicks Hne)
        as (_ & _ & _ & _ & _ & Himgs & _).
      now rewrite Himgs.
  - intros i side image Hat. apply pairAt_Some in Hat as [_ Hat].
    pose proof (Forall_lookup_1 _ _ _ _ H Hat) as [HL HR].
    destruct side; now apply quarter_turn_normal.
Qed.

(** X14: a rotate command and the export canvas.  For a half whose stored
    angle is a whole number of quarter turns, a +90 or -90 command
    exchanges the width and height of the canvas it will be exported on,
    and a 0 or +180 command leaves that canvas size as it was. *)
Theorem rotate_then_export (imageData : DataURL) (rotation : Z)
        (d : DeltaRotation) (fileName label : string) (img : HTMLImage) :
  decode imageData = Some img ->
  (90 | rotation) ->
  exists before after,
    downloadHalf imageData rotation fileName label = Some before /\
    downloadHalf imageData (rotation + deltaValue d) fileName label = Some after /\
    (canvasWidth after, canvasHeight after) =
      match d with
      | Delta90 | DeltaMinus90 => (canvasHeight before, canvasWidth before)
      | Delta0 | Delta180 => (canvasWidth before, canvasHeight before)
      end /\
    rotateDegrees after = rotateDegrees before + deltaValue d /\
    download after = download before.
Proof.
  intros Hdec Hq.
  destruct (downloadHalf_canvas imageData rotation fileName label img Hdec)
    as (before & Hb & Hdimb & Hrb & Hnb).
  destruct (downloadHalf_canvas imageData (rotation + deltaValue d)
              fileName label img Hdec)
    as (after & Ha & Hdima & Hra & Hna).
  exists before, after. split; [exact Hb |]. split; [exact Ha |].
  split; [| split; congruence].
  rewrite Hdima, (quarter_turn_swaps rotation d Hq).
  destruct ((normalizedRotation rotation =? 90) || (normalizedRotation rotation =? 270));
    injection Hdimb as Hw Hh; rewrite Hw, Hh; destruct d; reflexivity.
Qed.

(** X15: the exported file depends on the stored angle only through its
    value modulo 360, apart from the angle handed to ctx.rotate: two
    stored angles that differ by a multiple of 360 give the same canvas
    size and the same file name, and the drawing is rotated by the stored
    angle itself. *)
Theorem export_modulo_full_turns (imageData : DataURL) (r1 r2 : Z)
        (fileName label : string) (img : HTMLImage) :
  decode imageData = Some img ->
  (360 | r1 - r2) ->
  exists d1 d2,
    downloadHalf imageData r1 fileName label = Some d1 /\
    downloadHalf imageData r2 fileName label = Some d2 /\
    canvasWidth d1 = canvasWidth d2 /\
    canvasHeight d1 = canvasHeight d2 /\
    download d1 = download d2 /\
    rotateDegrees d1 = r1 /\ rotateDegrees d2 = r2.
Proof.
  intros Hdec [k Hk].
  destruct (downloadHalf_canvas imageData r1 fileName label img Hdec)
    as (d1 & H1 & Hdim1 & Hr1 & Hn1).
  destruct (downloadHalf_canvas imageData r2 fileName label img Hdec)
    as (d2 & H2 & Hdim2 & Hr2 & Hn2).
  assert (Hsame : normalizedRotation r1 = normalizedRotation r2).
  { rewrite !normalizedRotation_mod.
    replace r1 with (r2 + k * 360) by lia. apply Z.mod_add. lia. }
  rewrite Hsame in Hdim1. rewrite <- Hdim2 in Hdim1. injection Hdim1 as Hw Hh.
  exists d1, d2. repeat split; congruence.
Qed.

(* ===================================================================== *)
(* The thumbnail height, the crops, and split followed by export         *)
(* ===================================================================== *)

Lemma maxImageHeight_linear (zoomLevel : Z) :
  maxImageHeight zoomLevel = 200 + 8 * (zoomLevel - 25).
Proof.
  unfold maxImageHeight, mathRound.
  assert (Heq : (200 + (inject_Z zoomLevel - 25) * (600 / 75) + (1 # 2)
                 == (2 * (200 + 8 * (zoomLevel - 25)) + 1) # 2)%Q).
  { unfold Qeq, Qplus, Qminus, Qmult, Qdiv, Qinv, Qopp, inject_Z. cbn. lia. }
  rewrite (Qfloor_comp _ _ Heq). unfold Qfloor.
  pose proof (Z.div_mod (2 * (200 + 8 * (zoomLevel - 25)) + 1) 2 ltac:(lia)).
  pose proof (Z.mod_pos_bound (2 * (200 + 8 * (zoomLevel - 25)) + 1) 2 ltac:(lia)).
  change (Z.pos 2) with 2. lia.
Qed.

(** X16: the thumbnail height follows the zoom slider linearly: for every
    whole slider value z it is 200 + 8 * (z - 25) pixels, so it is 200 at
    25, 800 at 100, stays between 200 and 800 on the slider's range, and
    grows by 40 with each slider step of 5. *)
Theorem thumbnail_height_scale (zoomLevel : Z) :
  maxImageHeight zoomLevel = 200 + 8 * (zoomLevel - 25) /\
  maxImageHeight 25 = 200 /\
  maxImageHeight 100 = 800 /\
  (25 <= zoomLevel <= 100 -> 200 <= maxImageHeight zoomLevel <= 800) /\
  maxImageHeight (zoomLevel + 5) = maxImageHeight zoomLevel + 40.
Proof.
  rewrite !maxImageHeight_linear. repeat split; lia.
Qed.

Section Crops.

(* The canvas and the crop behind an encoded half. *)
Lemma splitImageInHalf_crops imageData fileName img :
  decode imageData = Some img ->
  exists s first second c1 c2,
    splitImageInHalf imageData fileName = Resolved s /\
    leftHalfOriginal s = CanvasData ImagePng first /\
    rightHalfOriginal s = CanvasData ImagePng second /\
    leftHalf s = CanvasData jpeg92 first /\
    rightHalf s = CanvasData jpeg92 second /\
    drawn first = Some c1 /\ drawn second = Some c2 /\
    originalName s = fileName /\
    (if isHorizontal (img_width img) (img_height img)
     then
       let half := (inject_Z (img_width img) / 2)%Q in
       c1 = {| sx := 0; sy := 0; sw := half; sh := inject_Z (img_height img);
               dx := 0; dy := 0; dw := half; dh := inject_Z (img_height img) |} /\
       c2 = {| sx := half; sy := 0; sw := half; sh := inject_Z (img_height img);
               dx := 0; dy := 0; dw := half; dh := inject_Z (img_height img) |} /\
       width first = toUnsignedLong half /\ width second = toUnsignedLong half /\
       height first = img_height img /\ height second = img_height img
     else
       let half := (inject_Z (img_height img) / 2)%Q in
       c1 = {| sx := 0; sy := 0; sw := inject_Z (img_width img); sh := half;
               dx := 0; dy := 0; dw := inject_Z (img_width img); dh := half |} /\
       c2 = {| sx := 0; sy := half; sw := inject_Z (img_width img); sh := half;
               dx := 0; dy := 0; dw := inject_Z (img_width img); dh := half |} /\
       width first = img_width img /\ width second = img_width img /\
       height first = toUnsignedLong half /\ height second = toUnsignedLong half).
Proof.
  intros Hdec. unfold splitImageInHalf. rewrite Hdec.
  destruct (isHorizontal (img_width img) (img_height img));
    do 5 eexists; repeat split.
Qed.

Lemma two_halves_make_one (n : Z) :
  (inject_Z n / 2 + inject_Z n / 2 == inject_Z n)%Q.
Proof.
  rewrite half_as_fraction. unfold Qeq, Qplus, inject_Z. cbn. lia.
Qed.

Lemma half_between (n : Z) :
  0 <= n ->
  (inject_Z (n / 2) <= inject_Z n / 2)%Q /\
  (inject_Z n / 2 < inject_Z (n / 2) + 1)%Q /\
  ((inject_Z (n / 2) == inject_Z n / 2)%Q <-> Z.odd n = false).
Proof.
  intros Hn. rewrite half_as_fraction.
  pose proof (dropped_remainder n) as Hd.
  unfold Qle, Qlt, Qeq, Qplus, inject_Z. cbn.
  destruct (Z.odd n); repeat split; intros; try lia; try discriminate.
Qed.

End Crops.

(** X17: the geometry of the two crops.  For a decoded image of positive
    size, both drawImage calls copy without scaling (the destination
    rectangle starts at the canvas origin and has the size of the source
    rectangle); the first crop starts at the image origin, the second
    starts where the first ends, along the longer side (along the height
    for a square), and it ends at the far edge, so the two crops tile the
    whole image; each canvas is as large as its crop across the cut and
    at most its crop along it, short of it by less than one pixel, and
    exactly as large when the cut dimension is even. *)
Theorem crops_tile_the_image (imageData : DataURL) (fileName : string)
        (img : HTMLImage) :
  decode imageData = Some img ->
  0 < img_width img ->
  0 < img_height img ->
  exists s first second c1 c2,
    splitImageInHalf imageData fileName = Resolved s /\
    leftHalfOriginal s = CanvasData ImagePng first /\
    rightHalfOriginal s = CanvasData ImagePng second /\
    leftHalf s = CanvasData jpeg92 first /\
    rightHalf s = CanvasData jpeg92 second /\
    drawn first = Some c1 /\ drawn second = Some c2 /\
    (dx c1 = 0 /\ dy c1 = 0 /\ dw c1 = sw c1 /\ dh c1 = sh c1 /\
     dx c2 = 0 /\ dy c2 = 0 /\ dw c2 = sw c2 /\ dh c2 = sh c2)%Q /\
    (sx c1 = 0 /\ sy c1 = 0)%Q /\
    (img_width img > img_height img ->
       (sx c2 == sx c1 + sw c1 /\ sy c2 == 0 /\
        sx c2 + sw c2 == inject_Z (img_width img) /\
        sh c1 == inject_Z (img_height img) /\
        sh c2 == inject_Z (img_height img))%Q /\
       height first = img_height img /\ width second = width first /\
       height second = height first /\
       (inject_Z (width first) <= sw c1 /\ sw c1 < inject_Z (width first) + 1)%Q /\
       ((inject_Z (width first) == sw c1)%Q <-> Z.odd (img_width img) = false)) /\
    (img_width img <= img_height img ->
       (sy c2 == sy c1 + sh c1 /\ sx c2 == 0 /\
        sy c2 + sh c2 == inject_Z (img_height img) /\
        sw c1 == inject_Z (img_width img) /\
        sw c2 == inject_Z (img_width img))%Q /\
       width first = img_width img /\ height second = height first /\
       width second = width first /\
       (inject_Z (height first) <= sh c1 /\ sh c1 < inject_Z (height first) + 1)%Q /\
       ((inject_Z (height first) == sh c1)%Q <-> Z.odd (img_height img) = false)).
Proof.
  intros Hdec Hw Hh.
  destruct (splitImageInHalf_crops imageData fileName img Hdec)
    as (s & first & second & c1 & c2 & Hs & Hlo & Hro & Hl & Hr & Hd1 & Hd2 & _ & Hshape).
  exists s, first, second, c1, c2.
  do 7 (split; [assumption |]).
  destruct (isHorizontal (img_width img) (img_height img)) eqn:Hor; cbv zeta in Hshape;
    destruct Hshape as (-> & -> & Hw1 & Hw2 & Hh1 & Hh2); cbn [sx sy sw sh dx dy dw dh].
  - apply isHorizontal_spec in Hor.
    split; [repeat split |]. split; [split; reflexivity |].
    split; [intros _ | intros Hle; lia].
    rewrite toUnsignedLong_half in Hw1, Hw2 by lia.
    destruct (half_between (img_width img) ltac:(lia)) as (Hlo' & Hhi' & Heven).
    rewrite Hw1.
    split; [split; [rewrite Qplus_0_l; reflexivity |];
            split; [reflexivity |]; split; [apply two_halves_make_one |];
            split; reflexivity |].
    split; [exact Hh1 |]. split; [congruence |]. split; [congruence |].
    split; [split; assumption | exact Heven].
  - assert (Hle : img_width img <= img_height img).
    { destruct (Z_gt_le_dec (img_width img) (img_height img)) as [Hgt | Hle];
        [apply isHorizontal_spec in Hgt; congruence | exact Hle]. }
    split; [repeat split |]. split; [split; reflexivity |].
    split; [intros Hgt; lia | intros _].
    rewrite toUnsignedLong_half in Hh1, Hh2 by lia.
    destruct (half_between (img_height img) ltac:(lia)) as (Hlo' & Hhi' & Heven).
    rewrite Hh1.
    split; [split; [rewrite Qplus_0_l; reflexivity |];
            split; [reflexivity |]; split; [apply two_halves_make_one |];
            split; reflexivity |].
    split; [exact Hw1 |]. split; [congruence |]. split; [congruence |].
    split; [split; assumption | exact Heven].
Qed.

(* The halves of a split, handed to downloadHalf. *)
Lemma splitImageInHalf_exportable (imageData : DataURL) (fileName : string)
      (img : HTMLImage) (side : Side) (rotation : Z) (label : string) :
  decode imageData = Some img ->
  0 < img_width img ->
  0 < img_height img ->
  exists s,
    splitImageInHalf imageData fileName = Resolved s /\
    (img_width img = 1 /\ img_height img = 1 ->
       downloadHalf (originalOf side s) rotation (originalName s) label = None) /\
    (forall half,
       decode (originalOf side s) = Some half ->
       (img_width half, img_height half) =
         (if img_width img >? img_height img
          then (img_width img / 2, img_height img)
          else (img_width img, img_height img / 2)) /\
       exists d,
         downloadHalf (originalOf side s) 0 (originalName s) label = Some d /\
         (canvasWidth d, canvasHeight d) = (img_width half, img_height half) /\
         download d = replaceExtension fileName +:+ "_" +:+ label +:+ ".jpg").
Proof.
  intros Hdec Hw Hh.
  destruct (splitImageInHalf_crops imageData fileName img Hdec)
    as (s & first & second & c1 & c2 & Hs & Hlo & Hro & _ & _ & _ & _ & Hname & Hshape).
  exists s. split; [exact Hs |].
  assert (Hsize : exists c,
             originalOf side s = CanvasData ImagePng c /\
             (width c, height c) =
               (if img_width img >? img_height img
                then (img_width img / 2, img_height img)
                else (img_width img, img_height img / 2))).
  { unfold isHorizontal in Hshape.
    destruct (img_width img >? img_height img); cbv zeta in Hshape;
      destruct Hshape as (_ & _ & Hw1 & Hw2 & Hh1 & Hh2);
      rewrite ?toUnsignedLong_half in * by lia;
      destruct side; [exists first | exists second | exists first | exists second];
      (split; [assumption | congruence]). }
  destruct Hsize as (c & Hc & Hdim).
  split.
  - intros [H1w H1h]. unfold downloadHalf. rewrite Hc. cbn [decode].
    rewrite H1w, H1h in Hdim. cbn in Hdim. injection Hdim as Hcw Hch.
    now rewrite Hcw, Hch.
  - intros half Hhalf.
    assert (Hhc : half = {| img_width := width c; img_height := height c |}).
    { rewrite Hc in Hhalf. cbn [decode] in Hhalf.
      destruct ((0 <? width c) && (0 <? height c)); [| discriminate].
      now injection Hhalf as <-. }
    split; [rewrite Hhc; exact Hdim |].
    destruct (downloadHalf_canvas (originalOf side s) 0 (originalName s) label _ Hhalf)
      as (d & Hd & Hcanvas & _ & Hdl).
    exists d. split; [exact Hd |]. split; [| now rewrite Hdl, Hname].
    rewrite Hcanvas. reflexivity.
Qed.

(** X18: split followed by export.  For a decoded image of positive size,
    whenever the data of a half that splitImageInHalf produced decodes
    again, it decodes to an image of floor(width/2) x height for a wide
    source and of width x floor(height/2) otherwise, and at a stored angle
    of 0 downloadHalf yields a file on a canvas of that size, named after
    the source file.  A 1x1 image is split into two halves without
    pixels, which decode to nothing: at any angle downloadHalf triggers no
    download for them. *)
Theorem split_then_export (imageData : DataURL) (fileName : string)
        (img : HTMLImage) (side : Side) (rotation : Z) (label : string) :
  decode imageData = Some img ->
  0 < img_width img ->
  0 < img_height img ->
  exists s,
    splitImageInHalf imageData fileName = Resolved s /\
    (img_width img = 1 /\ img_height img = 1 ->
       downloadHalf (originalOf side s) rotation (originalName s) label = None) /\
    (forall half,
       decode (originalOf side s) = Some half ->
       (img_width half, img_height half) =
         (if img_width img >? img_height img
          then (img_width img / 2, img_height img)
          else (img_width img, img_height img / 2)) /\
       exists d,
         downloadHalf (originalOf side s) 0 (originalName s) label = Some d /\
         (canvasWidth d, canvasHeight d) = (img_width half, img_height half) /\
         download d = replaceExtension fileName +:+ "_" +:+ label +:+ ".jpg").
Proof. exact (splitImageInHalf_exportable imageData fileName img side rotation label). Qed.

(* ===================================================================== *)
(* The fullscreen overlay                                                *)
(* ===================================================================== *)

(** X19: opening and closing the fullscreen overlay.  A click on a half
    that is not the open one opens it with zoom 1 and no pan, whatever was
    shown before; the overlay then shows that half's preview image turned
    by that half's stored angle.  An open overlay is closed, again with
    zoom 1 and no pan, by a click on the same half, by a click on the
    overlay, or by the Escape key; any other key, and any key while the
    overlay is closed, changes nothing. *)
Theorem overlay_opens_and_closes (v : Viewer.View) (side : Side)
        (imagePair : SplitImage) (key : string) :
  (Viewer.fullscreenSide v <> Some side ->
     Viewer.toggleFullscreen side v = openView side) /\
  Viewer.fullscreenImageSrc imagePair (openView side) = previewOf side imagePair /\
  Viewer.fullscreenRotation imagePair (openView side) = rotationOf side imagePair /\
  (Viewer.fullscreenSide v = Some side ->
     Viewer.toggleFullscreen side v = closedView /\
     Viewer.viewStep v Viewer.ClickOverlay = closedView /\
     Viewer.handleEscape "Escape" v = closedView) /\
  (key <> "Escape" -> Viewer.handleEscape key v = v) /\
  (Viewer.fullscreenSide v = None ->
     Viewer.handleEscape key v = v /\
     Viewer.viewStep v Viewer.ClickOverlay = v).
Proof.
  split; [| split; [| split; [| split; [| split]]]].
  - intros Hne. unfold Viewer.toggleFullscreen.
    destruct (Viewer.fullscreenSide v) as [[|] |]; destruct side;
      try reflexivity; congruence.
  - destruct side; reflexivity.
  - destruct side; reflexivity.
  - intros Hopen. unfold Viewer.viewStep, Viewer.toggleFullscreen, Viewer.handleEscape.
    rewrite Hopen. destruct side; repeat split.
  - intros Hkey. unfold Viewer.handleEscape.
    destruct (Viewer.fullscreenSide v); [| reflexivity].
    destruct (String.eqb_spec key "Escape"); [congruence | reflexivity].
  - intros Hclosed. unfold Viewer.viewStep, Viewer.handleEscape.
    rewrite Hclosed. split; reflexivity.
Qed.

(* ===================================================================== *)
(* Import, Select All, export                                            *)
(* ===================================================================== *)

Section EndToEnd.

Lemma exportable_pair (file : File) :
  exportable file ->
  exists s,
    processFile file = Resolved s /\
    map (fun call => download <$> Interleaved.fileOf call)
        (selectedCalls (bothSet true s))
      = map Some (exportNames file).
Proof.
  intros (s & Hproc & [halfL HL] & [halfR HR]).
  exists s. split; [exact Hproc |].
  destruct (processFile_fresh file s Hproc) as (_ & Hname).
  destruct (downloadHalf_canvas (leftHalfOriginal s) (leftRotation s)
              (originalName s) "left" halfL HL) as (dL & HdL & _ & _ & HnL).
  destruct (downloadHalf_canvas (rightHalfOriginal s) (rightRotation s)
              (originalName s) "right" halfR HR) as (dR & HdR & _ & _ & HnR).
  unfold selectedCalls, bothSet, Interleaved.fileOf, exportNames.
  cbn [leftChecked rightChecked leftHalfOriginal rightHalfOriginal leftRotation
       rightRotation originalName setRightChecked setLeftChecked
       Interleaved.halfCall Interleaved.imageData Interleaved.rotation
       Interleaved.fileName Interleaved.label app map].
  rewrite HdL, HdR. cbn [fmap option_fmap option_map].
  rewrite HnL, HnR, Hname. reflexivity.
Qed.

Lemma exportable_all (files : list File) :
  Forall exportable files ->
  exists results,
    promiseAll (map processFile files) = Resolved results /\
    length results = length files /\
    map (fun call => download <$> Interleaved.fileOf call)
        (flat_map selectedCalls (map (bothSet true) results))
      = map Some (flat_map exportNames files).
Proof.
  induction 1 as [| file rest Hfile _ (results & Hall & Hlen & Hnames)].
  - exists []. repeat split.
  - destruct (exportable_pair file Hfile) as (s & Hs & Hpair).
    exists (s :: results). cbn [map promiseAll flat_map length].
    rewrite Hs, Hall, Hlen. split; [reflexivity |]. split; [reflexivity |].
    now rewrite !map_app, Hpair, Hnames.
Qed.

End EndToEnd.

(** X20: import, Select All, export.  Starting from an empty registry,
    when every image file of a selection reads and decodes and the data
    of each of its halves decodes again, stop is not pressed during the
    import, and nothing happens during the pauses of the export, then
    importing the selection, switching Select All on and exporting makes
    exactly two downloadHalf calls per image file, in selection order and
    left before right, and the call for a half yields the file
    <base>_left.jpg or <base>_right.jpg, where <base> is the file name
    without its extension; the export progress ends at twice the number
    of image files, out of as many, and the registry holds one pair per
    image file.  (The files themselves are triggered by the callbacks of
    the calls, in the order in which those run.) *)
Theorem import_select_all_export (picked : list File) (st : AppState)
        (clicks : Schedule) (pauses : Interleaved.Schedule) :
  splitImages st = [] ->
  imageFiles picked <> [] ->
  Forall exportable (imageFiles picked) ->
  undisturbed clicks ->
  leftAlone pauses ->
  let st1 := fst (fst (handleFileSelect (Some picked) st clicks)) in
  let result := Interleaved.downloadChecked (setAllChecked true st1) pauses in
  map (fun call => download <$> Interleaved.fileOf call) (snd result)
    = map Some (flat_map exportNames (imageFiles picked)) /\
  downloadProgress (fst (fst result)) =
    {| current := 2 * Z.of_nat (length (imageFiles picked));
       total := 2 * Z.of_nat (length (imageFiles picked)) |} /\
  Z.of_nat (length (splitImages (fst (fst result))))
    = Z.of_nat (length (imageFiles picked)).
Proof.
  intros Hempty Hne Huse Hu1 Hq st1 result.
  destruct (exportable_all _ Huse) as (results & Hall & Hlen & Hnames).
  pose proof (handleFileSelect_good picked st clicks results Hne Hall) as Himp.
  cbv zeta in Himp. fold st1 in Himp.
  destruct Himp as (m & _ & _ & _ & _ & _ & _ & _ & Hdone).
  destruct (Hdone Hu1) as [_ Himgs]. rewrite Hempty in Himgs. cbn [app] in Himgs.
  assert (Hsel : splitImages (setAllChecked true st1) = map (bothSet true) results).
  { unfold setAllChecked. rewrite splitImages_set, Himgs. reflexivity. }
  assert (Hcount : checkedCount (splitImages (setAllChecked true st1))
                   = 2 * Z.of_nat (length (imageFiles picked))).
  { rewrite Hsel, checkedCount_map_bothSet, Hlen. reflexivity. }
  assert (Hpos : checkedCount (splitImages (setAllChecked true st1)) <> 0).
  { rewrite Hcount. destruct (imageFiles picked); [congruence | cbn [length]; lia]. }
  pose proof (live_downloadChecked_leftAlone (setAllChecked true st1) pauses Hpos Hq)
    as Hexp.
  cbv zeta in Hexp. fold result in Hexp.
  destruct Hexp as (Hcalls & Hprog & _ & _ & Hsame & _).
  split; [now rewrite Hcalls, Hsel |].
  split; [now rewrite Hprog, Hcount |].
  rewrite Hsame, Hsel, length_map, Hlen. reflexivity.
Qed.

(* ===================================================================== *)
(* The theorems above at sample inputs                                   *)
(* ===================================================================== *)

Lemma export_without_stop_witness :
  snd (Interleaved.downloadChecked oneSelected [[]; []])
    = [Interleaved.halfCall LeftSide
         (toggled LeftSide (pairOf "roll2.jpg"))] /\
  downloadProgress (fst (fst (Interleaved.downloadChecked oneSelected [[]; []])))
    = {| current := 1; total := 1 |}.
Proof.
  pose proof (export_without_stop oneSelected [[]; []]
                ltac:(vm_compute; discriminate)
                ltac:(repeat constructor)) as H.
  cbv zeta in H. destruct H as (Hcalls & Hprog & _).
  split; [rewrite Hcalls; reflexivity | exact Hprog].
Defined.

Lemma export_under_any_schedule_witness :
  isDownloading
    (fst (fst (Interleaved.downloadChecked (setAllChecked true twoPairs)
                 [[Interleaved.ClearAll]]))) = false /\
  total (downloadProgress
           (fst (fst (Interleaved.downloadChecked (setAllChecked true twoPairs)
                        [[Interleaved.ClearAll]])))) = 4 /\
  1 <= current (downloadProgress
                  (fst (fst (Interleaved.downloadChecked (setAllChecked true twoPairs)
                               [[Interleaved.ClearAll]])))).
Proof.
  pose proof (export_under_any_schedule (setAllChecked true twoPairs)
                [[Interleaved.ClearAll]]
                ltac:(vm_compute; discriminate)) as H.
  cbv zeta in H. destruct H as (Hflag & _ & Htot & _ & Hone & _).
  split; [exact Hflag |]. split; [exact Htot | exact Hone].
Defined.

Lemma export_stopped_in_first_pause_witness :
  downloadProgress
    (fst (fst (Interleaved.downloadChecked (setAllChecked true twoPairs)
                 [[Interleaved.RemoveImagePair 0; Interleaved.StopDownload]])))
  = {| current := 1; total := 4 |}.
Proof.
  pose proof (export_stopped_in_first_pause (setAllChecked true twoPairs)
                [Interleaved.RemoveImagePair 0; Interleaved.StopDownload] []
                ltac:(vm_compute; discriminate)
                ltac:(right; left; reflexivity)) as H.
  cbv zeta in H. destruct H as (_ & Hprog & _). exact Hprog.
Defined.

Lemma export_cleared_in_first_pause_witness :
  current (downloadProgress
             (fst (fst (Interleaved.downloadChecked (setAllChecked true twoPairs)
                          [[Interleaved.ClearAll]])))) = 2 /\
  total (downloadProgress
           (fst (fst (Interleaved.downloadChecked (setAllChecked true twoPairs)
                        [[Interleaved.ClearAll]])))) = 4 /\
  length (snd (Interleaved.downloadChecked (setAllChecked true twoPairs)
                 [[Interleaved.ClearAll]])) = 2%nat.
Proof.
  pose proof (export_cleared_in_first_pause (setAllChecked true twoPairs)
                (bothSet true (pairOf "roll1.jpg"))
                [bothSet true (pairOf "roll2.jpg")] []
                eq_refl eq_refl eq_refl) as H.
  cbv zeta in H. destruct H as (Hcalls & Hcur & Htot & _).
  split; [exact Hcur |]. split; [exact Htot |]. rewrite Hcalls. reflexivity.
Defined.

Lemma export_stopped_after_first_witness :
  current (downloadProgress
             (fst (fst (downloadChecked (setAllChecked true twoPairs) [true])))) = 1 /\
  total (downloadProgress
           (fst (fst (downloadChecked (setAllChecked true twoPairs) [true])))) = 4.
Proof.
  pose proof (export_stopped_after_first (setAllChecked true twoPairs) [true] []
                ltac:(vm_compute; discriminate) eq_refl) as H.
  cbv zeta in H. destruct H as (Hcur & Htot & _).
  split; [exact Hcur | exact Htot].
Defined.

Lemma import_of_nothing_witness :
  handleFileSelect
    (Some [{| name := "notes.txt"; type := "text/plain"; readAsDataURL := None |}])
    twoPairs [true]
  = (twoPairs, [true], Resolved tt).
Proof.
  exact (import_of_nothing
           (Some [{| name := "notes.txt"; type := "text/plain";
                     readAsDataURL := None |}])
           twoPairs [true] eq_refl).
Defined.

Lemma import_only_appends_witness :
  exists (m : nat) (added : list SplitImage),
    splitImages
      (fst (fst (handleFileSelect
                   (Some [scan "1.jpg"; scan "2.jpg"; corrupt "3.jpg"])
                   twoPairs [])))
      = splitImages twoPairs ++ added /\
    Forall fresh added /\
    (m <= 3)%nat.
Proof.
  pose proof (import_only_appends
                [scan "1.jpg"; scan "2.jpg"; corrupt "3.jpg"] twoPairs []
                ltac:(vm_compute; discriminate)) as H.
  cbv zeta in H.
  destruct H as (m & added & Hm & _ & _ & Himgs & _ & Hfresh & _).
  exists m, added. split; [exact Himgs |]. split; [exact Hfresh | exact Hm].
Defined.

Lemma import_of_good_files_witness :
  exists m : nat,
    snd (handleFileSelect (Some threeScans) idle []) = Resolved tt /\
    m = 3%nat /\
    splitImages (fst (fst (handleFileSelect (Some threeScans) idle [])))
      = [pairOf "1.jpg"; pairOf "2.jpg"; pairOf "3.jpg"].
Proof.
  pose proof (import_of_good_files threeScans idle []
                [pairOf "1.jpg"; pairOf "2.jpg"; pairOf "3.jpg"]
                ltac:(vm_compute; discriminate) eq_refl) as H.
  cbv zeta in H.
  destruct H as (m & Hres & _ & _ & _ & _ & _ & _ & Hall).
  destruct (Hall ltac:(constructor)) as [Hm Himgs].
  exists m. split; [exact Hres |]. split; [exact Hm | exact Himgs].
Defined.

Lemma import_stopped_in_first_group_witness :
  splitImages (fst (fst (handleFileSelect (Some threeScans) idle [true])))
    = [pairOf "1.jpg"; pairOf "2.jpg"] /\
  importProgress (fst (fst (handleFileSelect (Some threeScans) idle [true])))
    = {| current := 2; total := 3 |}.
Proof.
  pose proof (import_stopped_in_first_group threeScans idle [true] []
                [pairOf "1.jpg"; pairOf "2.jpg"]
                ltac:(vm_compute; discriminate) eq_refl eq_refl) as H.
  cbv zeta in H. destruct H as (_ & Himgs & Hprog & _).
  split; [exact Himgs | exact Hprog].
Defined.

Lemma quarter_turns_kept_witness :
  quarterTurns (splitImages (rotateToDirection 0 LeftSide DeltaMinus90 twoPairs)) /\
  quarterTurns (splitImages (fst (fst (handleFileSelect (Some threeScans) twoPairs [])))).
Proof.
  assert (Hq : quarterTurns (splitImages twoPairs)).
  { repeat (constructor; [split; exists 0; reflexivity |]). constructor. }
  destruct (quarter_turns_kept twoPairs Hq) as (Hrot & _ & _ & _ & _ & Himp & _).
  split; [apply Hrot | apply Himp].
Defined.

Lemma rotate_then_export_witness :
  exists before after,
    downloadHalf (leftHalfOriginal (pairOf "roll1.jpg")) 180 "roll1.jpg" "left"
      = Some before /\
    downloadHalf (leftHalfOriginal (pairOf "roll1.jpg")) (180 + 90) "roll1.jpg" "left"
      = Some after /\
    (canvasWidth after, canvasHeight after)
      = (canvasHeight before, canvasWidth before).
Proof.
  destruct (rotate_then_export (leftHalfOriginal (pairOf "roll1.jpg")) 180 Delta90
              "roll1.jpg" "left" {| img_width := 3; img_height := 4 |}
              eq_refl ltac:(exists 2; reflexivity))
    as (before & after & Hb & Ha & Hdim & _).
  exists before, after. split; [exact Hb |]. split; [exact Ha | exact Hdim].
Defined.

Lemma export_modulo_full_turns_witness :
  exists d1 d2,
    downloadHalf (leftHalfOriginal (pairOf "roll1.jpg")) 450 "roll1.jpg" "left"
      = Some d1 /\
    downloadHalf (leftHalfOriginal (pairOf "roll1.jpg")) 90 "roll1.jpg" "left"
      = Some d2 /\
    canvasWidth d1 = canvasWidth d2 /\
    canvasHeight d1 = canvasHeight d2.
Proof.
  destruct (export_modulo_full_turns (leftHalfOriginal (pairOf "roll1.jpg")) 450 90
              "roll1.jpg" "left" {| img_width := 3; img_height := 4 |}
              eq_refl ltac:(exists 1; reflexivity))
    as (d1 & d2 & H1 & H2 & Hw & Hh & _).
  exists d1, d2. repeat split; assumption.
Defined.

Lemma crops_tile_the_image_witness :
  exists s first second c1 c2,
    splitImageInHalf (FileData (Some {| img_width := 7; img_height := 4 |}))
                     "roll1.jpg" = Resolved s /\
    leftHalfOriginal s = CanvasData ImagePng first /\
    rightHalfOriginal s = CanvasData ImagePng second /\
    drawn first = Some c1 /\ drawn second = Some c2 /\
    (sx c2 + sw c2 == 7)%Q /\
    width first = 3.
Proof.
  destruct (crops_tile_the_image
              (FileData (Some {| img_width := 7; img_height := 4 |}))
              "roll1.jpg" {| img_width := 7; img_height := 4 |}
              eq_refl eq_refl eq_refl)
    as (s & first & second & c1 & c2 & Hs & Hlo & Hro & _ & _ & Hd1 & Hd2 & _ & _
        & Hwide & _).
  destruct (Hwide eq_refl) as ((_ & _ & Hend & _) & _).
  exists s, first, second, c1, c2.
  do 5 (split; [assumption |]). split; [exact Hend |].
  vm_compute in Hs. injection Hs as <-. vm_compute in Hlo.
  injection Hlo as <-. reflexivity.
Defined.

Lemma split_then_export_witness :
  exists s d,
    splitImageInHalf (FileData (Some {| img_width := 7; img_height := 4 |}))
                     "roll1.jpg" = Resolved s /\
    downloadHalf (originalOf LeftSide s) 0 (originalName s) "left" = Some d /\
    (canvasWidth d, canvasHeight d) = (3, 4) /\
    download d = "roll1_left.jpg".
Proof.
  destruct (split_then_export
              (FileData (Some {| img_width := 7; img_height := 4 |}))
              "roll1.jpg" {| img_width := 7; img_height := 4 |} LeftSide 0 "left"
              eq_refl eq_refl eq_refl)
    as (s & Hs & _ & Hgood).
  assert (Hhalf : decode (originalOf LeftSide s)
                  = Some {| img_width := 3; img_height := 4 |}).
  { vm_compute in Hs. injection Hs as <-. reflexivity. }
  destruct (Hgood _ Hhalf) as (_ & d & Hd & Hdim & Hname).
  exists s, d. split; [exact Hs |]. split; [exact Hd |].
  split; [exact Hdim | exact Hname].
Defined.

Lemma import_select_all_export_witness :
  map (fun call => download <$> Interleaved.fileOf call)
      (snd (Interleaved.downloadChecked
              (setAllChecked true
                 (fst (fst (handleFileSelect (Some threeScans) idle []))))
              []))
  = [Some "1_left.jpg"; Some "1_right.jpg"; Some "2_left.jpg";
     Some "2_right.jpg"; Some "3_left.jpg"; Some "3_right.jpg"].
Proof.
  pose proof (import_select_all_export threeScans idle [] [] eq_refl
                ltac:(vm_compute; discriminate)) as H.
  cbv zeta in H. apply H.
  - repeat constructor;
      (eexists; split; [reflexivity |]; split; eexists; reflexivity).
  - constructor.
  - constructor.
Defined.
